(** * Fog index of accounting-policy sections: a model of [main.py]

    The program reads annual-report filings, cuts out one section per
    issuer, flattens it to text and scores the text with a Gunning-Fog
    style index.  This development embeds the scorer ([Fog]), the
    HTML-to-text step and the issuer extractors ([BaseMDNA] and its
    subclasses), and proves or refutes the statements of the specification
    about them.

    Python strings are sequences of code points; the regular expressions of
    the program are embedded as syntax trees and run by a backtracking
    matcher that follows the [re] module (leftmost match, ordered
    alternatives, greedy and lazy stars, zero-width assertions).  What the
    program takes from the Unicode database and from lxml is kept abstract
    in two type classes. *)

From Stdlib Require Import Floats Uint63.
From Stdlib Require Import String Ascii.
From Stdlib Require Import List NArith ZArith Bool Arith Lia.
Import ListNotations.

Set Implicit Arguments.

(** ** Python values *)

(** A [str] is a sequence of Unicode code points. *)
Definition char := N.
Bind Scope N_scope with char.
Definition str := list char.

Definition ord (a : ascii) : char := N_of_ascii a.

(** [u "abc"] is the Python literal ["abc"]; it is used for ASCII literals
    only. *)
Fixpoint u (s : string) : str :=
  match s with
  | EmptyString => []
  | String a s' => ord a :: u s'
  end.

Definition between (lo hi c : char) : bool := ((lo <=? c) && (c <=? hi))%N.

Definition str_eqb (a b : str) : bool :=
  if list_eq_dec N.eq_dec a b then true else false.

(** The exceptions the modelled code can raise. *)
Inductive exn :=
| ZeroDivisionError
| TypeError
| ValueError
| IndexError
| NotImplementedError
| AttributeError
| ParserError.

Inductive result (A : Type) :=
| Ok (a : A)
| Raise (e : exn).
Arguments Raise {A} e.

Definition bind {A B} (r : result A) (f : A -> result B) : result B :=
  match r with
  | Ok a => f a
  | Raise e => Raise e
  end.

Notation "x <- r ;; k" := (bind r (fun x => k))
  (at level 61, r at next level, right associativity).

(** ** What the program takes from the Unicode database

    [\w], [\b] and [\d] of a [str] pattern consult the Unicode database
    for code points above ASCII.  The tables are parameters: [hi_alnum c]
    is [Py_UNICODE_ISALNUM] and [hi_decimal c] is the decimal digit value
    of [c], both only ever asked for [c >= 128]. *)
Class Unicode := {
  hi_alnum : char -> bool;
  hi_decimal : char -> option N
}.

(** The table that knows no letter or digit above ASCII; closed examples
    on ASCII text are evaluated with it. *)
Definition ascii_only : Unicode :=
  {| hi_alnum := fun _ => false; hi_decimal := fun _ => None |}.

Section Chars.
Context {U : Unicode}.

Definition is_ascii_letter (c : char) : bool :=
  between 97 122 c || between 65 90 c.

Definition is_ascii_digit (c : char) : bool := between 48 57 c.

(** [\d]: a decimal digit. *)
Definition decimal_value (c : char) : option N :=
  if (c <? 128)%N then
    if is_ascii_digit c then Some (c - 48)%N else None
  else hi_decimal c.

Definition is_decimal (c : char) : bool :=
  match decimal_value c with Some _ => true | None => false end.

(** [\w]: alphanumeric or underscore. *)
Definition is_word (c : char) : bool :=
  if (c <? 128)%N then is_ascii_letter c || is_ascii_digit c || (c =? 95)%N
  else hi_alnum c.

End Chars.

(** [str.isspace] of one code point: the whitespace of [str.strip] and
    [str.split]. *)
Definition isspace (c : char) : bool :=
  between 9 13 c || between 28 32 c || (c =? 133)%N || (c =? 160)%N
  || (c =? 5760)%N || between 8192 8202 c || (c =? 8232)%N || (c =? 8233)%N
  || (c =? 8239)%N || (c =? 8287)%N || (c =? 12288)%N.

Fixpoint lstrip (s : str) : str :=
  match s with
  | c :: s' => if isspace c then lstrip s' else s
  | [] => []
  end.

Definition rstrip (s : str) : str := rev (lstrip (rev s)).

(** [s.strip()] *)
Definition strip (s : str) : str := rstrip (lstrip s).

(** [s.split()]: the maximal runs of non-whitespace; [cur] is the run being
    read, reversed. *)
Fixpoint split_from (cur : str) (s : str) : list str :=
  match s with
  | [] => match cur with [] => [] | _ => [rev cur] end
  | c :: s' =>
      if isspace c then
        match cur with
        | [] => split_from [] s'
        | _ => rev cur :: split_from [] s'
        end
      else split_from (c :: cur) s'
  end.

Definition split (s : str) : list str := split_from [] s.

(** [s.startswith(p)] *)
Fixpoint startswith (s p : str) : bool :=
  match p, s with
  | [], _ => true
  | a :: p', b :: s' => (a =? b)%N && startswith s' p'
  | _ :: _, [] => false
  end.

(** [needle in haystack] *)
Fixpoint contains (haystack needle : str) : bool :=
  startswith haystack needle ||
  match haystack with
  | [] => false
  | _ :: h' => contains h' needle
  end.

(** ** The regular expressions of [re], as far as the program uses them *)
Module Re.

(** A position in the subject: the text already passed (nearest character
    first) and the text ahead. *)
Record cursor := Cursor { before : str; after : str }.

Inductive regex :=
| Empty                         (* the empty pattern *)
| Class (p : char -> bool)      (* one character: a literal, a set, [.] *)
| Cat (r1 r2 : regex)           (* r1 r2 *)
| Alt (r1 r2 : regex)           (* r1|r2, r1 tried first *)
| Star (greedy : bool) (r : regex)   (* r* and r*? *)
| Bol                           (* ^ *)
| Eol                           (* $ *)
| WordBoundary                  (* \b *)
| NotAhead (r : regex).         (* (?!r) *)

(** r+ *)
Definition Plus (r : regex) : regex := Cat r (Star true r).

(** A literal character, and a literal string. *)
Definition Lit (c : char) : regex := Class (N.eqb c).

Fixpoint Lits (s : str) : regex :=
  match s with
  | [] => Empty
  | c :: s' => Cat (Lit c) (Lits s')
  end.

(** The items of a bracket expression. *)
Inductive item :=
| Chr (c : char)
| Rng (lo hi : char).

Definition in_item (c : char) (i : item) : bool :=
  match i with
  | Chr d => (c =? d)%N
  | Rng lo hi => between lo hi c
  end.

Definition in_set (items : list item) (c : char) : bool :=
  existsb (in_item c) items.

Definition chars (s : string) : list item := map Chr (u s).

(** [[...]] and [[^...]] *)
Definition OneOf (items : list item) : regex := Class (in_set items).
Definition NoneOf (items : list item) : regex :=
  Class (fun c => negb (in_set items c)).

(** [.] under DOTALL *)
Definition AnyChar : regex := Class (fun _ => true).

(** *** IGNORECASE

    Under [re.IGNORECASE] a character is lowered before it is compared,
    and a set also holds the code points that share an uppercase with one
    of its members.  [sre_lower] is the simple lowercase mapping on the
    code points that lower to an ASCII letter (A-Z, U+0130 and U+212A);
    any other code point lowers to itself or to another non-ASCII code
    point, which makes no difference for the sets of ASCII letters used
    here. *)
Definition sre_lower (c : char) : char :=
  if between 65 90 c then (c + 32)%N
  else if (c =? 304)%N then 105%N
  else if (c =? 8490)%N then 107%N
  else c.

(** The lowercase code points sharing an uppercase with an ASCII letter:
    i with dotless i (U+0131), s with long s (U+017F). *)
Definition fixes (c : char) : list item :=
  if (c =? 105)%N then [Chr 305%N]
  else if (c =? 115)%N then [Chr 383%N]
  else [].

Definition fold_item (i : item) : list item :=
  match i with
  | Chr c => Chr (sre_lower c) :: fixes (sre_lower c)
  | Rng lo hi => [Rng lo hi]
  end.

Definition in_set_i (items : list item) (c : char) : bool :=
  in_set (flat_map fold_item items) (sre_lower c).

Definition LitI (c : char) : regex :=
  Class (fun x => (sre_lower x =? sre_lower c)%N).
Definition OneOfI (items : list item) : regex := Class (in_set_i items).
Definition NoneOfI (items : list item) : regex :=
  Class (fun c => negb (in_set_i items c)).

Section Matcher.
Context {U : Unicode}.

Definition at_bol (z : cursor) : bool :=
  match before z with [] => true | _ => false end.

(** [$] without MULTILINE: at the end, or before a final newline. *)
Definition at_eol (z : cursor) : bool :=
  match after z with
  | [] => true
  | [c] => (c =? 10)%N
  | _ => false
  end.

Definition word_before (z : cursor) : bool :=
  match before z with c :: _ => is_word c | [] => false end.
Definition word_after (z : cursor) : bool :=
  match after z with c :: _ => is_word c | [] => false end.

(** [\b]: exactly one side of the position is a word character. *)
Definition at_boundary (z : cursor) : bool :=
  xorb (word_before z) (word_after z).

Definition shorter (z' z : cursor) : bool :=
  length (after z') <? length (after z).

(** The repetition loop of a star.  [step] runs the body once; an
    iteration must consume text to be repeated.  [n] bounds the iterations
    and is taken above the length of the text ahead. *)
Fixpoint star_loop (step : cursor -> (cursor -> option cursor) -> option cursor)
    (greedy : bool) (n : nat) (z : cursor) (k : cursor -> option cursor)
    : option cursor :=
  match n with
  | O => k z
  | S n' =>
      let more :=
        fun _ : unit =>
          step z (fun z' =>
            if shorter z' z then star_loop step greedy n' z' k else None) in
      if greedy then
        match more tt with
        | Some e => Some e
        | None => k z
        end
      else
        match k z with
        | Some e => Some e
        | None => more tt
        end
  end.

(** [run r z k]: match [r] at [z], then the rest of the pattern [k]; the
    first success in the matcher's order of preference is returned. *)
Fixpoint run (r : regex) (z : cursor) (k : cursor -> option cursor)
    : option cursor :=
  match r with
  | Empty => k z
  | Class p =>
      match after z with
      | c :: rest => if p c then k (Cursor (c :: before z) rest) else None
      | [] => None
      end
  | Cat r1 r2 => run r1 z (fun z' => run r2 z' k)
  | Alt r1 r2 =>
      match run r1 z k with
      | Some e => Some e
      | None => run r2 z k
      end
  | Star greedy r1 => star_loop (run r1) greedy (S (length (after z))) z k
  | Bol => if at_bol z then k z else None
  | Eol => if at_eol z then k z else None
  | WordBoundary => if at_boundary z then k z else None
  | NotAhead r1 =>
      match run r1 z Some with
      | Some _ => None
      | None => k z
      end
  end.

(** The end of the match of [r] that starts at [z], if there is one. *)
Definition match_at (r : regex) (z : cursor) : option cursor := run r z Some.

(** The text between a position and a later one. *)
Definition span (z e : cursor) : str :=
  firstn (length (after z) - length (after e)) (after z).

(** [pattern.search(s)]: the leftmost match, as the text before it and the
    matched text. *)
Fixpoint search_from (r : regex) (prev rest : str) : option (str * str) :=
  match match_at r (Cursor prev rest) with
  | Some e => Some (rev prev, span (Cursor prev rest) e)
  | None =>
      match rest with
      | [] => None
      | c :: rest' => search_from r (c :: prev) rest'
      end
  end.

Definition search (r : regex) (s : str) : option (str * str) :=
  search_from r [] s.

(** The successive non-overlapping matches, left to right.  After a match
    the scan resumes where the match ended: [skip] counts the characters
    still to pass before the next attempt.  (After an empty match the scan
    moves on by one character; no pattern of the program matches the empty
    string.) *)
Fixpoint scan (r : regex) (prev rest : str) (skip : nat) : list str :=
  match skip with
  | S skip' =>
      match rest with
      | [] => []
      | c :: rest' => scan r (c :: prev) rest' skip'
      end
  | O =>
      match match_at r (Cursor prev rest) with
      | Some e =>
          let m := span (Cursor prev rest) e in
          m :: match rest with
               | [] => []
               | c :: rest' => scan r (c :: prev) rest' (Nat.pred (length m))
               end
      | None =>
          match rest with
          | [] => []
          | c :: rest' => scan r (c :: prev) rest' 0
          end
      end
  end.

(** [pattern.finditer(s)]: one entry per match, here its text. *)
Definition finditer (r : regex) (s : str) : list str := scan r [] s 0.

(** [pattern.findall(s)] of a pattern without groups: the matched texts. *)
Definition findall (r : regex) (s : str) : list str := finditer r s.

End Matcher.
End Re.

(** ** Python floats

    A Python [float] is an IEEE 754 binary64 value. *)

(** [sys.maxsize]: no list is longer. *)
Definition maxsize : Z := 9223372036854775807.

(** [float(n)] for the length [n] of a list: the nearest float. *)
Definition float_of_len (n : nat) : float :=
  PrimFloat.of_uint63 (Uint63.of_Z (Z.min (Z.of_nat n) maxsize)).

(** [a / b] on floats raises on a zero divisor. *)
Definition truediv (a b : float) : result float :=
  if PrimFloat.eqb b 0%float then Raise ZeroDivisionError
  else Ok (PrimFloat.div a b).

(** ** class Fog *)
Module Fog.
Import Re.

Section Fog.
Context {U : Unicode}.

(** [(^|[^aeuoiy])(?!e$)[aeouiy]], IGNORECASE *)
Definition re_syllables : regex :=
  Cat (Alt Bol (NoneOfI (chars "aeuoiy")))
      (Cat (NotAhead (Cat (LitI (ord "e")) Eol))
           (OneOfI (chars "aeouiy"))).

(** Counts the number of syllables in a word.  [findall] gives one entry
    per match (the text of the pattern's only group); the entries are
    counted. *)
Definition count_syllables (word : str) : nat :=
  length (finditer re_syllables word).

(** Checks whether word has three or more syllables. *)
Definition is_complex_word (word : str) : bool :=
  3 <=? count_syllables word.

(** [\b[a-zA-Z\'\-]+\b] *)
Definition word_chars : list item :=
  [Rng (ord "a") (ord "z"); Rng (ord "A") (ord "Z"); Chr (ord "'");
   Chr (ord "-")].

Definition re_words : regex :=
  Cat WordBoundary (Cat (Plus (OneOf word_chars)) WordBoundary).

(** Extracts all words from a given text. *)
Definition identify_words (input_text : str) : list str :=
  findall re_words input_text.

(** Counts the number of words in a given text. *)
Definition count_words (input_text : str) : nat :=
  length (identify_words input_text).

(** [\b[A-Z](?:[^\.!?]|\.\d)*[\.!?]] *)
Definition re_sentences : regex :=
  Cat WordBoundary
    (Cat (OneOf [Rng (ord "A") (ord "Z")])
       (Cat (Star true (Alt (NoneOf (chars ".!?"))
                            (Cat (Lit (ord ".")) (Class is_decimal))))
            (OneOf (chars ".!?")))).

(** Extracts all sentences from a given text. *)
Definition identify_sentences (input_text : str) : list str :=
  findall re_sentences input_text.

(** Counts the number of sentences in input_text. *)
Definition count_sentences (input_text : str) : nat :=
  length (identify_sentences input_text).

(** Python's [0.4], the binary64 value nearest to 4/10. *)
Definition c0_4 : float := 0x1.999999999999ap-2%float.

(** Calculates the fog index for a given text. *)
Definition calculate_fog (text : str) : result float :=
  let sentences := identify_sentences text in
  let words := identify_words text in
  let complex_words := filter is_complex_word words in
  a <- truediv (float_of_len (length words))
               (float_of_len (length sentences)) ;;
  b <- truediv (PrimFloat.mul 100%float (float_of_len (length complex_words)))
               (float_of_len (length words)) ;;
  Ok (PrimFloat.mul c0_4 (PrimFloat.add a b)).

End Fog.
End Fog.

(** ** [datetime] *)

(** A [datetime] read with a date-only format: the time of day is
    midnight. *)
Record datetime := Datetime { year : N; month : N; day : N }.

Definition is_leap (y : N) : bool :=
  ((y mod 4 =? 0) && (negb (y mod 100 =? 0) || (y mod 400 =? 0)))%N.

Definition days_in_month (y m : N) : N :=
  if (m =? 2)%N then (if is_leap y then 29 else 28)%N
  else if ((m =? 4) || (m =? 6) || (m =? 9) || (m =? 11))%N then 30%N
  else 31%N.

(** The constructor's range check. *)
Definition valid_date (d : datetime) : bool :=
  ((1 <=? year d) && (year d <=? 9999) && (1 <=? month d) && (month d <=? 12)
   && (1 <=? day d) && (day d <=? days_in_month (year d) (month d)))%N.

(** [a > b] *)
Definition datetime_gt (a b : datetime) : bool :=
  ((year b <? year a)
   || ((year a =? year b)
       && ((month b <? month a)
           || ((month a =? month b) && (day b <? day a)))))%N.

Definition digit (n : N) : char := (48 + n)%N.

Fixpoint drop_zeros (s : str) : str :=
  match s with
  | c :: (_ :: _) as s' => if (c =? 48)%N then drop_zeros s' else s
  | _ => s
  end.

(** [d.strftime('%Y')]: the year in decimal, four digits from the year
    1000 on. *)
Definition strftime_Y (d : datetime) : str :=
  let y := year d in
  drop_zeros [digit (y / 1000); digit ((y / 100) mod 10);
              digit ((y / 10) mod 10); digit (y mod 10)]%N.

Section Strptime.
Context {U : Unicode}.

Definition orelse {A} (a : option A) (b : unit -> option A) : option A :=
  match a with Some x => Some x | None => b tt end.

(** [%m] is [1[0-2]|0[1-9]|[1-9]]; the alternatives are tried in this
    order, each followed by the rest of the format [k]. *)
Definition directive_m {A} (s : str) (k : N -> str -> option A) : option A :=
  orelse (match s with
          | 49 :: c :: r => if between 48 50 c then k (10 + (c - 48)) r else None
          | _ => None
          end)%N
  (fun _ => orelse (match s with
          | 48 :: c :: r => if between 49 57 c then k (c - 48) r else None
          | _ => None
          end)%N
  (fun _ => match s with
          | c :: r => if between 49 57 c then k (c - 48)%N r else None
          | _ => None
          end)).

(** [%d] is [3[0-1]|[1-2]\d|0[1-9]|[1-9]| [1-9]]. *)
Definition directive_d {A} (s : str) (k : N -> str -> option A) : option A :=
  orelse (match s with
          | 51 :: c :: r => if between 48 49 c then k (30 + (c - 48)) r else None
          | _ => None
          end)%N
  (fun _ => orelse (match s with
          | a :: c :: r =>
              if between 49 50 a then
                match decimal_value c with
                | Some v => k (10 * (a - 48) + v) r
                | None => None
                end
              else None
          | _ => None
          end)%N
  (fun _ => orelse (match s with
          | 48 :: c :: r => if between 49 57 c then k (c - 48) r else None
          | _ => None
          end)%N
  (fun _ => orelse (match s with
          | c :: r => if between 49 57 c then k (c - 48)%N r else None
          | _ => None
          end)
  (fun _ => match s with
          | 32 :: c :: r => if between 49 57 c then k (c - 48) r else None
          | _ => None
          end)%N))).

(** [%Y] is [\d\d\d\d]. *)
Definition directive_Y {A} (s : str) (k : N -> str -> option A) : option A :=
  match s with
  | a :: b :: c :: d :: r =>
      match decimal_value a, decimal_value b, decimal_value c, decimal_value d with
      | Some va, Some vb, Some vc, Some vd =>
          k (1000 * va + 100 * vb + 10 * vc + vd)%N r
      | _, _, _, _ => None
      end
  | _ => None
  end.

Definition slash {A} (s : str) (k : str -> option A) : option A :=
  match s with
  | 47%N :: r => k r
  | _ => None
  end.

(** [datetime.strptime(s, '%m/%d/%Y')]: the format's pattern is matched at
    the start of [s], nothing may remain after it, and the date must
    exist. *)
Definition strptime_mdY (s : str) : result datetime :=
  match
    directive_m s (fun m s1 =>
      slash s1 (fun s2 =>
        directive_d s2 (fun d s3 =>
          slash s3 (fun s4 =>
            directive_Y s4 (fun y rest => Some (Datetime y m d, rest))))))
  with
  | Some (dt, []) => if valid_date dt then Ok dt else Raise ValueError
  | Some (_, _ :: _) => Raise ValueError
  | None => Raise ValueError
  end.

End Strptime.

(** ** lxml trees *)

(** An element has a tag, attributes, the text before its first child, its
    children and the text after its end tag; a comment has its body and the
    text after it. *)
#[local] Set Warnings "-register-all".
Inductive node :=
| Element (tag : str) (attrib : list (str * str)) (text : option str)
    (children : list node) (tail : option str)
| Comment (body : str) (tail : option str).

Definition bytes := list N.

(** What [fromstring] is given: a [str] or serialized [bytes]. *)
Inductive markup :=
| Str (s : str)
| Bytes (b : bytes).

(** The element returned by [lxml.html.fromstring]: [self] is the element
    and [root] the root element of the tree it lives in (the element
    itself, or the [html] element lxml wrapped a fragment in). *)
Record HtmlElement := { root : node; self : node }.

(** The parser and the serializer of lxml. *)
Class Lxml := {
  fromstring : markup -> result HtmlElement;
  tostring : node -> bytes
}.

Definition text_of (n : node) : option str :=
  match n with
  | Element _ _ t _ _ => t
  | Comment b _ => Some b
  end.

Definition tail_of (n : node) : option str :=
  match n with
  | Element _ _ _ _ t => t
  | Comment _ t => t
  end.

Definition children_of (n : node) : list node :=
  match n with
  | Element _ _ _ cs _ => cs
  | Comment _ _ => []
  end.

Definition has_tag (t : str) (n : node) : bool :=
  match n with
  | Element t' _ _ _ _ => str_eqb t' t
  | Comment _ _ => false
  end.

(** [@name="value"] *)
Definition has_attr (name value : str) (n : node) : bool :=
  match n with
  | Element _ a _ _ _ =>
      existsb (fun kv => str_eqb (fst kv) name && str_eqb (snd kv) value) a
  | Comment _ _ => false
  end.

(** The nodes of a tree in document order, each with its parent. *)
Fixpoint descend (parent : option node) (n : node) : list (option node * node) :=
  (parent, n) ::
  match n with
  | Element _ _ _ cs _ => flat_map (descend (Some n)) cs
  | Comment _ _ => []
  end.

(** [tag[@name="value"]] *)
Definition step (tag name value : str) (n : node) : bool :=
  has_tag tag n && has_attr name value n.

(** [doc.xpath('//tag[@name="value"]')] *)
Definition xpath_any (doc : HtmlElement) (tag name value : str) : list node :=
  map snd (filter (fun pn => step tag name value (snd pn))
                  (descend None (root doc))).

(** [doc.xpath('//tag[@name="value"]/child')] *)
Definition xpath_child (doc : HtmlElement) (tag name value child : str)
    : list node :=
  map snd (filter (fun pn =>
                     has_tag child (snd pn) &&
                     match fst pn with
                     | Some p => step tag name value p
                     | None => false
                     end)
                  (descend None (root doc))).

Definition opt_str (o : option str) : str :=
  match o with Some s => s | None => [] end.

(** The text inside a node as XPath's [string()] collects it: the text
    nodes below it in document order; a comment below contributes only the
    text after it. *)
Fixpoint inner_text (n : node) : str :=
  match n with
  | Element _ _ t cs _ =>
      opt_str t ++ flat_map (fun c => inner_text c ++ opt_str (tail_of c)) cs
  | Comment _ _ => []
  end.

(** [n.text_content()] *)
Definition text_content (n : node) : str :=
  match n with
  | Element _ _ _ _ _ => inner_text n
  | Comment b _ => b
  end.

(** ** The extractor classes *)

Inductive cls :=
| BaseMDNA
| AppleMDNA
| NetflixMDNA
| FacebookMDNA
| AmazonMDNA
| GoogleMDNA.

(** The method resolution order of each class (below [object]). *)
Definition mro (c : cls) : list cls :=
  match c with
  | BaseMDNA => [BaseMDNA]
  | AppleMDNA => [AppleMDNA; BaseMDNA]
  | NetflixMDNA => [NetflixMDNA; BaseMDNA]
  | FacebookMDNA => [FacebookMDNA; AppleMDNA; BaseMDNA]
  | AmazonMDNA => [AmazonMDNA; BaseMDNA]
  | GoogleMDNA => [GoogleMDNA; BaseMDNA]
  end.

(** Attribute lookup on a class: [own c] is the method a class body
    defines itself, and the first class of the resolution order that
    defines one supplies it. *)
Fixpoint first_defined {T} (own : cls -> option T) (l : list cls) : option T :=
  match l with
  | [] => None
  | c :: l' =>
      match own c with
      | Some m => Some m
      | None => first_defined own l'
      end
  end.

Definition getattr {T} (own : cls -> option T) (c : cls) : result T :=
  match first_defined own (mro c) with
  | Some m => Ok m
  | None => Raise AttributeError
  end.

(** What [extract_mdna] returns: [None] from a bare [return], or a pair of
    the fragment and the year, either of which may be [None]. *)
Definition extracted := option (option markup * option str).

Section Extractors.
Context {U : Unicode} {L : Lxml}.

(** *** class BaseMDNA *)

Definition BaseMDNA_extract_mdna (c : cls) (html_source : markup)
    : result extracted :=
  Raise NotImplementedError.

Definition block_tags : list str :=
  map u ["tr"; "th"; "td"; "a"; "p"; "div"; "br"; "h1"; "h2"; "h3"; "h4";
         "h5"]%string.

(** ["\n"] *)
Definition newline : str := [10%N].

(** The body of the inner loop: [element.text] gets a newline at its end,
    or becomes a newline when it is empty or missing. *)
Definition add_newline (element : node) : node :=
  match element with
  | Element t a x cs tl =>
      match x with
      | None | Some [] => Element t a (Some newline) cs tl
      | Some s => Element t a (Some (s ++ newline)) cs tl
      end
  | Comment _ _ => element
  end.

(** One round of the outer loop: every element of [doc.findall(tag)], the
    children of [doc] with that tag, is updated in place. *)
Definition mark_tag (doc : node) (tag : str) : node :=
  match doc with
  | Element t a x cs tl =>
      Element t a x
        (map (fun e => if has_tag tag e then add_newline e else e) cs) tl
  | Comment _ _ => doc
  end.

(** Converts HTML code to plain text *)
Definition BaseMDNA_get_text_from_html (c : cls) (html : markup) : result str :=
  doc <- fromstring html ;;
  let doc' := fold_left mark_tag block_tags (self doc) in
  Ok (strip (text_content doc')).

(** *** class AppleMDNA *)

Definition policies : str := u "Summary of Significant Accounting Policies".

Definition AppleMDNA__extract_mdna_after_2019 (c : cls) (doc : HtmlElement)
    : option markup :=
  match
    find (fun td =>
            match text_of td with
            | None => false
            | Some t => startswith (strip t) policies
            end)
         (xpath_any doc (u "td") (u "class") (u "text"))
  with
  | Some td => Some (Bytes (tostring td))
  | None => None
  end.

Definition AppleMDNA__extract_mdna_before_2019 (c : cls) (doc : HtmlElement)
    : option markup :=
  match
    find (fun div => match text_of div with None => false | Some _ => true end)
         (xpath_child doc (u "div") (u "id")
            (u "divSummary of Significant Accounting Policies") (u "div"))
  with
  | Some div => Some (Bytes (tostring div))
  | None => None
  end.

Definition _extract_mdna_after_2019 (c : cls) (doc : HtmlElement)
    : result (option markup) :=
  m <- getattr (fun k => match k with
                         | AppleMDNA => Some AppleMDNA__extract_mdna_after_2019
                         | _ => None
                         end) c ;;
  Ok (m c doc).

Definition _extract_mdna_before_2019 (c : cls) (doc : HtmlElement)
    : result (option markup) :=
  m <- getattr (fun k => match k with
                         | AppleMDNA => Some AppleMDNA__extract_mdna_before_2019
                         | _ => None
                         end) c ;;
  Ok (m c doc).

(** [doc.xpath('//div[@class="ModuleFilingTitle"]/span')] *)
Definition filing_title (doc : HtmlElement) : list node :=
  xpath_child doc (u "div") (u "class") (u "ModuleFilingTitle") (u "span").

(** [title[0].text.split()[-1]] *)
Definition last_token (t : str) : result str :=
  match rev (split t) with
  | tok :: _ => Ok tok
  | [] => Raise IndexError
  end.

(** [datetime(year=2019, month=1, day=1)] *)
Definition cutoff : datetime := Datetime 2019 1 1.

Definition AppleMDNA_extract_mdna (c : cls) (html_source : markup)
    : result extracted :=
  doc <- fromstring html_source ;;
  match filing_title doc with
  | [] => Ok None
  | t0 :: _ =>
      match text_of t0 with
      | None => Ok None
      | Some t =>
          date_str <- last_token t ;;
          report_date <- strptime_mdY date_str ;;
          let year := strftime_Y report_date in
          if datetime_gt report_date cutoff then
            frag <- _extract_mdna_after_2019 c doc ;;
            Ok (Some (frag, Some year))
          else
            frag <- _extract_mdna_before_2019 c doc ;;
            Ok (Some (frag, Some year))
      end
  end.

(** *** class NetflixMDNA and class AmazonMDNA *)

(** The loop of both classes: the first container whose serialization
    holds one of the phrases. *)
Definition first_container (doc : HtmlElement) (phrases : list bytes)
    : option markup :=
  match
    find (fun s => existsb (contains s) phrases)
         (map tostring
              (xpath_any doc (u "div") (u "class")
                 (u "reportContainer subcontainerNotSelected")))
  with
  | Some s => Some (Bytes s)
  | None => None
  end.

Definition dated_container (phrases : list bytes) (html_source : markup)
    : result extracted :=
  doc <- fromstring html_source ;;
  match filing_title doc with
  | [] => Ok None
  | t0 :: _ =>
      match text_of t0 with
      | None => Ok None
      | Some t =>
          date_str <- last_token t ;;
          report_date <- strptime_mdY date_str ;;
          let year := strftime_Y report_date in
          Ok (Some (first_container doc phrases, Some year))
      end
  end.

Definition netflix_phrases : list bytes :=
  [u "Organization And Summary Of Significant Accounting Policies (Policy)";
   u "Organization and Summary of Significant Accounting Policies (Policy)"].

Definition NetflixMDNA_extract_mdna (c : cls) (html_source : markup)
    : result extracted :=
  dated_container netflix_phrases html_source.

Definition amazon_phrases : list bytes :=
  [u "Description of Business, Accounting Policies, and Supplemental Disclosures (Policies)";
   u "DESCRIPTION OF BUSINESS AND ACCOUNTING POLICIES (Policies)";
   u "Description of Business and Accounting Policies (Policies)"].

Definition AmazonMDNA_extract_mdna (c : cls) (html_source : markup)
    : result extracted :=
  dated_container amazon_phrases html_source.

(** *** class GoogleMDNA *)

(** The heading the pattern starts with; its apostrophe is U+2019, the
    right single quotation mark. *)
Definition heading : str :=
  u "MANAGEMENT" ++ [8217%N]
  ++ u "S DISCUSSION AND ANALYSIS OF FINANCIAL CONDITION AND RESULTS OF OPERATIONS".

(** [heading.*?\<hr], DOTALL *)
Definition mdan_cmp : Re.regex :=
  Re.Cat (Re.Lits heading)
    (Re.Cat (Re.Star false Re.AnyChar) (Re.Lits (u "<hr"))).

Definition GoogleMDNA_extract_mdna (c : cls) (html_source : markup)
    : result extracted :=
  match html_source with
  | Str s =>
      match Re.search mdan_cmp s with
      | Some (_, m) => Ok (Some (Some (Str m), None))
      | None => Ok (Some (None, None))
      end
  | Bytes _ => Raise TypeError
  end.

(** *** The methods, looked up on the class they are called on *)

Definition extract_mdna (c : cls) (html_source : markup) : result extracted :=
  m <- getattr (fun k => match k with
                         | BaseMDNA => Some BaseMDNA_extract_mdna
                         | AppleMDNA => Some AppleMDNA_extract_mdna
                         | NetflixMDNA => Some NetflixMDNA_extract_mdna
                         | FacebookMDNA => None
                         | AmazonMDNA => Some AmazonMDNA_extract_mdna
                         | GoogleMDNA => Some GoogleMDNA_extract_mdna
                         end) c ;;
  m c html_source.

Definition get_text_from_html (c : cls) (html : markup) : result str :=
  m <- getattr (fun k => match k with
                         | BaseMDNA => Some BaseMDNA_get_text_from_html
                         | _ => None
                         end) c ;;
  m c html.

Definition BaseMDNA_get_mdna_text (c : cls) (html_complete_10k : markup)
    : result (option str * option str) :=
  r <- extract_mdna c html_complete_10k ;;
  match r with
  | None => Raise TypeError
  | Some (html_mdna_only, year) =>
      match html_mdna_only with
      | None => Ok (None, year)
      | Some fragment =>
          mdna_text <- get_text_from_html c fragment ;;
          Ok (Some mdna_text, year)
      end
  end.

Definition get_mdna_text (c : cls) (html_complete_10k : markup)
    : result (option str * option str) :=
  m <- getattr (fun k => match k with
                         | BaseMDNA => Some BaseMDNA_get_mdna_text
                         | _ => None
                         end) c ;;
  m c html_complete_10k.

End Extractors.

(** ** Vocabulary of the statements *)

(** [s.find(needle)]: the index of the first occurrence, if any. *)
Fixpoint str_find (s needle : str) : option nat :=
  if startswith s needle then Some 0
  else match s with
       | [] => None
       | _ :: s' => option_map S (str_find s' needle)
       end.

(** The vowel characters: a, e, i, o, u, y in either case. *)
Definition is_vowel (c : char) : bool :=
  Re.in_set (Re.chars "aeiouyAEIOUY") c.

Definition vowels (word : str) : nat := length (filter is_vowel word).

(** An ASCII letter, an apostrophe or a hyphen. *)
Definition word_char (c : char) : bool :=
  is_ascii_letter c || (c =? 39)%N || (c =? 45)%N.

(** The extractors that read the year off the filing title. *)
Definition title_based (c : cls) : bool :=
  match c with
  | AppleMDNA | NetflixMDNA | FacebookMDNA | AmazonMDNA => true
  | BaseMDNA | GoogleMDNA => false
  end.

(** How the title convention turns out on a document: no title span with
    text, a title without any token, a last token that is no date, or a
    date. *)
Inductive title_outcome :=
| NoTitle
| NoToken
| BadDate
| Dated (d : datetime).

Definition title_outcome_of {U : Unicode} (doc : HtmlElement) : title_outcome :=
  match filing_title doc with
  | [] => NoTitle
  | t0 :: _ =>
      match text_of t0 with
      | None => NoTitle
      | Some t =>
          match last_token t with
          | Raise _ => NoToken
          | Ok tok =>
              match strptime_mdY tok with
              | Ok d => Dated d
              | Raise _ => BadDate
              end
          end
      end
  end.

Definition fragment_of (r : extracted) : option markup :=
  match r with
  | Some (f, _) => f
  | None => None
  end.

Definition year_of (r : extracted) : option str :=
  match r with
  | Some (_, y) => y
  | None => None
  end.

(** A cell the post-2019 search accepts. *)
Definition policy_cell (td : node) : bool :=
  match text_of td with
  | None => false
  | Some t => startswith (strip t) policies
  end.

(** The tree after the newlines are attached, said in one pass: each child
    of the root whose tag is one of the twelve gets a newline at the end of
    its leading text; the root and deeper elements are untouched. *)
Definition is_block (e : node) : bool :=
  existsb (fun tag => has_tag tag e) block_tags.

Definition append_to_text (s : str) (e : node) : node :=
  match e with
  | Element t a x cs tl => Element t a (Some (opt_str x ++ s)) cs tl
  | Comment _ _ => e
  end.

Definition newline_after_child_text (doc : node) : node :=
  match doc with
  | Element t a x cs tl =>
      Element t a x
        (map (fun e => if is_block e then append_to_text newline e else e) cs)
        tl
  | Comment _ _ => doc
  end.

(** ** Example documents *)

Definition quote : str := [34%N].

(** A plain serializer, enough for the examples: start tag with attributes,
    text, children, end tag, tail. *)
Fixpoint serialize (n : node) : bytes :=
  match n with
  | Element t a x cs tl =>
      u "<" ++ t
      ++ flat_map (fun kv => u " " ++ fst kv ++ u "=" ++ quote ++ snd kv ++ quote) a
      ++ u ">" ++ opt_str x ++ flat_map serialize cs
      ++ u "</" ++ t ++ u ">" ++ opt_str tl
  | Comment b tl => u "<!--" ++ b ++ u "-->" ++ opt_str tl
  end.

Definition elem (tag : string) (a : list (str * str)) (x : option str)
    (cs : list node) : node :=
  Element (u tag) a x cs None.

(** A full document: [fromstring] returns its root. *)
Definition document (body : list node) : HtmlElement :=
  let html := elem "html" [] None [elem "body" [] None body] in
  {| root := html; self := html |}.

(** A fragment of one element: [fromstring] returns the element, which
    lives in the [html] tree lxml built around it. *)
Definition fragment (e : node) : HtmlElement :=
  {| root := elem "html" [] None [elem "body" [] None [e]]; self := e |}.

Definition filing_title_div (title : string) : node :=
  elem "div" [(u "class", u "ModuleFilingTitle")] None
    [elem "span" [] (Some (u title)) []].

Definition policy_td : node :=
  elem "td" [(u "class", u "text")]
    (Some (u " Summary of Significant Accounting Policies and Estimates")) [].

Definition policy_table : node :=
  elem "table" [] None [elem "tr" [] None [policy_td]].

(** [<table><tr><td>A</td><td>B</td></tr></table>] *)
Definition table_AB_source : str :=
  u "<table><tr><td>A</td><td>B</td></tr></table>".
Definition table_AB : node :=
  elem "table" [] None
    [elem "tr" [] None
       [elem "td" [] (Some (u "A")) []; elem "td" [] (Some (u "B")) []]].

(** A filing of 10/15/2020 with a policy cell. *)
Definition filing_2020_source : str :=
  u "<html><body><div class='ModuleFilingTitle'><span>Annual Report 10/15/2020</span></div><table><tr><td class='text'> Summary of Significant Accounting Policies and Estimates</td></tr></table></body></html>".
Definition filing_2020 : HtmlElement :=
  document [filing_title_div "Annual Report 10/15/2020"; policy_table].

(** The same filing dated on the cutoff day. *)
Definition filing_cutoff_source : str :=
  u "<html><body><div class='ModuleFilingTitle'><span>Annual Report 01/01/2019</span></div><table><tr><td class='text'> Summary of Significant Accounting Policies and Estimates</td></tr></table></body></html>".
Definition filing_cutoff : HtmlElement :=
  document [filing_title_div "Annual Report 01/01/2019"; policy_table].

(** A filing whose title ends in a date of another format. *)
Definition filing_iso_date_source : str :=
  u "<html><body><div class='ModuleFilingTitle'><span>Annual Report 2020-10-15</span></div></body></html>".
Definition filing_iso_date : HtmlElement :=
  document [filing_title_div "Annual Report 2020-10-15"].

(** A document without a filing title. *)
Definition untitled_source : str :=
  u "<html><body><p>Nothing to see</p></body></html>".
Definition untitled : HtmlElement :=
  document [elem "p" [] (Some (u "Nothing to see")) []].

Definition examples : list (str * HtmlElement) :=
  [(table_AB_source, fragment table_AB);
   (filing_2020_source, filing_2020);
   (filing_cutoff_source, filing_cutoff);
   (filing_iso_date_source, filing_iso_date);
   (untitled_source, untitled)].

Fixpoint lookup_example (s : str) (l : list (str * HtmlElement))
    : result HtmlElement :=
  match l with
  | [] => Raise ParserError
  | (src, doc) :: l' => if str_eqb s src then Ok doc else lookup_example s l'
  end.

(** lxml on the example documents: each source with the tree the parser
    builds for it. *)
Definition example_lxml : Lxml :=
  {| fromstring := fun m =>
       match m with
       | Str s => lookup_example s examples
       | Bytes b => lookup_example b examples
       end;
     tostring := serialize |}.

(** A text of two sentences and twenty words, four of them complex
    (company, reported, revenue, Management). *)
Definition two_sentences : str :=
  u "The company reported revenue of nine million dollars for the quarter. Management expects that sales will grow again next year.".

(** The example of the specification for sentence splitting. *)
Definition smith_report : str :=
  u "This is Mr. Smith's report. It scores 3.5 points.".

(** A document with the heading of the pattern, and one with the heading
    as the specification writes it, with an ASCII apostrophe. *)
Definition google_document : str :=
  u "xx" ++ heading ++ u "<div>a</div><hr><hr>".

Definition ascii_heading : str :=
  u "MANAGEMENT'S DISCUSSION AND ANALYSIS OF FINANCIAL CONDITION AND RESULTS OF OPERATIONS".

Definition ascii_heading_document : str :=
  ascii_heading ++ u "<div>...</div><hr>".

(** ** Auxiliary notions of the proofs *)

(** The position reached from [z] by passing [w], with [rest] ahead. *)
Definition advance (z : Re.cursor) (w : str) (rest : str) : Re.cursor :=
  Re.Cursor (rev w ++ Re.before z) rest.

(** [[aeouiy]] under IGNORECASE *)
Definition vowel_i (c : char) : bool := Re.in_set_i (Re.chars "aeouiy") c.

(** What the loops of [get_text_from_html] do to one child of the root. *)
Definition mark_child (tags : list str) (e : node) : node :=
  fold_left (fun e tag => if has_tag tag e then add_newline e else e) tags e.

(** The least exponent of binary64, and the floats that are neither zero
    nor NaN. *)
Definition emin64 : Z := SpecFloat.emin prec emax.

Definition nonzero (x : spec_float) : bool :=
  match x with
  | S754_finite _ _ _ | S754_infinity _ => true
  | _ => false
  end.

(** ** Vocabulary of the further properties *)

(** A final e: the character lowers to e and nothing, or only a final
    newline, follows it. *)
Definition final_e (c : char) (rest : str) : bool :=
  (Re.sre_lower c =? 101)%N
  && match rest with
     | [] => true
     | [d] => (d =? 10)%N
     | _ => false
     end.

(** The number of vowel groups that count: the positions of a vowel that
    does not follow a vowel, the final e apart.  [after_vowel] tells
    whether the character before [s] is a vowel. *)
Fixpoint vowel_groups (after_vowel : bool) (s : str) : nat :=
  match s with
  | [] => 0
  | c :: s' =>
      (if vowel_i c && negb after_vowel && negb (final_e c s') then 1 else 0)
      + vowel_groups (vowel_i c) s'
  end.

Definition ascii_lower (c : char) : char :=
  if between 65 90 c then (c + 32)%N else c.

Definition ascii_upper (c : char) : char :=
  if between 97 122 c then (c - 32)%N else c.

(** An uppercase ASCII letter, and the three characters that end a
    sentence. *)
Definition is_upper (c : char) : bool := between 65 90 c.

Definition terminator (c : char) : bool :=
  ((c =? 46) || (c =? 33) || (c =? 63))%N.

(** The inside of a sentence: the only sentence-ending character it may
    hold is a period that is directly followed by a decimal digit. *)
Fixpoint sentence_body {U : Unicode} (s : str) : bool :=
  match s with
  | [] => true
  | c :: s' =>
      (negb (terminator c)
       || ((c =? 46)%N
           && match s' with d :: _ => is_decimal d | [] => false end))
      && sentence_body s'
  end.

(** [pieces ws s]: the strings [ws] lie in [s] one after the other, without
    overlap. *)
Fixpoint pieces (ws : list str) (s : str) : Prop :=
  match ws with
  | [] => True
  | w :: ws' => exists gap s', s = gap ++ w ++ s' /\ pieces ws' s'
  end.

(** The maximal runs of characters that satisfy [p], left to right; [cur]
    is the run being read, reversed. *)
Fixpoint runs_from (p : char -> bool) (cur : str) (s : str) : list str :=
  match s with
  | [] => match cur with [] => [] | _ => [rev cur] end
  | c :: s' =>
      if p c then runs_from p (c :: cur) s'
      else match cur with
           | [] => runs_from p [] s'
           | _ => rev cur :: runs_from p [] s'
           end
  end.

Definition runs (p : char -> bool) (s : str) : list str := runs_from p [] s.

(** A character that separates words whatever stands next to it: neither a
    word character of the regular expressions (a letter, a digit, an
    underscore) nor an apostrophe or a hyphen. *)
Definition separator {U : Unicode} (c : char) : bool :=
  negb (is_word c) && negb (word_char c).

(** The rest of a sentence after its first letter, as the number of
    characters up to and with the character that ends it.  The sentence
    runs to the first period, exclamation mark or question mark that is
    not a period before a decimal digit; when the text ends before one is
    met, it ends at the last period before a digit that was passed. *)
Fixpoint sentence_rest {U : Unicode} (s : str) : option nat :=
  match s with
  | [] => None
  | c :: s' =>
      if terminator c then
        match s' with
        | d :: s'' =>
            if (c =? 46)%N && is_decimal d then
              match sentence_rest s'' with
              | Some m => Some (S (S m))
              | None => Some 1
              end
            else Some 1
        | [] => Some 1
        end
      else option_map S (sentence_rest s')
  end.

(** Sentence splitting without regular expressions: the text is read from
    left to right; a sentence starts at an uppercase letter that does not
    follow a word character, and reading resumes after its end.
    [after_word] tells whether the character before [s] is a word
    character, [skip] how many characters of [s] belong to the sentence
    found last. *)
Fixpoint sentences_from {U : Unicode} (after_word : bool) (s : str) (skip : nat)
    : list str :=
  match s with
  | [] => []
  | c :: s' =>
      match skip with
      | S k => sentences_from (is_word c) s' k
      | O =>
          if negb after_word && is_upper c then
            match sentence_rest s' with
            | Some m => firstn (S m) s :: sentences_from (is_word c) s' m
            | None => sentences_from (is_word c) s' 0
            end
          else sentences_from (is_word c) s' 0
      end
  end.

(** A character that ends a sentence whatever follows in [next]: an
    exclamation mark, a question mark, or a period that [next] does not
    continue with a decimal digit. *)
Definition hard_stop {U : Unicode} (t : char) (next : str) : bool :=
  terminator t
  && negb ((t =? 46)%N
           && match next with d :: _ => is_decimal d | [] => false end).

(** The rest of a word after the character [p] that belongs to it, as the
    number of characters of [s] it still takes: the word runs over the
    letters, apostrophes and hyphens that follow, up to the last place
    among them that is a word boundary. *)
Fixpoint word_rest {U : Unicode} (p : char) (s : str) : option nat :=
  let stop :=
    xorb (is_word p) (match s with c :: _ => is_word c | [] => false end) in
  match s with
  | c :: s' =>
      if word_char c then
        match word_rest c s' with
        | Some n => Some (S n)
        | None => if stop then Some 0 else None
        end
      else if stop then Some 0 else None
  | [] => if stop then Some 0 else None
  end.

(** Word splitting without regular expressions: the text is read from left
    to right; a word starts at a word boundary before a letter, an
    apostrophe or a hyphen, and reading resumes after its end. *)
Fixpoint words_from {U : Unicode} (after_word : bool) (s : str) (skip : nat)
    : list str :=
  match s with
  | [] => []
  | c :: s' =>
      match skip with
      | S k => words_from (is_word c) s' k
      | O =>
          if xorb after_word (is_word c) && word_char c then
            match word_rest c s' with
            | Some n => firstn (S n) s :: words_from (is_word c) s' n
            | None => words_from (is_word c) s' 0
            end
          else words_from (is_word c) s' 0
      end
  end.

(** The last four characters of a string. *)
Definition last_four (s : str) : str := skipn (length s - 4) s.

(** A string without whitespace at either end. *)
Definition trimmed (s : str) : bool :=
  match s with
  | [] => true
  | c :: _ => negb (isspace c) && negb (isspace (last s c))
  end.

(** The phrases a container is searched for, by class. *)
Definition phrases_of (c : cls) : list bytes :=
  match c with
  | NetflixMDNA => netflix_phrases
  | AmazonMDNA => amazon_phrases
  | _ => []
  end.

Definition holds_phrase (c : cls) (s : bytes) : bool :=
  existsb (contains s) (phrases_of c).

Definition container_class : str := u "reportContainer subcontainerNotSelected".

Definition policies_id : str := u "divSummary of Significant Accounting Policies".

Definition has_text (n : node) : bool :=
  match text_of n with Some _ => true | None => false end.

(** A filing of 09/29/2018 with the policies division of the old layout. *)
Definition basis_div : node :=
  elem "div" [] (Some (u "Basis of Presentation ")) [].

Definition filing_2018_source : str :=
  u "<html><body><div class='ModuleFilingTitle'><span>Annual Report 09/29/2018</span></div><div id='divSummary of Significant Accounting Policies'><div></div><div>Basis of Presentation </div></div></body></html>".
Definition filing_2018 : HtmlElement :=
  document [filing_title_div "Annual Report 09/29/2018";
            elem "div" [(u "id", policies_id)] None
              [elem "div" [] None []; basis_div]].

(** A filing of 12/31/2017 with two report containers, the second of which
    holds a phrase of the Netflix extractor. *)
Definition segment_container : node :=
  elem "div" [(u "class", container_class)] (Some (u "Segment Information")) [].

Definition policy_container : node :=
  elem "div" [(u "class", container_class)] None
    [elem "p" []
       (Some (u "Organization and Summary of Significant Accounting Policies (Policy)"))
       []].

Definition filing_2017_source : str :=
  u "<html><body><div class='ModuleFilingTitle'><span>10-K 12/31/2017</span></div><div class='reportContainer subcontainerNotSelected'>Segment Information</div><div class='reportContainer subcontainerNotSelected'><p>Organization and Summary of Significant Accounting Policies (Policy)</p></div></body></html>".
Definition filing_2017 : HtmlElement :=
  document [filing_title_div "10-K 12/31/2017"; segment_container;
            policy_container].

Definition archive : list (str * HtmlElement) :=
  [(filing_2018_source, filing_2018);
   (filing_2017_source, filing_2017);
   (serialize basis_div, fragment basis_div);
   (serialize policy_container, fragment policy_container)].

(** lxml on the documents of [archive]. *)
Definition archive_lxml : Lxml :=
  {| fromstring := fun m =>
       match m with
       | Str s => lookup_example s archive
       | Bytes b => lookup_example b archive
       end;
     tostring := serialize |}.

(** ** The driver

    [main] lists five directories, reads their files, and fills one row of
    a worksheet per document with a text.  What it takes from the
    operating system and from openpyxl is kept abstract: each operation of
    the host returns, or raises an exception of the host. *)

Inductive encoding := Windows1252 | Utf8.

(** What is written into a cell. *)
Inductive cell_value :=
| VStr (s : str)
| VFloat (x : float)
| VNone.

Class Host := {
  host_error : Type;
  (** the worksheet of a workbook *)
  Worksheet : Type;
  (** [openpyxl.Workbook()['Sheet']] *)
  new_sheet : Worksheet;
  (** [sheet.cell(row, column, value)] *)
  cell : Worksheet -> nat -> nat -> cell_value -> host_error + Worksheet;
  (** [profile.save(name)], the workbook holding the sheet *)
  save : Worksheet -> str -> host_error + unit;
  (** [os.listdir(path)] *)
  listdir : str -> host_error + list str;
  (** [open(path, encoding=...)] followed by [read()] *)
  read_text : str -> encoding -> host_error + str
}.

(** An exception that leaves [main]: one of the modelled code, or one of
    the host. *)
Inductive failure (E : Type) :=
| Python (e : exn)
| Library (e : E).
Arguments Python {E} e.
Arguments Library {E} e.

Definition outcome {W : Host} (A : Type) : Type := (failure host_error + A)%type.

Definition python {W : Host} {A} (r : result A) : outcome A :=
  match r with
  | Ok a => inr a
  | Raise e => inl (Python e)
  end.

Definition library {W : Host} {A} (r : host_error + A) : outcome A :=
  match r with
  | inr a => inr a
  | inl e => inl (Library e)
  end.

Definition and_then {W : Host} {A B} (r : outcome A) (k : A -> outcome B)
    : outcome B :=
  match r with
  | inr a => k a
  | inl e => inl e
  end.

Notation "x <~ r ;; k" := (and_then r (fun x => k))
  (at level 61, r at next level, right associativity).

Section Driver.
Context {U : Unicode} {L : Lxml} {W : Host}.

Definition title_list : list str := map u ["company"; "year"; "MD&A"; "fog"]%string.

(** [for i, title in enumerate(title_list, 1): sheet.cell(1, i, title)] *)
Fixpoint write_titles (sheet : Worksheet) (i : nat) (titles : list str)
    : outcome Worksheet :=
  match titles with
  | [] => inr sheet
  | title :: titles' =>
      sheet' <~ library (cell sheet 1 i (VStr title)) ;;
      write_titles sheet' (S i) titles'
  end.

Definition year_value (year : option str) : cell_value :=
  match year with
  | Some y => VStr y
  | None => VNone
  end.

(** The end of the body of each loop: the four cells of the row, the score
    being computed before the fourth, and the next row. *)
Definition write_row (company : str) (year : cell_value) (mdna_text : str)
    (st : Worksheet * nat) : outcome (Worksheet * nat) :=
  let (sheet, row) := st in
  s1 <~ library (cell sheet row 1 (VStr company)) ;;
  s2 <~ library (cell s1 row 2 year) ;;
  s3 <~ library (cell s2 row 3 (VStr mdna_text)) ;;
  fog_score <~ python (Fog.calculate_fog mdna_text) ;;
  s4 <~ library (cell s3 row 4 (VFloat fog_score)) ;;
  inr (s4, S row).

(** The body of the loops over the directories apple, netflix, facebook
    and amazon, for the extractor [c]. *)
Definition title_step (c : cls) (company dir : str) (file : str)
    (st : Worksheet * nat) : outcome (Worksheet * nat) :=
  html_complete_10k <~ library (read_text (dir ++ file) Windows1252) ;;
  r <~ python (get_mdna_text c (Str html_complete_10k)) ;;
  match fst r with
  | None => inr st
  | Some mdna_text => write_row company (year_value (snd r)) mdna_text st
  end.

(** [year, *_ = file.split()] *)
Definition first_token (file : str) : result str :=
  match split file with
  | year :: _ => Ok year
  | [] => Raise ValueError
  end.

(** The body of the loop over the directory google: the year is read off
    the file name, and a file that cannot be read as windows-1252 is read
    as utf-8. *)
Definition google_step (file : str) (st : Worksheet * nat)
    : outcome (Worksheet * nat) :=
  year <~ python (first_token file) ;;
  html_complete_10k <~
    library (match read_text (u "google/" ++ file) Windows1252 with
             | inr s => inr s
             | inl _ => read_text (u "google/" ++ file) Utf8
             end) ;;
  r <~ python (get_mdna_text GoogleMDNA (Str html_complete_10k)) ;;
  match fst r with
  | None => inr st
  | Some mdna_text => write_row (u "GOOGLE INC") (VStr year) mdna_text st
  end.

(** [for file in files: ...] *)
Fixpoint for_each (step : str -> Worksheet * nat -> outcome (Worksheet * nat))
    (files : list str) (st : Worksheet * nat) : outcome (Worksheet * nat) :=
  match files with
  | [] => inr st
  | file :: files' => st' <~ step file st ;; for_each step files' st'
  end.

(** [main()]; it returns the sheet of the workbook it saved. *)
Definition main : outcome Worksheet :=
  sheet <~ write_titles new_sheet 1 title_list ;;
  apple_10k_files <~ library (listdir (u "./apple")) ;;
  st <~ for_each (title_step AppleMDNA (u "APPLE INC") (u "apple/"))
          apple_10k_files (sheet, 2) ;;
  netflix_10k_files <~ library (listdir (u "./netflix")) ;;
  st <~ for_each (title_step NetflixMDNA (u "NETFLIX INC") (u "netflix/"))
          netflix_10k_files st ;;
  facebook_10k_files <~ library (listdir (u "./facebook")) ;;
  st <~ for_each (title_step AppleMDNA (u "FACEBOOK INC") (u "facebook/"))
          facebook_10k_files st ;;
  amazon_10k_files <~ library (listdir (u "./amazon")) ;;
  st <~ for_each (title_step AmazonMDNA (u "AMAZON COM INC") (u "amazon/"))
          amazon_10k_files st ;;
  google_10k_files <~ library (listdir (u "./google")) ;;
  st <~ for_each google_step google_10k_files st ;;
  _ <~ library (save (fst st) (u "result.xlsx")) ;;
  inr (fst st).

End Driver.

(** A host for the examples: the worksheet is the list of the cells
    written, in order; the directory apple holds three files, the other
    directories none. *)
Definition example_files : list (str * str) :=
  [(u "apple/a.html", filing_cutoff_source);
   (u "apple/b.html", untitled_source);
   (u "apple/c.html", filing_2018_source)].

Fixpoint lookup_file (path : str) (l : list (str * str)) : unit + str :=
  match l with
  | [] => inl tt
  | (p, s) :: l' => if str_eqb path p then inr s else lookup_file path l'
  end.

Definition example_host : Host :=
  {| host_error := unit;
     Worksheet := list (nat * nat * cell_value);
     new_sheet := [];
     cell := fun sheet row column value => inr (sheet ++ [(row, column, value)]);
     save := fun _ _ => inr tt;
     listdir := fun path =>
       if str_eqb path (u "./apple")
       then inr [u "a.html"; u "b.html"; u "c.html"] else inr [];
     read_text := fun path _ => lookup_file path example_files |}.

(** The patterns of [strptime] that begin with a literal character are
    inverted by cases on the input. *)
Ltac literal_head H :=
  repeat match type of H with
         | match ?x with _ => _ end = Some _ => destruct x; try discriminate H
         end.

(** * Facts about the float conversion

    [float(n)] is zero only for [n = 0]: rounding a positive integer to
    binary64 never gives zero.  The proof follows the rounding of
    [SpecFloat] through its shifts, counting binary digits. *)
Section FloatFacts.
Local Open Scope Z_scope.

Lemma Zdigits2_nonneg m : 0 <= Zdigits2 m.
Proof. destruct m; simpl; lia. Qed.

Lemma shr_1_digits mrs :
  Zdigits2 (shr_m (shr_1 mrs)) = Z.max 0 (Zdigits2 (shr_m mrs) - 1).
Proof.
  destruct mrs as [m r s]. destruct m as [|p|p]; try destruct p;
    cbn [shr_1 shr_m Zdigits2 digits2_pos]; rewrite ?Pos2Z.inj_succ; lia.
Qed.

Lemma shr_1_nonneg mrs : 0 <= shr_m mrs -> 0 <= shr_m (shr_1 mrs).
Proof.
  destruct mrs as [m r s]. destruct m as [|p|p]; try destruct p; simpl; lia.
Qed.

Lemma iter_shr_digits p : forall mrs,
  Zdigits2 (shr_m (SpecFloat.iter_pos shr_1 p mrs))
  = Z.max 0 (Zdigits2 (shr_m mrs) - Zpos p).
Proof.
  induction p as [p IH | p IH |]; intros mrs; simpl.
  - rewrite !IH, shr_1_digits. lia.
  - rewrite !IH. lia.
  - apply shr_1_digits.
Qed.

Lemma iter_shr_nonneg p : forall mrs,
  0 <= shr_m mrs -> 0 <= shr_m (SpecFloat.iter_pos shr_1 p mrs).
Proof.
  induction p as [p IH | p IH |]; intros mrs H; simpl.
  - apply IH, IH, shr_1_nonneg, H.
  - apply IH, IH, H.
  - apply shr_1_nonneg, H.
Qed.

(** Shifting a positive mantissa down to the precision leaves it
    positive. *)
Lemma shr_fexp_positive m e l :
  0 < m -> emin64 <= e ->
  0 < shr_m (fst (shr_fexp prec emax m e l))
  /\ emin64 <= snd (shr_fexp prec emax m e l).
Proof.
  intros Hm He. unfold shr_fexp, shr.
  assert (Hrec : shr_m (shr_record_of_loc m l) = m)
    by (destruct l as [|[]]; reflexivity).
  assert (Hd : 0 < Zdigits2 m) by (destruct m; simpl; lia).
  destruct (fexp prec emax (Zdigits2 m + e) - e) as [|n|n] eqn:En; simpl;
    try (rewrite Hrec; lia).
  pose proof (iter_shr_digits n (shr_record_of_loc m l)) as D.
  pose proof (@iter_shr_nonneg n (shr_record_of_loc m l)) as P.
  rewrite Hrec in D, P.
  assert (Z0 : shr_m (SpecFloat.iter_pos shr_1 n (shr_record_of_loc m l)) = 0 ->
               Zdigits2 (shr_m (SpecFloat.iter_pos shr_1 n (shr_record_of_loc m l))) = 0)
    by (intros ->; reflexivity).
  unfold fexp, emin64, SpecFloat.emin, prec, emax in *. lia.
Qed.

Lemma round_nearest_even_positive m l : 0 < m -> 0 < round_nearest_even m l.
Proof.
  intros H. unfold round_nearest_even.
  destruct l as [|[]]; try destruct (Z.even m); lia.
Qed.

Lemma binary_round_aux_nonzero sx m e l :
  0 < m -> emin64 <= e -> nonzero (binary_round_aux prec emax sx m e l) = true.
Proof.
  intros Hm He. unfold binary_round_aux.
  destruct (shr_fexp_positive l Hm He) as [H1 H2].
  destruct (shr_fexp prec emax m e l) as [mrs' e']. simpl in H1, H2.
  pose proof (round_nearest_even_positive (loc_of_shr_record mrs') H1) as H3.
  destruct (shr_fexp_positive loc_Exact H3 H2) as [H4 _].
  destruct (shr_fexp prec emax _ e' loc_Exact) as [mrs'' e'']. simpl in H4.
  destruct (shr_m mrs''); try lia.
  destruct (e'' <=? emax - prec); reflexivity.
Qed.

Lemma binary_normalize_nonzero p :
  nonzero (binary_normalize prec emax (Zpos p) 0 false) = true.
Proof.
  unfold binary_normalize, binary_round, shl_align.
  destruct (fexp prec emax (Z.pos (digits2_pos p) + 0) - 0) eqn:E;
    apply binary_round_aux_nonzero;
    unfold emin64, fexp, SpecFloat.emin, prec, emax in *; lia.
Qed.

Lemma of_uint63_nonzero i :
  0 < Uint63.to_Z i -> PrimFloat.eqb (PrimFloat.of_uint63 i) 0%float = false.
Proof.
  intros H. rewrite FloatAxioms.eqb_spec, FloatAxioms.of_uint63_spec.
  destruct (Uint63.to_Z i) as [|p|p] eqn:E; try lia.
  pose proof (binary_normalize_nonzero p) as N.
  destruct (binary_normalize prec emax (Z.pos p) 0 false); try discriminate;
    try destruct s; reflexivity.
Qed.

(** [float(n) == 0.0] exactly when [n == 0]. *)
Lemma float_of_len_zero n :
  PrimFloat.eqb (float_of_len n) 0%float = Nat.eqb n 0.
Proof.
  destruct n as [|n]; [reflexivity|].
  unfold float_of_len. apply of_uint63_nonzero.
  rewrite Uint63.of_Z_spec. unfold maxsize.
  rewrite Z.mod_small; [lia|]. unfold wB. simpl. lia.
Qed.

End FloatFacts.

(** * The scorer *)
Section FogFacts.
Context {U : Unicode}.
Import Fog.

Lemma truediv_len a n :
  truediv a (float_of_len n) =
  if Nat.eqb n 0 then Raise ZeroDivisionError
  else Ok (PrimFloat.div a (float_of_len n)).
Proof. unfold truediv. now rewrite float_of_len_zero. Qed.

Lemma length_zero_iff {A} (l : list A) : Nat.eqb (length l) 0 = true <-> l = [].
Proof. destruct l; simpl; split; congruence. Qed.

(** The value of [calculate_fog], in terms of the three lengths. *)
Lemma calculate_fog_cases text :
  calculate_fog text =
  let s := length (identify_sentences text) in
  let w := length (identify_words text) in
  let c := length (filter is_complex_word (identify_words text)) in
  if Nat.eqb s 0 || Nat.eqb w 0 then Raise ZeroDivisionError
  else Ok (PrimFloat.mul c0_4
             (PrimFloat.add
                (PrimFloat.div (float_of_len w) (float_of_len s))
                (PrimFloat.div (PrimFloat.mul 100%float (float_of_len c))
                               (float_of_len w)))).
Proof.
  unfold calculate_fog. rewrite !truediv_len. cbv zeta.
  destruct (Nat.eqb (length (identify_sentences text)) 0); [reflexivity|].
  destruct (Nat.eqb (length (identify_words text)) 0); reflexivity.
Qed.

(** C6.  [calculate_fog] fails with a division by zero exactly when the
    text has no sentence or no word; when it has both, the computation
    completes and returns a score. *)
Theorem calculate_fog_zero_division text :
  (calculate_fog text = Raise ZeroDivisionError <->
   identify_sentences text = [] \/ identify_words text = [])
  /\ (identify_sentences text <> [] -> identify_words text <> [] ->
      exists score, calculate_fog text = Ok score).
Proof.
  rewrite calculate_fog_cases. cbv zeta.
  rewrite <- !length_zero_iff.
  destruct (Nat.eqb (length (identify_sentences text)) 0);
    destruct (Nat.eqb (length (identify_words text)) 0); simpl;
    (split; [split; [intros H; try discriminate H; auto
                    | intros [H | H]; try discriminate H; auto]
            | intros H1 H2; try congruence; eauto]).
Qed.

(** C7.  On a text of 2 sentences and 20 words, 4 of them complex, the
    score is exactly 12.0; and whenever there is a sentence and a word the
    score is [0.4 * (|W|/|S| + 100*|C|/|W|)], computed in floats. *)
Theorem calculate_fog_formula text :
  let s := length (identify_sentences text) in
  let w := length (identify_words text) in
  let c := length (filter is_complex_word (identify_words text)) in
  (s = 2 -> w = 20 -> c = 4 -> calculate_fog text = Ok 12%float)
  /\ (0 < s -> 0 < w ->
      calculate_fog text =
      Ok (PrimFloat.mul c0_4
            (PrimFloat.add
               (PrimFloat.div (float_of_len w) (float_of_len s))
               (PrimFloat.div (PrimFloat.mul 100%float (float_of_len c))
                              (float_of_len w))))).
Proof.
  cbv zeta. rewrite calculate_fog_cases. cbv zeta. split.
  - intros -> -> ->. vm_compute. reflexivity.
  - intros Hs Hw.
    destruct (length (identify_sentences text)); [lia|].
    destruct (length (identify_words text)); [lia|]. reflexivity.
Qed.

(** C2 (as the code has it).  The example text splits into three
    sentences: the period of "Mr." ends the first one, and the period of
    "3.5", followed by a digit, ends none. *)
Theorem identify_sentences_smith_report :
  identify_sentences smith_report =
  [u "This is Mr."; u "Smith's report."; u "It scores 3.5 points."].
Proof. vm_compute. reflexivity. Qed.

End FogFacts.

(** The division by zero of C6 on a text without a sentence, and the score
    of a text with both. *)
Lemma calculate_fog_zero_division_witness :
  (exists score,
     @Fog.calculate_fog ascii_only (u "Hello, world-class fog-index!") = Ok score)
  /\ @Fog.calculate_fog ascii_only (u "no sentence here") = Raise ZeroDivisionError.
Proof.
  split.
  - apply (proj2 (@calculate_fog_zero_division ascii_only
                    (u "Hello, world-class fog-index!")));
      vm_compute; discriminate.
  - apply (proj1 (@calculate_fog_zero_division ascii_only (u "no sentence here"))).
    left. vm_compute. reflexivity.
Defined.

(** The text [two_sentences] has the counts of C7 and scores 12.0. *)
Lemma calculate_fog_formula_witness :
  @Fog.calculate_fog ascii_only two_sentences = Ok 12%float.
Proof.
  apply (proj1 (@calculate_fog_formula ascii_only two_sentences));
    vm_compute; reflexivity.
Defined.

(** C2, as stated, fails: the text does not split into two sentences. *)
Lemma identify_sentences_smith_report_not_two :
  length (@Fog.identify_sentences ascii_only smith_report) <> 2.
Proof. vm_compute. discriminate. Qed.

(** * Facts about the matcher *)
Section MatcherFacts.
Context {U : Unicode}.
Import Re.

Lemma cursor_eta z : Cursor (before z) (after z) = z.
Proof. now destruct z. Qed.

Lemma span_advance z w rest :
  after z = w ++ rest -> span z (advance z w rest) = w.
Proof.
  intros H. unfold span, advance. simpl. rewrite H, length_app.
  replace (length w + length rest - length rest) with (length w) by lia.
  rewrite firstn_app, firstn_all, Nat.sub_diag. simpl. apply app_nil_r.
Qed.

(** A star over a one-character class stops after a run of characters of
    the class, wherever the rest of the pattern succeeds. *)
Lemma star_class_sound p g n : forall z k e,
  star_loop (run (Class p)) g n z k = Some e ->
  exists w rest,
    after z = w ++ rest /\ forallb p w = true /\ k (advance z w rest) = Some e.
Proof.
  induction n as [|n IH]; intros z k e H; simpl in H.
  - exists [], (after z). unfold advance. simpl. now rewrite cursor_eta.
  - assert (Stop : k z = Some e -> exists w rest,
               after z = w ++ rest /\ forallb p w = true
               /\ k (advance z w rest) = Some e).
    { intros Hk. exists [], (after z). unfold advance. simpl.
      now rewrite cursor_eta. }
    assert (More : (match after z with
                    | c :: rest =>
                        if p c then
                          if shorter (Cursor (c :: before z) rest) z
                          then star_loop (run (Class p)) g n
                                 (Cursor (c :: before z) rest) k
                          else None
                        else None
                    | [] => None
                    end) = Some e ->
                   exists w rest,
                     after z = w ++ rest /\ forallb p w = true
                     /\ k (advance z w rest) = Some e).
    { destruct (after z) as [|c rest] eqn:Ez; [discriminate|].
      destruct (p c) eqn:Ep; [|discriminate].
      destruct (shorter _ z); [|discriminate].
      intros Hl. apply IH in Hl. destruct Hl as (w & rest' & H1 & H2 & H3).
      simpl in H1. exists (c :: w), rest'. subst rest. repeat split.
      - simpl. now rewrite Ep, H2.
      - unfold advance in *. simpl in *. now rewrite <- app_assoc. }
    destruct g.
    + destruct (match after z with [] => None | _ => _ end) eqn:Em.
      * apply More, H.
      * apply Stop, H.
    + destruct (k z) eqn:Ek.
      * apply Stop. congruence.
      * apply More, H.
Qed.

(** Every entry of a scan is the text of a match of the pattern somewhere
    in the subject. *)
Lemma scan_In r : forall rest prev skip w,
  In w (scan r prev rest skip) ->
  exists a b e,
    rest = a ++ b
    /\ match_at r (Cursor (rev a ++ prev) b) = Some e
    /\ w = span (Cursor (rev a ++ prev) b) e.
Proof.
  induction rest as [|c rest IH]; intros prev skip w H.
  - destruct skip; simpl in H; [|contradiction].
    destruct (match_at r (Cursor prev [])) as [e|] eqn:E; [|contradiction].
    destruct H as [H|[]]. exists [], [], e. simpl. auto.
  - assert (Later : forall k, In w (scan r (c :: prev) rest k) ->
              exists a b e,
                c :: rest = a ++ b
                /\ match_at r (Cursor (rev a ++ prev) b) = Some e
                /\ w = span (Cursor (rev a ++ prev) b) e).
    { intros k Hk. apply IH in Hk. destruct Hk as (a & b & e & H1 & H2 & H3).
      exists (c :: a), b, e. simpl. rewrite <- app_assoc. simpl.
      subst rest. auto. }
    destruct skip; simpl in H; [|now apply Later in H].
    destruct (match_at r (Cursor prev (c :: rest))) as [e|] eqn:E.
    + destruct H as [H|H]; [|now apply Later in H].
      exists [], (c :: rest), e. simpl. auto.
    + now apply Later in H.
Qed.


(** ** The word pattern *)
Import Fog.

Lemma forallb_pointwise {A} (p q : A -> bool) l :
  (forall x, p x = q x) -> forallb p l = forallb q l.
Proof. intros H. induction l as [|x l IH]; simpl; now rewrite ?H, ?IH. Qed.

Lemma in_word_chars c : in_set word_chars c = word_char c.
Proof.
  unfold in_set, word_chars, word_char, is_ascii_letter. cbn [existsb in_item].
  change (ord "a") with 97%N. change (ord "z") with 122%N.
  change (ord "A") with 65%N. change (ord "Z") with 90%N.
  change (ord "'") with 39%N. change (ord "-") with 45%N.
  now rewrite orb_false_r, !orb_assoc.
Qed.

(** A match of the word pattern: a non-empty run of word characters between
    two word boundaries. *)
Lemma match_words z e :
  match_at re_words z = Some e ->
  exists w rest,
    w <> [] /\ after z = w ++ rest /\ forallb word_char w = true
    /\ e = advance z w rest
    /\ at_boundary z = true /\ at_boundary e = true.
Proof.
  unfold match_at, re_words, Plus, OneOf. cbn [run].
  destruct (at_boundary z) eqn:Bz; [|discriminate].
  destruct (after z) as [|c rest] eqn:Ez; [discriminate|].
  destruct (in_set word_chars c) eqn:Ec; [|discriminate].
  intros H. apply star_class_sound in H.
  destruct H as (w & rest' & H1 & H2 & H3). simpl in H1.
  destruct (at_boundary (advance _ w rest')) eqn:Be; [|discriminate].
  injection H3 as <-.
  exists (c :: w), rest'. subst rest. repeat split; try easy.
  - simpl. rewrite <- in_word_chars, Ec. simpl.
    now rewrite <- (forallb_pointwise _ _ w in_word_chars).
  - unfold advance. simpl. now rewrite <- app_assoc.
Qed.

Lemma not_letter_not_word c :
  word_char c = true -> is_ascii_letter c = false -> is_word c = false.
Proof.
  unfold word_char. intros H L. rewrite L in H. simpl in H.
  apply orb_true_iff in H. destruct H as [H|H]; apply N.eqb_eq in H; subst c;
    reflexivity.
Qed.

End MatcherFacts.

Section C9.
Context {U : Unicode}.
Import Re Fog.

(** C9 (as the code has it).  Every token of [identify_words] is a
    non-empty piece of the text made of ASCII letters, apostrophes and
    hyphens only.  Its first character is an ASCII letter unless the
    character just before the token is a word character, and its last
    character is an ASCII letter unless the character just after the token
    is a word character: next to a digit, an underscore or a letter above
    ASCII a token may begin or end with an apostrophe or a hyphen. *)
Theorem identify_words_tokens text w :
  In w (identify_words text) ->
  exists pre post,
    text = pre ++ w ++ post
    /\ w <> []
    /\ forallb word_char w = true
    /\ (is_ascii_letter (hd 0%N w) = true
        \/ exists pre' c, pre = pre' ++ [c] /\ is_word c = true)
    /\ (is_ascii_letter (last w 0%N) = true
        \/ exists c post', post = c :: post' /\ is_word c = true).
Proof.
  intros H. apply scan_In in H. destruct H as (a & b & e & Ht & Hm & Hw).
  apply match_words in Hm.
  destruct Hm as (w' & rest & Hne & Hb & Hall & He & Bz & Be).
  simpl in Hb. subst e. rewrite (@span_advance (Cursor (rev a ++ []) b) w' rest Hb) in Hw. subst w' b.
  exists a, rest. repeat split; try easy.
  - destruct w as [|c w]; [easy|]. simpl.
    destruct (is_ascii_letter c) eqn:L; [now left|right].
    unfold at_boundary, word_before, word_after in Bz. simpl in Bz.
    simpl in Hall. apply andb_true_iff in Hall. destruct Hall as [Hc _].
    rewrite (not_letter_not_word _ Hc L), app_nil_r in Bz.
    destruct (rev a) as [|x l] eqn:Ea; [discriminate|].
    exists (rev l), x. split.
    + rewrite <- (rev_involutive a), Ea. reflexivity.
    + now destruct (is_word x).
  - destruct (exists_last Hne) as (l & x & ->).
    rewrite last_last.
    destruct (is_ascii_letter x) eqn:L; [now left|right].
    unfold at_boundary, word_before, word_after, advance in Be. simpl in Be.
    rewrite rev_app_distr in Be. simpl in Be.
    rewrite forallb_app in Hall. apply andb_true_iff in Hall.
    destruct Hall as [_ Hx]. simpl in Hx. rewrite andb_true_r in Hx.
    rewrite (not_letter_not_word _ Hx L) in Be.
    destruct rest as [|c post']; [discriminate|].
    exists c, post'. split; [reflexivity|]. now destruct (is_word c).
Qed.
End C9.

Section C10.
Context {U : Unicode}.
Import Re Fog.

Lemma vowel_i_is_vowel c :
  c <> 304%N -> c <> 305%N -> vowel_i c = is_vowel c.
Proof.
  intros H1 H2. unfold vowel_i, is_vowel, in_set_i, in_set.
  cbn [chars u map flat_map fold_item app existsb in_item].
  change (ord "a") with 97%N. change (ord "e") with 101%N.
  change (ord "o") with 111%N. change (ord "u") with 117%N.
  change (ord "i") with 105%N. change (ord "y") with 121%N.
  change (ord "A") with 65%N. change (ord "E") with 69%N.
  change (ord "O") with 79%N. change (ord "U") with 85%N.
  change (ord "I") with 73%N. change (ord "Y") with 89%N.
  change (sre_lower 97) with 97%N. change (sre_lower 101) with 101%N.
  change (sre_lower 111) with 111%N. change (sre_lower 117) with 117%N.
  change (sre_lower 105) with 105%N. change (sre_lower 121) with 121%N.
  cbn [fixes N.eqb Pos.eqb app existsb in_item].
  assert (L : (65 <= c <= 90 /\ sre_lower c = c + 32)%N
              \/ (c = 8490 /\ sre_lower c = 107)%N
              \/ ((c < 65 \/ 90 < c) /\ c <> 8490 /\ sre_lower c = c)%N).
  { unfold sre_lower, between.
    destruct (N.leb_spec 65 c); destruct (N.leb_spec c 90); cbn [andb];
      try (left; split; [lia | reflexivity]);
      (destruct (N.eqb_spec c 304); [lia|]);
      (destruct (N.eqb_spec c 8490); [right; left; now split|]);
      right; right; repeat split; auto; lia. }
  apply Bool.eq_iff_eq_true.
  rewrite ?orb_false_r, !orb_true_iff, !N.eqb_eq.
  destruct L as [[Hc ->] | [[-> ->] | [Hc [Hk ->]]]]; lia.
Qed.

Lemma match_syllable z e :
  match_at re_syllables z = Some e ->
  exists w c rest,
    after z = w ++ c :: rest /\ length w <= 1 /\ vowel_i c = true
    /\ e = advance z (w ++ [c]) rest.
Proof.
  set (K := fun z' : cursor =>
              match run (Cat (LitI (ord "e")) Eol) z' Some with
              | Some _ => None
              | None =>
                  match after z' with
                  | [] => None
                  | c :: rest =>
                      if vowel_i c
                      then Some (Cursor (c :: before z') rest) else None
                  end
              end).
  change (match_at re_syllables z)
    with (match (if at_bol z then K z else None) with
          | Some e' => Some e'
          | None =>
              match after z with
              | [] => None
              | c :: rest =>
                  if negb (in_set_i (chars "aeuoiy") c)
                  then K (Cursor (c :: before z) rest) else None
              end
          end).
  assert (HK : forall z', K z' = Some e ->
            exists c rest, after z' = c :: rest /\ vowel_i c = true
                           /\ e = Cursor (c :: before z') rest).
  { intros z'. unfold K. destruct (run _ z' Some); [discriminate|].
    destruct (after z') as [|c rest]; [discriminate|].
    destruct (vowel_i c) eqn:V; [|discriminate].
    intros [= <-]. exists c, rest. auto. }
  clearbody K.
  assert (First : K z = Some e ->
            exists w c rest,
              after z = w ++ c :: rest /\ length w <= 1 /\ vowel_i c = true
              /\ e = advance z (w ++ [c]) rest).
  { intros H. apply HK in H. destruct H as (c & rest & H1 & H2 & H3).
    exists [], c, rest. simpl. auto. }
  assert (Second : (match after z with
                    | [] => None
                    | c :: rest =>
                        if negb (in_set_i (chars "aeuoiy") c)
                        then K (Cursor (c :: before z) rest) else None
                    end) = Some e ->
            exists w c rest,
              after z = w ++ c :: rest /\ length w <= 1 /\ vowel_i c = true
              /\ e = advance z (w ++ [c]) rest).
  { destruct (after z) as [|c0 rest0]; [discriminate|].
    destruct (negb _); [|discriminate].
    intros H. apply HK in H. destruct H as (c & rest & H1 & H2 & H3).
    simpl in H1. subst rest0. exists [c0], c, rest. simpl. auto. }
  destruct (at_bol z); [|exact Second].
  destruct (K z) as [e'|] eqn:E; [|exact Second].
  intros H. apply First. congruence.
Qed.

Lemma filter_skipn_le {A} (p : A -> bool) n : forall l,
  length (filter p (skipn n l)) <= length (filter p l).
Proof.
  induction n as [|n IH]; intros [|x l]; simpl; auto.
  specialize (IH l). destruct (p x); simpl; lia.
Qed.

(** Each match of the syllable pattern ends in a vowel of its own. *)
Lemma scan_syllables_count : forall rest prev skip,
  length (scan re_syllables prev rest skip)
  <= length (filter vowel_i (skipn skip rest)).
Proof.
  induction rest as [|c rest IH]; intros prev skip.
  - destruct skip; cbn [scan]; [|simpl; lia].
    destruct (match_at re_syllables (Cursor prev [])) as [e|] eqn:E;
      [|simpl; lia].
    apply match_syllable in E. destruct E as ([|x w] & d & r & H & _).
    all: discriminate H.
  - destruct skip; cbn [scan]; [|apply IH].
    destruct (match_at re_syllables (Cursor prev (c :: rest))) as [e|] eqn:E.
    + apply match_syllable in E. destruct E as (w & v & r & H & L & V & ->).
      simpl in H.
      rewrite (@span_advance (Cursor prev (c :: rest)) (w ++ [v]) r)
        by (simpl; now rewrite <- app_assoc).
      rewrite length_app. simpl length.
      replace (Nat.pred (length w + 1)) with (length w) by lia.
      specialize (IH (c :: prev) (length w)).
      destruct w as [|c0 [|? ?]]; simpl in L; [| |lia].
      * injection H as Hc Hr. subst v r. simpl in *. rewrite V. simpl. lia.
      * injection H as Hc Hr. subst c0 rest. simpl in *. rewrite V.
        destruct (vowel_i c); simpl; lia.
    + specialize (IH (c :: prev) 0). simpl in *.
      destruct (vowel_i c); simpl; lia.
Qed.

(** C10 (as the code has it).  For every word without the code points
    U+0130 and U+0131, in particular every ASCII word, [count_syllables]
    is at most the number of vowel characters (a, e, i, o, u, y in either
    case) of the word, and it is 0 when the word has no vowel. *)
Theorem count_syllables_le_vowels word :
  forallb (fun c => negb ((c =? 304)%N || (c =? 305)%N)) word = true ->
  count_syllables word <= vowels word
  /\ (vowels word = 0 -> count_syllables word = 0).
Proof.
  intros H.
  assert (E : filter vowel_i word = filter is_vowel word).
  { induction word as [|c word IH]; [reflexivity|]. simpl in *.
    apply andb_true_iff in H. destruct H as [Hc H].
    apply negb_true_iff, orb_false_iff in Hc. destruct Hc as [H1 H2].
    apply N.eqb_neq in H1, H2.
    rewrite (vowel_i_is_vowel H1 H2), (IH H). reflexivity. }
  assert (L : count_syllables word <= vowels word).
  { unfold count_syllables, vowels, finditer. rewrite <- E.
    apply (scan_syllables_count word [] 0). }
  split; [exact L | lia].
Qed.
End C10.

Section SearchFacts.
Context {U : Unicode}.
Import Re.

Lemma startswith_app s p : startswith s p = true -> s = p ++ skipn (length p) s.
Proof.
  revert s. induction p as [|a p IH]; intros s H; [reflexivity|].
  destruct s as [|b s]; [discriminate|]. simpl in *.
  apply andb_true_iff in H. destruct H as [E H]. apply N.eqb_eq in E.
  subst b. f_equal. now apply IH.
Qed.

Lemma startswith_prefix p r : startswith (p ++ r) p = true.
Proof.
  induction p as [|a p IH]; simpl; [now destruct r|]. now rewrite N.eqb_refl.
Qed.

(** [s.find(t) = j]: [t] occurs after a prefix of length [j]. *)
Lemma str_find_Some t : forall s j,
  str_find s t = Some j ->
  exists a r, s = a ++ t ++ r /\ length a = j.
Proof.
  induction s as [|c s IH]; intros j H; cbn [str_find] in H.
  - destruct (startswith [] t) eqn:E; [|discriminate]. injection H as <-.
    exists [], (skipn (length t) []). split; [|reflexivity].
    now apply startswith_app.
  - destruct (startswith (c :: s) t) eqn:E.
    + injection H as <-. exists [], (skipn (length t) (c :: s)).
      split; [|reflexivity]. now apply startswith_app.
    + destruct (str_find s t) as [j'|] eqn:F; [|discriminate].
      injection H as <-. destruct (IH j' eq_refl) as (a & r & -> & <-).
      exists (c :: a), r. split; reflexivity.
Qed.

(** A literal string matches exactly where the subject starts with it. *)
Lemma run_Lits w : forall z k,
  run (Lits w) z k =
  if startswith (after z) w
  then k (advance z w (skipn (length w) (after z)))
  else None.
Proof.
  induction w as [|c w IH]; intros [prev s] k; cbn [Lits run].
  - now destruct s.
  - unfold Lit. cbn [run after before]. destruct s as [|d s]; [reflexivity|].
    cbn [startswith skipn length]. destruct (N.eqb_spec c d) as [->|]; [|reflexivity].
    rewrite IH. cbn [after before andb]. unfold advance. simpl.
    now rewrite <- app_assoc.
Qed.

(** A lazy [.*?] before a literal stops at the first occurrence of the
    literal. *)
Lemma lazy_until t : forall s n prev j,
  str_find s t = Some j -> length s < n ->
  star_loop (run AnyChar) false n (Cursor prev s)
    (fun z' => run (Lits t) z' Some)
  = Some (Cursor (rev t ++ rev (firstn j s) ++ prev)
                 (skipn (length t) (skipn j s))).
Proof.
  induction s as [|c s IH]; intros n prev j H L;
    (destruct n as [|n]; [simpl in L; lia|]); cbn [star_loop];
    rewrite run_Lits; cbn [after before]; cbn [str_find] in H.
  - destruct (startswith [] t); [|discriminate]. now injection H as <-.
  - destruct (startswith (c :: s) t).
    + now injection H as <-.
    + destruct (str_find s t) as [j'|] eqn:F; [|discriminate].
      injection H as <-.
      match goal with
      | |- run AnyChar _ ?K = _ =>
          change (run AnyChar (Cursor prev (c :: s)) K)
            with (K (Cursor (c :: prev) s))
      end.
      cbv beta. unfold shorter. cbn [after length].
      replace (length s <? S (length s)) with true
        by (symmetry; apply Nat.ltb_lt; lia).
      rewrite (IH n (c :: prev) j' eq_refl) by (simpl in L; lia).
      simpl. now rewrite <- app_assoc.
Qed.

End SearchFacts.

Section Google.
Context {U : Unicode} {L : Lxml}.
Import Re.

Lemma match_mdan_cmp prev s a r :
  startswith s heading = true ->
  skipn (length heading) s = a ++ u "<hr" ++ r ->
  str_find (skipn (length heading) s) (u "<hr") = Some (length a) ->
  match_at mdan_cmp (Cursor prev s)
  = Some (advance (Cursor prev s) (heading ++ a ++ u "<hr") r).
Proof.
  intros S E F. unfold match_at, mdan_cmp. cbn [run].
  rewrite run_Lits. cbn [after before]. rewrite S.
  unfold advance. cbn [after before].
  rewrite lazy_until with (j := length a) by (assumption || lia).
  rewrite E. rewrite firstn_app, firstn_all, Nat.sub_diag, firstn_O, app_nil_r.
  rewrite skipn_app, skipn_all, Nat.sub_diag. cbn [skipn app].
  rewrite (skipn_app (length (u "<hr"))), skipn_all, Nat.sub_diag.
  cbn [skipn app]. rewrite !rev_app_distr, <- !app_assoc. reflexivity.
Qed.

Lemma search_mdan_cmp j : forall s prev i,
  str_find s heading = Some i ->
  str_find (skipn (i + length heading) s) (u "<hr") = Some j ->
  search_from mdan_cmp prev s
  = Some (rev prev ++ firstn i s,
          firstn (length heading + j + 3) (skipn i s)).
Proof.
  induction s as [|c s IH]; intros prev i H F.
  - discriminate H.
  - cbn [str_find] in H. destruct (startswith (c :: s) heading) eqn:S.
    + injection H as <-. cbn [Nat.add] in F.
      destruct (str_find_Some _ _ F) as (a & r & E & <-).
      pose proof (startswith_app _ _ S) as D. rewrite E in D.
      cbn [search_from].
      rewrite match_mdan_cmp with (a := a) (r := r) by assumption.
      rewrite span_advance
        by (cbn [after]; rewrite D at 1; now rewrite <- !app_assoc).
      cbn [firstn skipn]. rewrite app_nil_r. f_equal. f_equal.
      rewrite D at 1.
      replace (heading ++ a ++ u "<hr" ++ r) with ((heading ++ a ++ u "<hr") ++ r)
        by now rewrite <- !app_assoc.
      replace (length heading + length a + 3) with (length (heading ++ a ++ u "<hr"))
        by (rewrite !length_app; simpl; lia).
      now rewrite firstn_app, firstn_all, Nat.sub_diag, firstn_O, app_nil_r.
    + destruct (str_find s heading) as [i'|] eqn:G; [|discriminate].
      injection H as <-. cbn [search_from].
      assert (M : match_at mdan_cmp (Cursor prev (c :: s)) = None).
      { unfold match_at, mdan_cmp. cbn [run]. rewrite run_Lits.
        cbn [after]. now rewrite S. }
      rewrite M. rewrite (IH (c :: prev) i' eq_refl F).
      simpl. now rewrite <- app_assoc.
Qed.

(** C3 (as the code has it).  For Issuer E, when the document holds the
    heading, written with the right single quotation mark U+2019, and a
    horizontal-rule opening after it, [extract_mdna] returns the text from
    the first occurrence of the heading through the first [<hr] after it
    as the fragment, and no year. *)
Theorem google_extract_mdna html i j :
  str_find html heading = Some i ->
  str_find (skipn (i + length heading) html) (u "<hr") = Some j ->
  extract_mdna GoogleMDNA (Str html)
  = Ok (Some (Some (Str (firstn (length heading + j + 3) (skipn i html))),
              None)).
Proof.
  intros H F. unfold extract_mdna. cbn.
  unfold Re.search. now rewrite (search_mdan_cmp _ _ H F).
Qed.
End Google.

Section ExtractorFacts.
Context {U : Unicode} {L : Lxml}.

Lemma str_eqb_eq a b : str_eqb a b = true <-> a = b.
Proof. unfold str_eqb. destruct (list_eq_dec N.eq_dec a b); split; congruence. Qed.

Lemma last_token_raises t e : last_token t = Raise e -> e = IndexError.
Proof. unfold last_token. destruct (rev (split t)); congruence. Qed.

Lemma strptime_raises s e : strptime_mdY s = Raise e -> e = ValueError.
Proof.
  unfold strptime_mdY.
  destruct (directive_m _ _) as [[dt [|? ?]]|]; try congruence.
  destruct (valid_date dt); congruence.
Qed.

(** What the four title-based extractors return, by the outcome of the
    title convention. *)
Lemma title_based_extract c html doc :
  title_based c = true -> fromstring html = Ok doc ->
  match title_outcome_of doc with
  | NoTitle => extract_mdna c html = Ok None
  | NoToken => extract_mdna c html = Raise IndexError
  | BadDate => extract_mdna c html = Raise ValueError
  | Dated d =>
      extract_mdna c html =
      match c with
      | AppleMDNA | FacebookMDNA =>
          if datetime_gt d cutoff then
            frag <- _extract_mdna_after_2019 c doc ;;
            Ok (Some (frag, Some (strftime_Y d)))
          else
            frag <- _extract_mdna_before_2019 c doc ;;
            Ok (Some (frag, Some (strftime_Y d)))
      | NetflixMDNA =>
          Ok (Some (first_container doc netflix_phrases, Some (strftime_Y d)))
      | AmazonMDNA =>
          Ok (Some (first_container doc amazon_phrases, Some (strftime_Y d)))
      | BaseMDNA | GoogleMDNA => extract_mdna c html
      end
  end.
Proof.
  intros Hc Hdoc. unfold title_outcome_of.
  destruct c; try discriminate Hc; unfold extract_mdna; cbn [getattr mro first_defined bind];
    unfold AppleMDNA_extract_mdna, NetflixMDNA_extract_mdna,
      AmazonMDNA_extract_mdna, dated_container; rewrite Hdoc; cbn [bind];
    (destruct (filing_title doc) as [|t0 ts]; [reflexivity|]);
    (destruct (text_of t0) as [t|]; [|reflexivity]);
    (destruct (last_token t) as [tok|e] eqn:Et;
       [|cbn [bind]; now rewrite (last_token_raises _ Et)]);
    cbn [bind];
    (destruct (strptime_mdY tok) as [d|e] eqn:Ed;
       [|cbn [bind]; now rewrite (strptime_raises _ Ed)]);
    cbn [bind]; reflexivity.
Qed.

(** C1 (as the code has it).  For the extractors that read the filing
    title, on every document: when the parser rejects the document,
    [extract_mdna] and [get_mdna_text] raise the exception of the parser;
    when the document parses and the title span or its text is absent,
    [extract_mdna] returns an absent result (no fragment, no year) and
    does not raise; when the last token of the title does not parse as a
    MM/DD/YYYY date, [extract_mdna] and [get_mdna_text] raise
    [ValueError]; when the title holds no token at all, they raise
    [IndexError]. *)
Theorem title_convention_failure c html :
  title_based c = true ->
  match fromstring html with
  | Raise e =>
      extract_mdna c html = Raise e /\ get_mdna_text c html = Raise e
  | Ok doc =>
      match title_outcome_of doc with
      | NoTitle =>
          exists r, extract_mdna c html = Ok r
                    /\ fragment_of r = None /\ year_of r = None
      | NoToken =>
          extract_mdna c html = Raise IndexError
          /\ get_mdna_text c html = Raise IndexError
      | BadDate =>
          extract_mdna c html = Raise ValueError
          /\ get_mdna_text c html = Raise ValueError
      | Dated _ => True
      end
  end.
Proof.
  intros Hc.
  assert (G : forall e, extract_mdna c html = Raise e ->
                        get_mdna_text c html = Raise e).
  { intros e He. unfold get_mdna_text.
    destruct c; cbn [getattr mro first_defined bind];
      unfold BaseMDNA_get_mdna_text; now rewrite He. }
  destruct (fromstring html) as [doc|e] eqn:Hdoc.
  - pose proof (title_based_extract c html Hc Hdoc) as E.
    destruct (title_outcome_of doc); auto.
    exists None. auto.
  - assert (E : extract_mdna c html = Raise e).
    { destruct c; try discriminate Hc; unfold extract_mdna;
        cbn [getattr mro first_defined bind];
        unfold AppleMDNA_extract_mdna, NetflixMDNA_extract_mdna,
          AmazonMDNA_extract_mdna, dated_container; now rewrite Hdoc. }
    auto.
Qed.

(** C8.  The extractor of Issuer C (Facebook) behaves as the extractor of
    Issuer A (Apple): on every input, [extract_mdna] and [get_mdna_text]
    give the same result, or raise the same exception, on both classes. *)
Theorem facebook_is_apple html :
  extract_mdna FacebookMDNA html = extract_mdna AppleMDNA html
  /\ get_mdna_text FacebookMDNA html = get_mdna_text AppleMDNA html.
Proof.
  assert (E : extract_mdna FacebookMDNA html = extract_mdna AppleMDNA html)
    by reflexivity.
  split; [exact E|].
  unfold get_mdna_text. cbn [getattr mro first_defined bind].
  unfold BaseMDNA_get_mdna_text. rewrite E.
  destruct (extract_mdna AppleMDNA html) as [[[[f|] y]|]|]; reflexivity.
Qed.

Lemma find_middle {A} (p : A -> bool) l1 x l2 :
  forallb (fun y => negb (p y)) l1 = true -> p x = true ->
  find p (l1 ++ x :: l2) = Some x.
Proof.
  intros H Hx. induction l1 as [|y l1 IH]; simpl in *.
  - now rewrite Hx.
  - apply andb_true_iff in H. destruct H as [Hy H].
    apply negb_true_iff in Hy. rewrite Hy. now apply IH.
Qed.

Lemma strptime_valid s d : strptime_mdY s = Ok d -> valid_date d = true.
Proof.
  unfold strptime_mdY.
  destruct (directive_m _ _) as [[dt [|? ?]]|]; try discriminate.
  destruct (valid_date dt) eqn:V; [|discriminate]. now intros [= <-].
Qed.

Lemma dated_valid doc d : title_outcome_of doc = Dated d -> valid_date d = true.
Proof.
  unfold title_outcome_of.
  destruct (filing_title doc) as [|t0 ts]; [discriminate|].
  destruct (text_of t0) as [t|]; [|discriminate].
  destruct (last_token t) as [tok|]; [|discriminate].
  destruct (strptime_mdY tok) as [d'|] eqn:E; [|discriminate].
  intros [= <-]. exact (strptime_valid _ E).
Qed.

(** From 2019 on, the year is written with four digits. *)
Lemma strftime_Y_four d :
  valid_date d = true -> datetime_gt d cutoff = true ->
  length (strftime_Y d) = 4 /\ forallb is_ascii_digit (strftime_Y d) = true.
Proof.
  intros V H. unfold strftime_Y.
  assert (Y : (2019 <= year d <= 9999)%N).
  { unfold valid_date in V. rewrite !andb_true_iff, !N.leb_le in V.
    unfold datetime_gt, cutoff in H. cbn [year month day] in H.
    apply orb_true_iff in H. destruct H as [H|H].
    - apply N.ltb_lt in H. lia.
    - apply andb_true_iff in H. destruct H as [H _]. apply N.eqb_eq in H. lia. }
  assert (Q : (2 <= year d / 1000 <= 9)%N).
  { split; [apply N.div_le_lower_bound; lia|].
    apply N.lt_succ_r, N.Div0.div_lt_upper_bound; lia. }
  pose proof (N.mod_lt (year d / 100) 10) as M1.
  pose proof (N.mod_lt (year d / 10) 10) as M2.
  pose proof (N.mod_lt (year d) 10) as M3.
  cbn [drop_zeros]. unfold digit.
  destruct (N.eqb_spec (48 + year d / 1000) 48); [lia|]. split; [reflexivity|].
  cbn [forallb]. unfold is_ascii_digit, between.
  rewrite !andb_true_iff, !N.leb_le.
  repeat split; try apply N.le_add_r; lia.
Qed.

(** C5 (as the code has it).  For Issuer A, on every document whose filing
    date is strictly after 2019-01-01, [extract_mdna] returns the
    serialized markup of the first table cell of class "text" whose
    trimmed text starts with "Summary of Significant Accounting Policies",
    together with the year of the filing date, a string of four digits. *)
Theorem apple_extract_mdna_after_cutoff html doc d cells_before td cells_after :
  fromstring html = Ok doc ->
  title_outcome_of doc = Dated d ->
  datetime_gt d cutoff = true ->
  xpath_any doc (u "td") (u "class") (u "text")
    = cells_before ++ td :: cells_after ->
  forallb (fun x => negb (policy_cell x)) cells_before = true ->
  policy_cell td = true ->
  extract_mdna AppleMDNA html
  = Ok (Some (Some (Bytes (tostring td)), Some (strftime_Y d)))
  /\ length (strftime_Y d) = 4
  /\ forallb is_ascii_digit (strftime_Y d) = true.
Proof.
  intros Hdoc Hd Hgt Hx Hb Htd.
  split; [|exact (strftime_Y_four d (dated_valid _ Hd) Hgt)].
  pose proof (title_based_extract AppleMDNA html eq_refl Hdoc) as E.
  rewrite Hd, Hgt in E. rewrite E.
  unfold _extract_mdna_after_2019. cbn [getattr mro first_defined bind].
  unfold AppleMDNA__extract_mdna_after_2019. rewrite Hx.
  change (fun td0 => match text_of td0 with
                     | Some t => startswith (strip t) policies
                     | None => false
                     end) with policy_cell.
  now rewrite (@find_middle _ policy_cell cells_before td cells_after Hb Htd).
Qed.

(** ** HTML to text *)

Lemma fold_mark_tag tags : forall t a x cs tl,
  fold_left mark_tag tags (Element t a x cs tl)
  = Element t a x (map (mark_child tags) cs) tl.
Proof.
  induction tags as [|tag tags IH]; intros t a x cs tl; cbn [fold_left mark_tag].
  - unfold mark_child. simpl. now rewrite map_id.
  - rewrite IH, map_map. reflexivity.
Qed.

Lemma add_newline_append e : add_newline e = append_to_text newline e.
Proof. destruct e as [t a [[|c s]|] cs tl|b tl]; reflexivity. Qed.

Lemma has_tag_add_newline tag e : has_tag tag (add_newline e) = has_tag tag e.
Proof. destruct e as [t a [[|c s]|] cs tl|b tl]; reflexivity. Qed.

Lemma mark_child_none tags e :
  existsb (fun tag => has_tag tag e) tags = false -> mark_child tags e = e.
Proof.
  unfold mark_child. induction tags as [|tag tags IH]; simpl; [reflexivity|].
  intros H. apply orb_false_iff in H. destruct H as [H1 H2].
  rewrite H1. now apply IH.
Qed.

Lemma mark_child_spec tags e :
  NoDup tags ->
  mark_child tags e
  = if existsb (fun tag => has_tag tag e) tags then add_newline e else e.
Proof.
  intros ND. induction ND as [|tag tags Hn ND IH]; [reflexivity|].
  cbn [existsb]. destruct (has_tag tag e) eqn:Ht; cbn [orb].
  - unfold mark_child. cbn [fold_left]. rewrite Ht.
    apply mark_child_none.
    apply not_true_iff_false. intros Hex. apply existsb_exists in Hex.
    destruct Hex as (tag' & Hin & Ht'). rewrite has_tag_add_newline in Ht'.
    destruct e as [t a x cs tl|b tl]; [|discriminate]. simpl in Ht, Ht'.
    apply str_eqb_eq in Ht, Ht'. congruence.
  - unfold mark_child in *. cbn [fold_left]. now rewrite Ht.
Qed.

Lemma block_tags_NoDup : NoDup block_tags.
Proof.
  replace block_tags with (nodup (list_eq_dec N.eq_dec) block_tags)
    by (vm_compute; reflexivity).
  apply NoDup_nodup.
Qed.

(** C4 (as the code has it).  [get_text_from_html] attaches a newline to
    the end of the leading text of those children of the parsed root whose
    tag is one of tr, th, td, a, p, div, br, h1-h5 (creating the text when
    it is absent), leaves the root and all deeper elements as they are, and
    returns the trimmed text content of the tree. *)
Theorem get_text_from_html_children c html doc :
  fromstring html = Ok doc ->
  get_text_from_html c html
  = Ok (strip (text_content (newline_after_child_text (self doc)))).
Proof.
  intros Hdoc.
  assert (E : get_text_from_html c html = BaseMDNA_get_text_from_html c html)
    by (destruct c; reflexivity).
  rewrite E. unfold BaseMDNA_get_text_from_html. rewrite Hdoc. cbn [bind].
  do 3 f_equal. destruct (self doc) as [t a x cs tl|b tl].
  - rewrite fold_mark_tag. unfold newline_after_child_text. f_equal.
    apply map_ext. intros e. rewrite (mark_child_spec e block_tags_NoDup).
    unfold is_block. now rewrite add_newline_append.
  - reflexivity.
Qed.

End ExtractorFacts.

(** * The statements on concrete inputs *)

(** The token theorem on the text "3's a-1" and its token "'s". *)
Lemma identify_words_tokens_witness :
  exists pre post,
    u "3's a-1" = pre ++ u "'s" ++ post
    /\ u "'s" <> []
    /\ forallb word_char (u "'s") = true
    /\ (is_ascii_letter (hd 0%N (u "'s")) = true
        \/ exists pre' c, pre = pre' ++ [c] /\ @is_word ascii_only c = true)
    /\ (is_ascii_letter (last (u "'s") 0%N) = true
        \/ exists c post', post = c :: post' /\ @is_word ascii_only c = true).
Proof.
  apply (@identify_words_tokens ascii_only (u "3's a-1") (u "'s")).
  vm_compute. left. reflexivity.
Defined.

(** The reading of C9 in the specification does not hold: after a digit a
    token begins with an apostrophe. *)
Lemma identify_words_leading_apostrophe :
  @Fog.identify_words ascii_only (u "3's") = [u "'s"].
Proof. vm_compute. reflexivity. Qed.

(** The syllable bound on the word "beautiful". *)
Lemma count_syllables_le_vowels_witness :
  @Fog.count_syllables ascii_only (u "beautiful") <= vowels (u "beautiful").
Proof.
  apply (proj1 (@count_syllables_le_vowels ascii_only (u "beautiful") eq_refl)).
Defined.

(** The reading of C10 in the specification does not hold on every string:
    the dotless i (U+0131) matches the vowel set under IGNORECASE and is
    counted as a syllable, though it is none of the vowel characters. *)
Lemma count_syllables_dotless_i :
  @Fog.count_syllables ascii_only [305%N] = 1 /\ vowels [305%N] = 0.
Proof. split; vm_compute; reflexivity. Qed.

(** The Google extractor on [google_document]: the heading starts at index
    2, and the first [<hr] comes 12 characters after its end. *)
Lemma google_extract_mdna_witness :
  @extract_mdna ascii_only example_lxml GoogleMDNA (Str google_document)
  = Ok (Some (Some (Str (heading ++ u "<div>a</div><hr")), None)).
Proof.
  apply (@google_extract_mdna ascii_only example_lxml google_document 2 12);
    vm_compute; reflexivity.
Defined.

(** The reading of C3 in the specification does not hold: a document with
    the heading in ASCII, followed by a horizontal rule, gives no
    fragment. *)
Lemma google_ascii_heading_not_found :
  str_find ascii_heading_document ascii_heading = Some 0
  /\ str_find (skipn (length ascii_heading) ascii_heading_document) (u "<hr")
     = Some 14
  /\ @extract_mdna ascii_only example_lxml GoogleMDNA (Str ascii_heading_document)
     = Ok (Some (None, None)).
Proof. repeat split; vm_compute; reflexivity. Qed.

(** The title convention on a document without title (Netflix), on one
    whose title ends in an ISO date (Amazon), and on the empty document,
    which the parser rejects (Apple). *)
Lemma title_convention_failure_witness :
  (exists r, @extract_mdna ascii_only example_lxml NetflixMDNA (Str untitled_source)
             = Ok r
             /\ fragment_of r = None /\ year_of r = None)
  /\ (@extract_mdna ascii_only example_lxml AmazonMDNA (Str filing_iso_date_source)
      = Raise ValueError
      /\ @get_mdna_text ascii_only example_lxml AmazonMDNA
           (Str filing_iso_date_source)
         = Raise ValueError)
  /\ (@extract_mdna ascii_only example_lxml AppleMDNA (Str []) = Raise ParserError
      /\ @get_mdna_text ascii_only example_lxml AppleMDNA (Str [])
         = Raise ParserError).
Proof.
  split; [|split].
  - exact (@title_convention_failure ascii_only example_lxml NetflixMDNA
             (Str untitled_source) eq_refl).
  - exact (@title_convention_failure ascii_only example_lxml AmazonMDNA
             (Str filing_iso_date_source) eq_refl).
  - exact (@title_convention_failure ascii_only example_lxml AppleMDNA
             (Str []) eq_refl).
Defined.

(** The reading of C1 in the specification does not hold: on a title whose
    last token is no MM/DD/YYYY date the Apple extractor yields no result
    at all, it raises. *)
Lemma title_convention_iso_date_raises :
  @extract_mdna ascii_only example_lxml AppleMDNA (Str filing_iso_date_source)
  = Raise ValueError
  /\ @get_mdna_text ascii_only example_lxml AppleMDNA (Str filing_iso_date_source)
     = Raise ValueError.
Proof. split; vm_compute; reflexivity. Qed.

(** The filing of 10/15/2020: its policy cell and the year "2020". *)
Lemma apple_extract_mdna_after_cutoff_witness :
  @extract_mdna ascii_only example_lxml AppleMDNA (Str filing_2020_source)
  = Ok (Some (Some (Bytes (serialize policy_td)), Some (u "2020")))
  /\ length (u "2020") = 4
  /\ forallb is_ascii_digit (u "2020") = true.
Proof.
  apply (@apple_extract_mdna_after_cutoff ascii_only example_lxml
           (Str filing_2020_source) filing_2020 (Datetime 2020 10 15)
           [] policy_td []);
    vm_compute; reflexivity.
Defined.

(** The reading of C5 in the specification does not hold on the cutoff day:
    the filing of 01/01/2019 has a policy cell, yet the extractor takes the
    pre-2019 path and finds no fragment. *)
Lemma apple_extract_mdna_on_cutoff :
  @title_outcome_of ascii_only filing_cutoff = Dated cutoff
  /\ find policy_cell (xpath_any filing_cutoff (u "td") (u "class") (u "text"))
     = Some policy_td
  /\ @extract_mdna ascii_only example_lxml AppleMDNA (Str filing_cutoff_source)
     = Ok (Some (None, Some (u "2019"))).
Proof. repeat split; vm_compute; reflexivity. Qed.

(** The table of the specification: only its row is a child of the root. *)
Lemma get_text_from_html_children_witness :
  get_text_from_html (L := example_lxml) BaseMDNA (Str table_AB_source)
  = Ok (strip (text_content (newline_after_child_text table_AB))).
Proof.
  apply (get_text_from_html_children (L := example_lxml) BaseMDNA
           (Str table_AB_source) (doc := fragment table_AB)).
  vm_compute. reflexivity.
Defined.

(** The reading of C4 in the specification does not hold: the cells are
    not children of the root, no newline is attached to them, and the one
    attached to the row is trimmed away; the text is "AB". *)
Lemma get_text_from_html_table_AB :
  get_text_from_html (L := example_lxml) BaseMDNA (Str table_AB_source)
  = Ok (u "AB").
Proof. vm_compute. reflexivity. Qed.

(** * Further properties of the scorer *)

(** ** Syllables *)
Section SyllableFacts.
Context {U : Unicode}.
Import Re Fog.

Lemma in_set_i_aeuoiy c : in_set_i (chars "aeuoiy") c = vowel_i c.
Proof.
  unfold vowel_i, in_set_i, in_set.
  cbn [chars u map flat_map fold_item app existsb in_item].
  change (ord "a") with 97%N. change (ord "e") with 101%N.
  change (ord "o") with 111%N. change (ord "u") with 117%N.
  change (ord "i") with 105%N. change (ord "y") with 121%N.
  change (sre_lower 97) with 97%N. change (sre_lower 101) with 101%N.
  change (sre_lower 111) with 111%N. change (sre_lower 117) with 117%N.
  change (sre_lower 105) with 105%N. change (sre_lower 121) with 121%N.
  cbn [fixes N.eqb Pos.eqb app existsb in_item].
  apply Bool.eq_iff_eq_true.
  rewrite ?orb_false_r, !orb_true_iff. tauto.
Qed.

(** The lookahead [(?!e$)] at a position. *)
Lemma run_final_e z :
  run (Cat (LitI (ord "e")) Eol) z Some =
  match after z with
  | c :: rest =>
      if final_e c rest then Some (Cursor (c :: before z) rest) else None
  | [] => None
  end.
Proof.
  unfold LitI. cbn [run]. destruct (after z) as [|c rest]; [reflexivity|].
  unfold final_e. change (sre_lower (ord "e")) with 101%N.
  destruct (sre_lower c =? 101)%N; [|reflexivity].
  unfold at_eol. cbn [after andb].
  destruct rest as [|d [|? ?]]; try reflexivity.
Qed.

(** The pattern after its first group: [(?!e$)[aeouiy]]. *)
Lemma run_vowel z :
  run (Cat (NotAhead (Cat (LitI (ord "e")) Eol)) (OneOfI (chars "aeouiy"))) z Some
  = match after z with
    | c :: r =>
        if vowel_i c && negb (final_e c r)
        then Some (Cursor (c :: before z) r) else None
    | [] => None
    end.
Proof.
  change (run (Cat (NotAhead (Cat (LitI (ord "e")) Eol))
                   (OneOfI (chars "aeouiy"))) z Some)
    with (match run (Cat (LitI (ord "e")) Eol) z Some with
          | Some _ => None
          | None =>
              match after z with
              | c :: rest =>
                  if vowel_i c then Some (Cursor (c :: before z) rest) else None
              | [] => None
              end
          end).
  rewrite run_final_e. destruct (after z) as [|c r]; [reflexivity|].
  destruct (final_e c r); destruct (vowel_i c); reflexivity.
Qed.

(** The match of the syllable pattern at a position, said directly. *)
Lemma match_at_syllable prev rest :
  match_at re_syllables (Cursor prev rest) =
  match rest with
  | [] => None
  | c :: r =>
      if match prev with [] => true | _ => false end
         && vowel_i c && negb (final_e c r)
      then Some (Cursor (c :: prev) r)
      else if vowel_i c then None
      else match r with
           | [] => None
           | d :: r' =>
               if vowel_i d && negb (final_e d r')
               then Some (Cursor (d :: c :: prev) r')
               else None
           end
  end.
Proof.
  set (T := Cat (NotAhead (Cat (LitI (ord "e")) Eol)) (OneOfI (chars "aeouiy"))).
  change (match_at re_syllables (Cursor prev rest))
    with (match (if at_bol (Cursor prev rest)
                 then run T (Cursor prev rest) Some else None) with
          | Some e' => Some e'
          | None =>
              match rest with
              | [] => None
              | c :: r =>
                  if negb (in_set_i (chars "aeuoiy") c)
                  then run T (Cursor (c :: prev) r) Some else None
              end
          end).
  unfold T. rewrite run_vowel. unfold at_bol. cbn [before after].
  destruct rest as [|c r]; [now destruct prev|].
  rewrite run_vowel, in_set_i_aeuoiy. cbn [before after].
  destruct prev as [|p prev']; cbn [andb].
  - destruct (vowel_i c) eqn:V; cbn [andb negb].
    + now destruct (final_e c r).
    + reflexivity.
  - destruct (vowel_i c); reflexivity.
Qed.

(** From a position inside the word on, the scan finds the vowels that
    follow a consonant. *)
Lemma scan_syllables_inner : forall n rest p prev,
  length rest <= n ->
  length (scan re_syllables (p :: prev) rest 0) = vowel_groups true rest.
Proof.
  induction n as [|n IH]; intros rest p prev L.
  - destruct rest; [|simpl in L; lia]. reflexivity.
  - destruct rest as [|c r]; [reflexivity|]. cbn [scan].
    rewrite match_at_syllable. cbn [andb vowel_groups].
    rewrite andb_false_r. cbn [Nat.add].
    simpl in L.
    destruct (vowel_i c) eqn:V.
    + apply IH. lia.
    + destruct r as [|d r'].
      * reflexivity.
      * destruct (vowel_i d && negb (final_e d r')) eqn:M.
        -- assert (E : span (Cursor (p :: prev) (c :: d :: r'))
                         (Cursor (d :: c :: p :: prev) r') = [c; d]).
           { unfold span. cbn [after length].
             replace (S (S (length r')) - length r') with 2 by lia.
             reflexivity. }
           rewrite E. cbn [length Nat.pred scan vowel_groups].
           apply andb_true_iff in M. destruct M as [Vd F]. rewrite Vd, F.
           cbn [andb negb Nat.add]. f_equal. apply IH. simpl in L. lia.
        -- rewrite (IH (d :: r') c (p :: prev)) by lia.
           cbn [vowel_groups]. rewrite andb_false_r.
           cbn [negb]. rewrite andb_true_r in *.
           now rewrite M.
Qed.

Lemma scan_syllables_groups word :
  length (scan re_syllables [] word 0) = vowel_groups false word.
Proof.
  destruct word as [|c r]; [reflexivity|]. cbn [scan].
  rewrite match_at_syllable. cbn [andb vowel_groups negb].
  rewrite andb_true_r.
  destruct (vowel_i c && negb (final_e c r)) eqn:M.
  - assert (E : span (Cursor [] (c :: r)) (Cursor [c] r) = [c]).
    { unfold span. cbn [after length].
      replace (S (length r) - length r) with 1 by lia. reflexivity. }
    rewrite E. cbn [length Nat.pred Nat.add]. f_equal.
    apply andb_true_iff in M. destruct M as [V _]. rewrite V.
    destruct r as [|d r']; [reflexivity|].
    apply (@scan_syllables_inner (length (d :: r'))). lia.
  - cbn [Nat.add]. destruct (vowel_i c) eqn:V.
    + apply (@scan_syllables_inner (length r)). lia.
    + destruct r as [|d r']; [reflexivity|].
      destruct (vowel_i d && negb (final_e d r')) eqn:M2.
      * assert (E : span (Cursor [] (c :: d :: r')) (Cursor [d; c] r') = [c; d]).
        { unfold span. cbn [after length].
          replace (S (S (length r')) - length r') with 2 by lia. reflexivity. }
        rewrite E. cbn [length Nat.pred scan vowel_groups].
        apply andb_true_iff in M2. destruct M2 as [Vd F]. rewrite Vd, F.
        cbn [andb negb Nat.add]. f_equal.
        apply (@scan_syllables_inner (length r')). lia.
      * rewrite (@scan_syllables_inner (length (d :: r'))) by lia.
        cbn [vowel_groups]. rewrite andb_false_r. cbn [negb].
        rewrite andb_true_r in *. now rewrite M2.
Qed.

(** X1.  [count_syllables] counts the vowel groups of the word: the
    positions of a vowel (a, e, i, o, u, y in either case, and the code
    points U+0130 and U+0131) that does not directly follow a vowel,
    leaving out such a position when its vowel is an e or E with nothing,
    or only a final newline, after it. *)
Theorem count_syllables_vowel_groups word :
  count_syllables word = vowel_groups false word.
Proof. apply scan_syllables_groups. Qed.


(** ** Case *)

Lemma sre_lower_ascii_lower c : sre_lower (ascii_lower c) = sre_lower c.
Proof.
  unfold ascii_lower. destruct (between 65 90 c) eqn:B; [|reflexivity].
  unfold sre_lower. rewrite B. unfold between in *.
  apply andb_true_iff in B. rewrite !N.leb_le in B.
  replace (c + 32 <=? 90)%N with false by (symmetry; apply N.leb_gt; lia).
  rewrite andb_false_r.
  replace (c + 32 =? 304)%N with false by (symmetry; apply N.eqb_neq; lia).
  replace (c + 32 =? 8490)%N with false by (symmetry; apply N.eqb_neq; lia).
  reflexivity.
Qed.

Lemma sre_lower_ascii_upper c : sre_lower (ascii_upper c) = sre_lower c.
Proof.
  unfold ascii_upper. destruct (between 97 122 c) eqn:B; [|reflexivity].
  unfold sre_lower, between in *.
  apply andb_true_iff in B. rewrite !N.leb_le in B.
  replace (65 <=? c - 32)%N with true by (symmetry; apply N.leb_le; lia).
  replace (c - 32 <=? 90)%N with true by (symmetry; apply N.leb_le; lia).
  replace (c <=? 90)%N with false by (symmetry; apply N.leb_gt; lia).
  rewrite andb_false_r. cbn [andb].
  replace (c =? 304)%N with false by (symmetry; apply N.eqb_neq; lia).
  replace (c =? 8490)%N with false by (symmetry; apply N.eqb_neq; lia).
  lia.
Qed.

(** The count depends on the characters through their lowering only. *)
Lemma vowel_groups_map (f : char -> char) :
  (forall c, sre_lower (f c) = sre_lower c) ->
  (forall c, (f c =? 10)%N = (c =? 10)%N) ->
  forall s b, vowel_groups b (map f s) = vowel_groups b s.
Proof.
  intros Hl Hn.
  assert (V : forall c, vowel_i (f c) = vowel_i c).
  { intros c. unfold vowel_i, in_set_i. now rewrite Hl. }
  induction s as [|c s IH]; intros b; [reflexivity|].
  cbn [map vowel_groups]. rewrite V, IH.
  assert (F : final_e (f c) (map f s) = final_e c s).
  { unfold final_e. rewrite Hl. f_equal.
    destruct s as [|d [|? ?]]; cbn [map]; auto. }
  now rewrite F.
Qed.

Lemma ascii_lower_newline c : (ascii_lower c =? 10)%N = (c =? 10)%N.
Proof.
  unfold ascii_lower. destruct (between 65 90 c) eqn:B; [|reflexivity].
  unfold between in B. apply andb_true_iff in B. rewrite !N.leb_le in B.
  destruct (N.eqb_spec (c + 32) 10); destruct (N.eqb_spec c 10); try reflexivity; lia.
Qed.

Lemma ascii_upper_newline c : (ascii_upper c =? 10)%N = (c =? 10)%N.
Proof.
  unfold ascii_upper. destruct (between 97 122 c) eqn:B; [|reflexivity].
  unfold between in B. apply andb_true_iff in B. rewrite !N.leb_le in B.
  destruct (N.eqb_spec (c - 32) 10); destruct (N.eqb_spec c 10); try reflexivity; lia.
Qed.

(** X2.  Syllable counting ignores ASCII case: lowering or raising the
    ASCII letters of a word changes neither [count_syllables] nor
    [is_complex_word]. *)
Theorem count_syllables_ignores_case word :
  count_syllables (map ascii_lower word) = count_syllables word
  /\ count_syllables (map ascii_upper word) = count_syllables word
  /\ is_complex_word (map ascii_lower word) = is_complex_word word
  /\ is_complex_word (map ascii_upper word) = is_complex_word word.
Proof.
  assert (L : count_syllables (map ascii_lower word) = count_syllables word).
  { unfold count_syllables, finditer. rewrite !scan_syllables_groups.
    apply vowel_groups_map.
    - apply sre_lower_ascii_lower.
    - apply ascii_lower_newline. }
  assert (P : count_syllables (map ascii_upper word) = count_syllables word).
  { unfold count_syllables, finditer. rewrite !scan_syllables_groups.
    apply vowel_groups_map.
    - apply sre_lower_ascii_upper.
    - apply ascii_upper_newline. }
  unfold is_complex_word. now rewrite L, P.
Qed.

Lemma vowel_groups_bound : forall s b,
  2 * vowel_groups b s <= length s + (if b then 0 else 1).
Proof.
  induction s as [|c s IH]; intros b; cbn [vowel_groups length].
  - destruct b; lia.
  - specialize (IH (vowel_i c)).
    destruct (vowel_i c); destruct b; cbn [andb negb] in *;
      try destruct (final_e c s); cbn [negb] in *; lia.
Qed.

(** X3.  A word of n characters has at most (n+1)/2 syllables; so a
    complex word, one of three or more syllables, has at least five
    characters. *)
Theorem count_syllables_half_length word :
  2 * count_syllables word <= length word + 1
  /\ (is_complex_word word = true -> 5 <= length word).
Proof.
  assert (B : 2 * count_syllables word <= length word + 1).
  { unfold count_syllables, finditer. rewrite scan_syllables_groups.
    apply (vowel_groups_bound word false). }
  split; [exact B|]. unfold is_complex_word. intros H.
  apply Nat.leb_le in H. lia.
Qed.

End SyllableFacts.

(** ** Sentences and words *)
Section ScannerFacts.
Context {U : Unicode}.
Import Re Fog.

(** ** Stars and scans *)

(** A star stops after a sequence of rounds of its body, wherever the rest
    of the pattern succeeds.  [Q] is any property of the text passed that
    holds of the empty text and is kept by one more round in front. *)
Lemma star_sound (step : cursor -> (cursor -> option cursor) -> option cursor)
    (Q : str -> Prop) :
  Q [] ->
  (forall z K e, step z K = Some e ->
     exists w rest, after z = w ++ rest
                    /\ (forall w', Q w' -> Q (w ++ w'))
                    /\ K (advance z w rest) = Some e) ->
  forall g n z k e,
    star_loop step g n z k = Some e ->
    exists w rest, after z = w ++ rest /\ Q w /\ k (advance z w rest) = Some e.
Proof.
  intros Q0 Hstep g n. induction n as [|n IH]; intros z k e H; simpl in H.
  - exists [], (after z). unfold advance. simpl. now rewrite cursor_eta.
  - assert (Stop : k z = Some e -> exists w rest,
               after z = w ++ rest /\ Q w /\ k (advance z w rest) = Some e).
    { intros Hk. exists [], (after z). unfold advance. simpl.
      now rewrite cursor_eta. }
    assert (More : step z (fun z' => if shorter z' z
                                     then star_loop step g n z' k else None)
                   = Some e ->
                   exists w rest,
                     after z = w ++ rest /\ Q w /\ k (advance z w rest) = Some e).
    { intros Hm. apply Hstep in Hm. destruct Hm as (w & rest & H1 & H2 & H3).
      destruct (shorter (advance z w rest) z); [|discriminate].
      apply IH in H3. destruct H3 as (w' & rest' & H4 & H5 & H6).
      simpl in H4. exists (w ++ w'), rest'. repeat split.
      - now rewrite H1, H4, <- app_assoc.
      - now apply H2.
      - unfold advance in *. simpl in H6.
        now rewrite rev_app_distr, <- app_assoc. }
    destruct g.
    + destruct (step z _) eqn:Em.
      * apply More; first [exact H | rewrite Em; exact H].
      * apply Stop, H.
    + destruct (k z) eqn:Ek.
      * apply Stop. congruence.
      * apply More, H.
Qed.

Lemma run_Class p z k :
  run (Class p) z k =
  match after z with
  | c :: rest => if p c then k (Cursor (c :: before z) rest) else None
  | [] => None
  end.
Proof. reflexivity. Qed.

(** A greedy star over a one-character class passes the whole run of
    characters of the class when the rest of the pattern succeeds after
    it. *)
Lemma star_class_greedy p k e : forall w n z rest,
  after z = w ++ rest -> forallb p w = true ->
  match rest with [] => True | d :: _ => p d = false end ->
  length w < n ->
  k (advance z w rest) = Some e ->
  star_loop (run (Class p)) true n z k = Some e.
Proof.
  induction w as [|c w IH]; intros n z rest Hz Hw Hr Hn Hk;
    (destruct n as [|n]; [simpl in Hn; lia|]); cbn [star_loop];
    rewrite run_Class.
  - simpl in Hz. rewrite Hz.
    assert (E : advance z [] rest = z).
    { unfold advance. simpl. rewrite <- Hz. apply cursor_eta. }
    rewrite E in Hk.
    destruct rest as [|d rest']; [exact Hk|]. now rewrite Hr.
  - simpl in Hz. rewrite Hz. simpl in Hw. apply andb_true_iff in Hw.
    destruct Hw as [Hc Hw]. rewrite Hc.
    unfold shorter. cbn [after]. rewrite Hz. cbn [length].
    replace (length (w ++ rest) <? S (length (w ++ rest))) with true
      by (symmetry; apply Nat.ltb_lt; lia).
    rewrite (IH n (Cursor (c :: before z) (w ++ rest)) rest); auto.
    + simpl in Hn. lia.
    + unfold advance in *. simpl in *. now rewrite <- app_assoc in Hk.
Qed.

(** The scan passes the characters still covered by the last match. *)
Lemma scan_skip r : forall w prev rest,
  scan r prev (w ++ rest) (length w) = scan r (rev w ++ prev) rest 0.
Proof.
  induction w as [|c w IH]; intros prev rest; [reflexivity|].
  cbn [app length scan]. rewrite IH. simpl. now rewrite <- app_assoc.
Qed.

(** ** Sentences *)

Lemma in_terminators c : in_set (chars ".!?") c = terminator c.
Proof.
  unfold in_set, terminator. cbn [chars u map existsb in_item].
  change (ord ".") with 46%N. change (ord "!") with 33%N.
  change (ord "?") with 63%N. now rewrite orb_false_r, orb_assoc.
Qed.

Lemma decimal_not_terminator d : is_decimal d = true -> terminator d = false.
Proof.
  unfold is_decimal, decimal_value, terminator. intros H.
  destruct (N.eqb_spec d 46) as [->|]; [discriminate H|].
  destruct (N.eqb_spec d 33) as [->|]; [discriminate H|].
  destruct (N.eqb_spec d 63) as [->|]; [discriminate H|]. reflexivity.
Qed.

(** One round of the star of the sentence pattern: a character that ends
    no sentence, or a period and a decimal digit. *)
Lemma run_sentence_unit z K e :
  run (Alt (NoneOf (chars ".!?")) (Cat (Lit (ord ".")) (Class is_decimal))) z K
  = Some e ->
  exists w rest,
    after z = w ++ rest
    /\ (forall w', sentence_body w' = true -> sentence_body (w ++ w') = true)
    /\ K (advance z w rest) = Some e.
Proof.
  unfold NoneOf, Lit. cbn [run].
  destruct (after z) as [|c rest] eqn:Ez; [discriminate|].
  rewrite in_terminators. change (ord ".") with 46%N.
  assert (One : negb (terminator c) = true ->
                K (Cursor (c :: before z) rest) = Some e ->
                exists w rest0,
                  c :: rest = w ++ rest0
                  /\ (forall w', sentence_body w' = true ->
                                 sentence_body (w ++ w') = true)
                  /\ K (advance z w rest0) = Some e).
  { intros T Hk. exists [c], rest. repeat split; auto.
    intros w' Hw'. cbn [app sentence_body]. now rewrite T, Hw'. }
  assert (Two : (if (46 =? c)%N
                 then match rest with
                      | [] => None
                      | d :: rest' =>
                          if is_decimal d
                          then K (Cursor (d :: c :: before z) rest') else None
                      end
                 else None) = Some e ->
                exists w rest0,
                  c :: rest = w ++ rest0
                  /\ (forall w', sentence_body w' = true ->
                                 sentence_body (w ++ w') = true)
                  /\ K (advance z w rest0) = Some e).
  { destruct (N.eqb_spec 46 c) as [<-|]; [|discriminate].
    destruct rest as [|d rest']; [discriminate|].
    destruct (is_decimal d) eqn:D; [|discriminate].
    intros Hk. exists [46%N; d], rest'. repeat split; auto.
    intros w' Hw'. cbn [app sentence_body]. rewrite D, Hw'.
    now rewrite (decimal_not_terminator _ D). }
  destruct (negb (terminator c)) eqn:T.
  - destruct (K (Cursor (c :: before z) rest)) as [e'|] eqn:Ek.
    + intros [= <-]. now apply One.
    + exact Two.
  - exact Two.
Qed.

Lemma upper_is_word c : is_upper c = true -> is_word c = true.
Proof.
  unfold is_upper, is_word, is_ascii_letter, between. intros H.
  pose proof H as H'. apply andb_true_iff in H'. rewrite !N.leb_le in H'.
  replace (c <? 128)%N with true by (symmetry; apply N.ltb_lt; lia).
  unfold between in H. rewrite H. now rewrite orb_true_r.
Qed.

(** A match of the sentence pattern: an uppercase letter not preceded by a
    word character, the inside, and a character that ends the sentence. *)
Lemma match_sentence z e :
  match_at re_sentences z = Some e ->
  exists c body t rest,
    after z = c :: body ++ t :: rest
    /\ is_upper c = true /\ sentence_body body = true /\ terminator t = true
    /\ e = advance z (c :: body ++ [t]) rest
    /\ word_before z = false.
Proof.
  unfold match_at, re_sentences, OneOf.
  set (unit := Alt (NoneOf (chars ".!?")) (Cat (Lit (ord ".")) (Class is_decimal))).
  cbn [run].
  destruct (at_boundary z) eqn:Bz; [|discriminate].
  destruct (after z) as [|c rest] eqn:Ez; [discriminate|].
  unfold in_set at 1. cbn [existsb in_item].
  change (ord "A") with 65%N. change (ord "Z") with 90%N.
  rewrite orb_false_r. fold (is_upper c).
  destruct (is_upper c) eqn:Uc; [|discriminate].
  intros H.
  apply (@star_sound (run unit) (fun w => sentence_body w = true) eq_refl
           run_sentence_unit) in H.
  destruct H as (w & rest' & H1 & H2 & H3). cbn [after] in H1.
  unfold advance in H3. cbn [before after] in H3.
  destruct rest' as [|t rest'']; [discriminate|].
  rewrite in_terminators in H3.
  destruct (terminator t) eqn:T; [|discriminate].
  injection H3 as <-.
  exists c, w, t, rest''. subst rest. repeat split; auto.
  - unfold advance. cbn [before rev]. rewrite rev_app_distr.
    cbn [rev app]. now rewrite <- !app_assoc.
  - unfold at_boundary, word_after in Bz. rewrite Ez in Bz.
    rewrite (upper_is_word _ Uc) in Bz. now destruct (word_before z).
Qed.

(** X4.  Every sentence of [identify_sentences] is a piece of the text
    that starts with an uppercase ASCII letter not preceded by a word
    character and ends with a period, an exclamation mark or a question
    mark; in between, the only such character it may hold is a period
    directly followed by a decimal digit. *)
Theorem identify_sentences_shape text w :
  In w (identify_sentences text) ->
  exists pre post c body t,
    text = pre ++ w ++ post
    /\ w = c :: body ++ [t]
    /\ is_upper c = true
    /\ sentence_body body = true
    /\ terminator t = true
    /\ (pre = [] \/ exists pre' p, pre = pre' ++ [p] /\ is_word p = false).
Proof.
  intros H. apply scan_In in H. destruct H as (a & b & e & Ht & Hm & Hw).
  apply match_sentence in Hm.
  destruct Hm as (c & body & t & rest & Hb & Uc & Hbody & T & He & Wb).
  cbn [after] in Hb. subst e.
  rewrite (@span_advance (Cursor (rev a ++ []) b) (c :: body ++ [t]) rest) in Hw
    by (cbn [after app]; now rewrite <- app_assoc).
  exists a, rest, c, body, t. repeat split; auto.
  - rewrite Ht, Hb, Hw. cbn [app]. now rewrite <- app_assoc.
  - unfold word_before in Wb. cbn [before] in Wb. rewrite app_nil_r in Wb.
    destruct (rev a) as [|x l] eqn:Ea.
    + left. rewrite <- (rev_involutive a), Ea. reflexivity.
    + right. exists (rev l), x. split; [|exact Wb].
      rewrite <- (rev_involutive a), Ea. reflexivity.
Qed.

(** A sentence needs an uppercase letter and an ending character. *)
Lemma sentence_needs text :
  identify_sentences text <> [] ->
  existsb is_upper text = true /\ existsb terminator text = true.
Proof.
  intros H. destruct (identify_sentences text) as [|w l] eqn:E; [easy|].
  assert (I : In w (identify_sentences text)) by (rewrite E; now left).
  apply scan_In in I. destruct I as (a & b & e & Ht & Hm & _).
  apply match_sentence in Hm.
  destruct Hm as (c & body & t & rest & Hb & Uc & _ & T & _ & _).
  cbn [after] in Hb. cbn [app] in Ht. rewrite Ht, Hb. split.
  - rewrite existsb_app. cbn [existsb]. rewrite Uc. now rewrite orb_true_r.
  - rewrite existsb_app. cbn [existsb]. rewrite existsb_app. cbn [existsb].
    rewrite T. now rewrite !orb_true_r.
Qed.

(** X5.  A text without an uppercase ASCII letter, or without any period,
    exclamation mark or question mark, has no sentence, and
    [calculate_fog] raises [ZeroDivisionError] on it. *)
Theorem calculate_fog_needs_sentence text :
  existsb is_upper text = false \/ existsb terminator text = false ->
  identify_sentences text = []
  /\ calculate_fog text = Raise ZeroDivisionError.
Proof.
  intros H.
  assert (E : identify_sentences text = []).
  { destruct (identify_sentences text) as [|w l] eqn:E; [reflexivity|].
    destruct (@sentence_needs text) as [H1 H2]; [now rewrite E|].
    destruct H; congruence. }
  split; [exact E|]. rewrite calculate_fog_cases. cbv zeta. now rewrite E.
Qed.

(** ** The matches of a scan, in order *)

Lemma pieces_app ws : forall a s, pieces ws s -> pieces ws (a ++ s).
Proof.
  destruct ws as [|w ws]; intros a s H; [exact I|].
  destruct H as (gap & s' & -> & H). exists (a ++ gap), s'.
  now rewrite <- app_assoc.
Qed.

Lemma scan_pieces r : forall rest prev skip,
  pieces (scan r prev rest skip) (skipn skip rest).
Proof.
  induction rest as [|c rest IH]; intros prev skip.
  - destruct skip; cbn [scan]; [|exact I].
    destruct (match_at r (Cursor prev [])) as [e|]; [|exact I].
    exists [], []. split; [|exact I]. unfold span. cbn [after].
    now rewrite firstn_nil.
  - destruct skip; cbn [scan skipn]; [|apply IH].
    destruct (match_at r (Cursor prev (c :: rest))) as [e|].
    + set (m := span (Cursor prev (c :: rest)) e).
      assert (Hm : c :: rest = m ++ skipn (length m) (c :: rest)).
      { unfold m, span. cbn [after].
        set (j := length (c :: rest) - length (after e)).
        rewrite length_firstn.
        destruct (Nat.le_ge_cases j (length (c :: rest))) as [L|L].
        - rewrite Nat.min_l by exact L. now rewrite firstn_skipn.
        - rewrite Nat.min_r by exact L.
          rewrite firstn_all2 by exact L. rewrite skipn_all.
          now rewrite app_nil_r. }
      exists [], (skipn (length m) (c :: rest)). split; [exact Hm|].
      specialize (IH (c :: prev) (Nat.pred (length m))).
      destruct (length m) as [|k]; [|exact IH].
      cbn [skipn Nat.pred] in *. now apply (pieces_app _ [c]).
    + specialize (IH (c :: prev) 0). now apply (pieces_app _ [c]).
Qed.

Lemma pieces_length k ws : forall s,
  pieces ws s -> Forall (fun w => k <= length w) ws ->
  k * length ws <= length s.
Proof.
  induction ws as [|w ws IH]; intros s H F; [simpl; lia|].
  destruct H as (gap & s' & -> & H). inversion F as [|? ? Hw F']; subst.
  specialize (IH s' H F'). rewrite !length_app. simpl. lia.
Qed.

(** X6.  The words that are found, and the sentences, lie in the text one
    after the other without overlap; so a text has at most as many words
    as characters and at most half as many sentences. *)
Theorem findall_in_order text :
  pieces (identify_words text) text
  /\ pieces (identify_sentences text) text
  /\ count_words text <= length text
  /\ 2 * count_sentences text <= length text.
Proof.
  assert (W : pieces (identify_words text) text)
    by apply (scan_pieces re_words text [] 0).
  assert (Ps : pieces (identify_sentences text) text)
    by apply (scan_pieces re_sentences text [] 0).
  repeat split; auto.
  - unfold count_words.
    replace (length (identify_words text))
      with (1 * length (identify_words text)) by lia.
    apply pieces_length; [exact W|]. apply Forall_forall. intros w Hw.
    apply scan_In in Hw. destruct Hw as (a & b & e & _ & Hm & Hs).
    apply match_words in Hm.
    destruct Hm as (w' & rest & Hne & Hb & _ & He & _).
    subst e. rewrite (@span_advance (Cursor (rev a ++ []) b) w' rest Hb) in Hs.
    subst w'. destruct w; [easy|simpl; lia].
  - unfold count_sentences. apply pieces_length; [exact Ps|].
    apply Forall_forall. intros w Hw.
    apply scan_In in Hw. destruct Hw as (a & b & e & _ & Hm & Hs).
    apply match_sentence in Hm.
    destruct Hm as (c & body & t & rest & Hb & _ & _ & _ & He & _).
    subst e.
    rewrite (@span_advance (Cursor (rev a ++ []) b) (c :: body ++ [t]) rest) in Hs
      by (cbn [after app] in *; rewrite Hb; now rewrite <- app_assoc).
    subst w. simpl. rewrite length_app. simpl. lia.
Qed.


(** ** Words on plain text *)

Lemma run_Cat r1 r2 z k : run (Cat r1 r2) z k = run r1 z (fun z' => run r2 z' k).
Proof. reflexivity. Qed.

Lemma run_WordBoundary z k :
  run WordBoundary z k = if at_boundary z then k z else None.
Proof. reflexivity. Qed.

Lemma run_Star g r z k :
  run (Star g r) z k = star_loop (run r) g (S (length (after z))) z k.
Proof. reflexivity. Qed.

Lemma letter_is_word c : is_ascii_letter c = true -> is_word c = true.
Proof.
  unfold is_word. intros H. rewrite H.
  replace (c <? 128)%N with true; [reflexivity|].
  symmetry. apply N.ltb_lt. unfold is_ascii_letter, between in H.
  rewrite orb_true_iff, !andb_true_iff, !N.leb_le in H. lia.
Qed.

Lemma letter_word_char c : is_ascii_letter c = true -> word_char c = true.
Proof. unfold word_char. now intros ->. Qed.

Lemma separator_spec c :
  separator c = true -> is_word c = false /\ word_char c = false.
Proof.
  unfold separator. intros H. apply andb_true_iff in H.
  destruct H as [H1 H2]. now apply negb_true_iff in H1, H2.
Qed.

(** The pattern of words matches nowhere before a character that belongs
    to no word, nor at the end of the text. *)
Lemma match_words_none prev rest :
  match rest with [] => True | c :: _ => word_char c = false end ->
  match_at re_words (Cursor prev rest) = None.
Proof.
  intros H. unfold match_at, re_words, Plus, OneOf.
  rewrite run_Cat, run_WordBoundary.
  destruct (at_boundary (Cursor prev rest)); [|reflexivity].
  rewrite !run_Cat, run_Class. cbn [after].
  destruct rest as [|c r]; [reflexivity|]. now rewrite in_word_chars, H.
Qed.

Lemma rev_head (p : char -> bool) l prev :
  l <> [] -> forallb p l = true ->
  exists x l', rev l ++ prev = x :: l' /\ p x = true.
Proof.
  intros Hne Hl. destruct (exists_last Hne) as (l0 & x & ->).
  rewrite rev_app_distr. simpl. exists x, (rev l0 ++ prev). split; [reflexivity|].
  rewrite forallb_app in Hl. apply andb_true_iff in Hl. destruct Hl as [_ Hx].
  simpl in Hx. now rewrite andb_true_r in Hx.
Qed.

Lemma forallb_impl {A} (p q : A -> bool) l :
  (forall x, p x = true -> q x = true) ->
  forallb p l = true -> forallb q l = true.
Proof.
  intros H. induction l as [|x l IH]; simpl; [reflexivity|].
  intros E. apply andb_true_iff in E. destruct E as [E1 E2].
  now rewrite (H _ E1), (IH E2).
Qed.

(** A run of letters between two separators, or the ends of the text, is
    matched whole. *)
Lemma match_words_run prev w rest :
  match prev with c :: _ => is_word c | [] => false end = false ->
  w <> [] -> forallb is_ascii_letter w = true ->
  match rest with [] => True | d :: _ => separator d = true end ->
  match_at re_words (Cursor prev (w ++ rest))
  = Some (Cursor (rev w ++ prev) rest).
Proof.
  intros Hp Hne Hw Hr. destruct w as [|c w]; [easy|].
  pose proof Hw as Hcw. simpl in Hw. apply andb_true_iff in Hw.
  destruct Hw as [Hc Hw].
  unfold match_at, re_words, Plus, OneOf.
  rewrite run_Cat, run_WordBoundary.
  assert (B : at_boundary (Cursor prev ((c :: w) ++ rest)) = true).
  { unfold at_boundary, word_before, word_after. cbn [before after app].
    now rewrite Hp, (letter_is_word _ Hc). }
  rewrite B. rewrite !run_Cat, run_Class. cbn [after app before].
  rewrite in_word_chars, (letter_word_char _ Hc). rewrite run_Star.
  cbn [after].
  apply star_class_greedy with (w := w) (rest := rest).
  - reflexivity.
  - apply (forallb_impl is_ascii_letter); [|exact Hw].
    intros x Hx. now rewrite in_word_chars, (letter_word_char _ Hx).
  - destruct rest as [|d rest']; [exact I|].
    rewrite in_word_chars. now apply separator_spec.
  - rewrite length_app. lia.
  - rewrite run_WordBoundary.
    assert (E : advance (Cursor (c :: prev) (w ++ rest)) w rest
                = Cursor (rev (c :: w) ++ prev) rest).
    { unfold advance. cbn [before rev]. now rewrite <- app_assoc. }
    rewrite E.
    assert (B' : at_boundary (Cursor (rev (c :: w) ++ prev) rest) = true).
    { unfold at_boundary, word_before, word_after. cbn [before after].
      destruct (@rev_head is_ascii_letter (c :: w) prev Hne Hcw)
        as (x & l' & -> & Hx).
      rewrite (letter_is_word _ Hx).
      destruct rest as [|d rest']; [reflexivity|].
      now rewrite (proj1 (separator_spec _ Hr)). }
    now rewrite B'.
Qed.

Lemma letters_span (p : char -> bool) : forall s,
  exists w rest,
    s = w ++ rest /\ forallb p w = true
    /\ match rest with [] => True | d :: _ => p d = false end.
Proof.
  induction s as [|c s (w & rest & -> & Hw & Hr)].
  - now exists [], [].
  - destruct (p c) eqn:Pc.
    + exists (c :: w), rest. simpl. now rewrite Pc, Hw.
    + exists [], (c :: w ++ rest). now simpl.
Qed.

Lemma runs_from_run p : forall w cur rest,
  forallb p w = true ->
  runs_from p cur (w ++ rest) = runs_from p (rev w ++ cur) rest.
Proof.
  induction w as [|c w IH]; intros cur rest H; [reflexivity|].
  simpl in H. apply andb_true_iff in H. destruct H as [Hc Hw].
  cbn [app runs_from]. rewrite Hc, (IH _ _ Hw). simpl.
  now rewrite <- app_assoc.
Qed.

Lemma runs_from_flush p cur rest :
  cur <> [] ->
  match rest with [] => True | d :: _ => p d = false end ->
  runs_from p cur rest = rev cur :: runs_from p [] (tl rest).
Proof.
  intros Hc Hr. destruct cur as [|x cur]; [easy|].
  destruct rest as [|d rest]; [reflexivity|]. cbn [runs_from tl].
  now rewrite Hr.
Qed.

(** On plain text the scan for words yields the runs of letters. *)
Lemma scan_words_runs : forall n rest prev,
  length rest <= n ->
  forallb (fun c => is_ascii_letter c || separator c) rest = true ->
  match prev with c :: _ => is_word c | [] => false end = false
  \/ match rest with [] => True | c :: _ => is_ascii_letter c = false end ->
  scan re_words prev rest 0 = runs_from is_ascii_letter [] rest.
Proof.
  induction n as [|n IH]; intros rest prev Hn Hp Hs.
  - destruct rest; [|simpl in Hn; lia]. cbn [scan].
    now rewrite match_words_none.
  - destruct rest as [|c r].
    { cbn [scan]. now rewrite match_words_none. }
    simpl in Hn. cbn [forallb] in Hp. apply andb_true_iff in Hp.
    destruct Hp as [Hc Hr].
    destruct (is_ascii_letter c) eqn:Lc.
    + destruct Hs as [Hs|Hs]; [|discriminate Hs].
      destruct (letters_span is_ascii_letter r) as (w & rest' & -> & Hw & Hd).
      assert (Hcw : forallb is_ascii_letter (c :: w) = true)
        by (simpl; now rewrite Lc, Hw).
      rewrite forallb_app in Hr. apply andb_true_iff in Hr.
      destruct Hr as [_ Hr'].
      assert (Hsep : match rest' with
                     | [] => True
                     | d :: _ => separator d = true
                     end).
      { destruct rest' as [|d r'']; [exact I|]. simpl in Hr'.
        apply andb_true_iff in Hr'. destruct Hr' as [Hd' _].
        now rewrite Hd in Hd'. }
      cbn [scan].
      change (c :: w ++ rest') with ((c :: w) ++ rest').
      rewrite (@match_words_run prev (c :: w) rest' Hs) by (auto; easy).
      assert (E : span (Cursor prev ((c :: w) ++ rest'))
                       (Cursor (rev (c :: w) ++ prev) rest') = c :: w).
      { apply (@span_advance (Cursor prev ((c :: w) ++ rest')) (c :: w) rest').
        reflexivity. }
      rewrite E. cbn [app length Nat.pred]. rewrite scan_skip.
      cbn [runs_from]. rewrite Lc. rewrite runs_from_run by exact Hw.
      rewrite runs_from_flush
        by (try exact Hd; intros Er; now apply app_cons_not_nil in Er
                                       || (symmetry in Er;
                                           now apply app_cons_not_nil in Er)).
      rewrite rev_app_distr, rev_involutive. cbn [rev app]. f_equal.
      destruct rest' as [|d r''].
      * cbn [scan tl]. now rewrite match_words_none.
      * cbn [scan tl]. rewrite match_words_none
          by (now apply separator_spec).
        apply IH.
        -- rewrite length_app in Hn. simpl in Hn. lia.
        -- simpl in Hr'. apply andb_true_iff in Hr'. now destruct Hr'.
        -- left. now apply separator_spec.
    + cbn [orb] in Hc. cbn [scan]. rewrite match_words_none
        by (now apply separator_spec).
      cbn [runs_from]. rewrite Lc. apply IH; [lia|exact Hr|].
      left. now apply separator_spec.
Qed.

(** X7.  On a text made only of ASCII letters and of separators
    (characters that are neither word characters nor apostrophes nor
    hyphens: blanks, newlines, punctuation), [identify_words] returns
    exactly the maximal runs of letters, in order. *)
Theorem identify_words_plain text :
  forallb (fun c => is_ascii_letter c || separator c) text = true ->
  identify_words text = runs is_ascii_letter text.
Proof.
  intros H. apply (@scan_words_runs (length text)); auto.
Qed.

End ScannerFacts.

(** ** The scans, without regular expressions *)
Section DirectRules.
Context {U : Unicode}.
Import Re Fog.

Lemma run_sentence_unit_eq z K :
  run (Alt (NoneOf (chars ".!?")) (Cat (Lit (ord ".")) (Class is_decimal))) z K
  = match (match after z with
           | c :: rest =>
               if negb (terminator c) then K (Cursor (c :: before z) rest)
               else None
           | [] => None
           end) with
    | Some e => Some e
    | None =>
        match after z with
        | c :: rest =>
            if (46 =? c)%N
            then match rest with
                 | d :: rest' =>
                     if is_decimal d
                     then K (Cursor (d :: c :: before z) rest') else None
                 | [] => None
                 end
            else None
        | [] => None
        end
    end.
Proof.
  unfold NoneOf, Lit. cbn [run]. change (ord ".") with 46%N.
  destruct (after z) as [|c rest]; [reflexivity|].
  now rewrite in_terminators.
Qed.

Lemma sentence_rest_le : forall n s m,
  length s <= n -> sentence_rest s = Some m -> 1 <= m <= length s.
Proof.
  induction n as [|n IH]; intros s m L H.
  - destruct s; [discriminate H|simpl in L; lia].
  - destruct s as [|c s']; [discriminate H|]. cbn [sentence_rest] in H.
    simpl in L. destruct (terminator c).
    + destruct s' as [|d s'']; [injection H as <-; simpl; lia|].
      destruct ((c =? 46)%N && is_decimal d);
        [|injection H as <-; simpl; lia].
      destruct (sentence_rest s'') as [m'|] eqn:E;
        injection H as <-; [|simpl; lia].
      apply IH in E; [simpl; lia|simpl in L; lia].
    + destruct (sentence_rest s') as [m'|] eqn:E; [|discriminate H].
      injection H as <-. apply IH in E; [simpl; lia|lia].
Qed.

(** The star of the sentence pattern and the character after it, said
    directly. *)
Lemma star_sentence_rest : forall n s prev,
  length s < n ->
  star_loop
    (run (Alt (NoneOf (chars ".!?")) (Cat (Lit (ord ".")) (Class is_decimal))))
    true n (Cursor prev s)
    (fun z' => run (OneOf (chars ".!?")) z' Some)
  = option_map (fun m => Cursor (rev (firstn m s) ++ prev) (skipn m s))
      (sentence_rest s).
Proof.
  induction n as [|n IH]; intros s prev L; [lia|].
  cbn [star_loop]. rewrite run_sentence_unit_eq. cbn [after before].
  unfold OneOf. rewrite run_Class. cbn [after before].
  destruct s as [|c s']; [reflexivity|].
  rewrite in_terminators. cbn [sentence_rest]. simpl in L.
  destruct (terminator c) eqn:T; cbn [negb].
  - (* a character that may end the sentence *)
    destruct (N.eqb_spec 46 c) as [<-|Hc].
    + destruct s' as [|d s'']; [reflexivity|].
      cbn [andb N.eqb Pos.eqb].
      destruct (is_decimal d) eqn:D; [|reflexivity].
      unfold shorter. cbn [after length].
      replace (length s'' <? S (S (length s''))) with true
        by (symmetry; apply Nat.ltb_lt; lia).
      rewrite IH by (simpl in L; lia).
      destruct (sentence_rest s'') as [m|]; cbn [option_map].
      * cbn [firstn skipn rev]. now rewrite <- !app_assoc.
      * reflexivity.
    + replace (c =? 46)%N with false
        by (symmetry; apply N.eqb_neq; congruence).
      cbn [andb]. now destruct s'.
  - (* any other character *)
    unfold shorter. cbn [after length].
    replace (length s' <? S (length s')) with true
      by (symmetry; apply Nat.ltb_lt; lia).
    rewrite IH by lia.
    destruct (sentence_rest s') as [m|]; cbn [option_map].
    + cbn [firstn skipn rev]. now rewrite <- app_assoc.
    + destruct (N.eqb_spec 46 c) as [<-|Hc]; [discriminate T|reflexivity].
Qed.

(** The match of the sentence pattern at a position, said directly. *)
Lemma match_at_sentence prev s :
  match_at re_sentences (Cursor prev s) =
  match s with
  | [] => None
  | c :: r =>
      if negb (word_before (Cursor prev s)) && is_upper c then
        option_map (fun m => Cursor (rev (firstn (S m) s) ++ prev) (skipn (S m) s))
          (sentence_rest r)
      else None
  end.
Proof.
  unfold match_at, re_sentences.
  rewrite run_Cat, run_WordBoundary.
  destruct s as [|c r].
  { destruct (at_boundary _); [|reflexivity].
    unfold OneOf. now rewrite run_Cat, run_Class. }
  assert (B : (if at_boundary (Cursor prev (c :: r)) then is_upper c else false)
              = negb (word_before (Cursor prev (c :: r))) && is_upper c).
  { unfold at_boundary, word_after. cbn [after].
    destruct (is_upper c) eqn:Uc.
    - rewrite (upper_is_word _ Uc). now destruct (word_before _).
    - now rewrite andb_false_r, Tauto.if_same. }
  unfold OneOf at 1. rewrite run_Cat, run_Class. cbn [after before].
  unfold in_set at 1. cbn [existsb in_item].
  change (ord "A") with 65%N. change (ord "Z") with 90%N.
  rewrite orb_false_r. fold (is_upper c). rewrite <- B.
  destruct (at_boundary (Cursor prev (c :: r))); [|reflexivity].
  destruct (is_upper c); [|reflexivity].
  rewrite run_Cat, run_Star. cbn [after].
  rewrite star_sentence_rest by lia.
  destruct (sentence_rest r) as [m|]; cbn [option_map]; [|reflexivity].
  cbn [firstn skipn rev]. now rewrite <- app_assoc.
Qed.

Lemma scan_sentences_from : forall s prev skip,
  scan re_sentences prev s skip
  = sentences_from (word_before (Cursor prev s)) s skip.
Proof.
  induction s as [|c s' IH]; intros prev skip.
  - destruct skip; cbn [scan sentences_from]; [|reflexivity].
    now rewrite match_at_sentence.
  - assert (W : forall k, scan re_sentences (c :: prev) s' k
                          = sentences_from (is_word c) s' k).
    { intros k. rewrite IH. reflexivity. }
    destruct skip; cbn [scan sentences_from]; [|apply W].
    rewrite match_at_sentence.
    change (word_before (Cursor prev (c :: s')))
      with (match prev with x :: _ => is_word x | [] => false end).
    destruct (negb _ && is_upper c); [|apply W].
    destruct (sentence_rest s') as [m|] eqn:E; cbn [option_map]; [|apply W].
    destruct (@sentence_rest_le (length s') s' m (le_n _) E) as [M1 M2].
    assert (Sp : span (Cursor prev (c :: s'))
                   (Cursor (rev (firstn (S m) (c :: s')) ++ prev)
                           (skipn (S m) (c :: s')))
                 = firstn (S m) (c :: s')).
    { unfold span. cbn [after]. rewrite length_skipn. cbn [length].
      f_equal. lia. }
    rewrite Sp. rewrite length_firstn. cbn [length].
    rewrite Nat.min_l by lia. cbn [Nat.pred]. now rewrite W.
Qed.

(** X20.  [identify_sentences] is this reading of the text from left to
    right: a sentence starts at an uppercase ASCII letter that does not
    follow a word character; it runs to the first period, exclamation mark
    or question mark that is not a period before a decimal digit, or, when
    the text ends before one is met, back to the last period before a
    digit that was passed (no sentence starts there when there is none);
    reading resumes after the sentence. *)
Theorem identify_sentences_rule text :
  identify_sentences text = sentences_from false text 0.
Proof. apply (scan_sentences_from text [] 0). Qed.


(** ** Sentences, piece by piece *)

Lemma terminator_plain t :
  terminator t = true -> is_upper t = false /\ is_word t = false.
Proof.
  unfold terminator. rewrite !orb_true_iff, !N.eqb_eq.
  intros [[->| ->]| ->]; split; reflexivity.
Qed.

Lemma terminator_not_decimal t : terminator t = true -> is_decimal t = false.
Proof.
  intros T. destruct (is_decimal t) eqn:D; [|reflexivity].
  now rewrite (decimal_not_terminator _ D) in T.
Qed.

Lemma hard_stop_spec t b :
  hard_stop t b = true ->
  terminator t = true
  /\ (t =? 46)%N && match b with d :: _ => is_decimal d | [] => false end
     = false.
Proof.
  unfold hard_stop. intros H. apply andb_true_iff in H.
  destruct H as [H1 H2]. now apply negb_true_iff in H2.
Qed.

Lemma sentence_rest_app t b : forall n r,
  length r <= n -> hard_stop t b = true ->
  sentence_rest ((r ++ [t]) ++ b) = sentence_rest (r ++ [t]).
Proof.
  intros n r L H. destruct (hard_stop_spec _ _ H) as [T Hb].
  revert r L. induction n as [|n IH]; intros r L.
  - destruct r; [|simpl in L; lia]. cbn [app sentence_rest]. rewrite T.
    destruct b as [|d b']; [reflexivity|]. now rewrite Hb.
  - destruct r as [|c r'].
    { cbn [app sentence_rest]. rewrite T.
      destruct b as [|d b']; [reflexivity|]. now rewrite Hb. }
    simpl in L. cbn [app sentence_rest]. destruct (terminator c).
    + destruct r' as [|d r'']; cbn [app].
      * rewrite (terminator_not_decimal _ T). now rewrite andb_false_r.
      * destruct ((c =? 46)%N && is_decimal d); [|reflexivity].
        replace (r'' ++ t :: b) with ((r'' ++ [t]) ++ b)
          by (now rewrite <- app_assoc).
        rewrite IH by (simpl in L; lia). reflexivity.
    + now rewrite IH by lia.
Qed.

Lemma sentences_from_app t b :
  hard_stop t b = true ->
  forall r wb skip,
    skip <= length (r ++ [t]) ->
    sentences_from wb ((r ++ [t]) ++ b) skip
    = sentences_from wb (r ++ [t]) skip ++ sentences_from false b 0.
Proof.
  intros H. destruct (hard_stop_spec _ _ H) as [T _].
  destruct (terminator_plain _ T) as [Tu Tw].
  induction r as [|c r IH]; intros wb skip L.
  - cbn [app sentences_from]. rewrite Tu, Tw, andb_false_r.
    destruct skip as [|[|k]]; try reflexivity. simpl in L. lia.
  - cbn [app sentences_from]. simpl in L.
    destruct skip as [|k]; [|apply IH; lia].
    destruct (negb wb && is_upper c); [|apply IH; lia].
    rewrite (@sentence_rest_app t b (length r) r (le_n _) H).
    destruct (sentence_rest (r ++ [t])) as [m|] eqn:E; [|apply IH; lia].
    destruct (@sentence_rest_le (length (r ++ [t])) _ m (le_n _) E) as [M1 M2].
    rewrite IH by lia. cbn [app]. f_equal.
    cbn [firstn]. f_equal. rewrite firstn_app.
    replace (m - length (r ++ [t])) with 0 by lia.
    now rewrite firstn_O, app_nil_r.
Qed.

(** X21.  Sentence splitting works piece by piece: when a text is cut
    after an exclamation mark, a question mark, or a period that the next
    piece does not continue with a decimal digit, its sentences are the
    sentences of the first piece followed by those of the second. *)
Theorem identify_sentences_app a t b :
  hard_stop t b = true ->
  identify_sentences ((a ++ [t]) ++ b)
  = identify_sentences (a ++ [t]) ++ identify_sentences b.
Proof.
  intros H. unfold identify_sentences, findall, finditer.
  rewrite !scan_sentences_from. cbn [word_before before].
  apply sentences_from_app; [exact H|lia].
Qed.

(** ** Words *)

Lemma word_rest_le : forall s p n, word_rest p s = Some n -> n <= length s.
Proof.
  induction s as [|c s IH]; intros p n H; cbn [word_rest] in H.
  - destruct (xorb _ _); [injection H as <-; simpl; lia|discriminate H].
  - destruct (word_char c).
    + destruct (word_rest c s) as [n'|] eqn:E.
      * injection H as <-. apply IH in E. simpl. lia.
      * destruct (xorb _ _); [injection H as <-; simpl; lia|discriminate H].
    + destruct (xorb _ _); [injection H as <-; simpl; lia|discriminate H].
Qed.

(** The star of the word pattern and the boundary after it, said
    directly. *)
Lemma star_word_rest : forall n s p prev,
  length s < n ->
  star_loop (run (Class (in_set word_chars))) true n (Cursor (p :: prev) s)
    (fun z' => run WordBoundary z' Some)
  = option_map (fun m => Cursor (rev (firstn m s) ++ p :: prev) (skipn m s))
      (word_rest p s).
Proof.
  induction n as [|n IH]; intros s p prev L; [lia|].
  cbn [star_loop]. rewrite run_Class, run_WordBoundary. cbn [after before].
  unfold at_boundary, word_before, word_after. cbn [after before].
  destruct s as [|c s']; cbn [word_rest].
  - now destruct (xorb (is_word p) false).
  - rewrite in_word_chars. simpl in L. destruct (word_char c).
    + unfold shorter. cbn [after length].
      replace (length s' <? S (length s')) with true
        by (symmetry; apply Nat.ltb_lt; lia).
      rewrite IH by lia.
      destruct (word_rest c s') as [m|]; cbn [option_map].
      * cbn [firstn skipn rev]. now rewrite <- app_assoc.
      * now destruct (xorb (is_word p) (is_word c)).
    + now destruct (xorb (is_word p) (is_word c)).
Qed.

(** The match of the word pattern at a position, said directly. *)
Lemma match_at_word prev s :
  match_at re_words (Cursor prev s) =
  match s with
  | [] => None
  | c :: r =>
      if xorb (word_before (Cursor prev s)) (is_word c) && word_char c then
        option_map (fun m => Cursor (rev (firstn (S m) s) ++ prev) (skipn (S m) s))
          (word_rest c r)
      else None
  end.
Proof.
  unfold match_at, re_words, Plus, OneOf.
  rewrite run_Cat, run_WordBoundary. unfold at_boundary at 1, word_after.
  cbn [after].
  destruct s as [|c r].
  { destruct (xorb _ _); [|reflexivity]. now rewrite !run_Cat, run_Class. }
  destruct (xorb (word_before (Cursor prev (c :: r))) (is_word c));
    [|reflexivity].
  rewrite !run_Cat, run_Class. cbn [after before andb].
  rewrite in_word_chars. destruct (word_char c); [|reflexivity].
  rewrite run_Star. cbn [after]. rewrite star_word_rest by lia.
  destruct (word_rest c r) as [m|]; cbn [option_map]; [|reflexivity].
  cbn [firstn skipn rev]. now rewrite <- app_assoc.
Qed.

Lemma scan_words_from : forall s prev skip,
  scan re_words prev s skip = words_from (word_before (Cursor prev s)) s skip.
Proof.
  induction s as [|c s' IH]; intros prev skip.
  - destruct skip; cbn [scan words_from]; [|reflexivity].
    now rewrite match_at_word.
  - assert (W : forall k, scan re_words (c :: prev) s' k
                          = words_from (is_word c) s' k).
    { intros k. rewrite IH. reflexivity. }
    destruct skip; cbn [scan words_from]; [|apply W].
    rewrite match_at_word.
    change (word_before (Cursor prev (c :: s')))
      with (match prev with x :: _ => is_word x | [] => false end).
    destruct (xorb _ (is_word c) && word_char c); [|apply W].
    destruct (word_rest c s') as [m|] eqn:E; cbn [option_map]; [|apply W].
    pose proof (word_rest_le _ _ E) as M.
    assert (Sp : span (Cursor prev (c :: s'))
                   (Cursor (rev (firstn (S m) (c :: s')) ++ prev)
                           (skipn (S m) (c :: s')))
                 = firstn (S m) (c :: s')).
    { unfold span. cbn [after]. rewrite length_skipn. cbn [length].
      f_equal. lia. }
    rewrite Sp. rewrite length_firstn. cbn [length].
    rewrite Nat.min_l by lia. cbn [Nat.pred]. now rewrite W.
Qed.

(** X22.  [identify_words] is this reading of the text from left to
    right: a word starts at a word boundary before a letter, an apostrophe
    or a hyphen; it runs over the letters, apostrophes and hyphens that
    follow up to the last place among them that is a word boundary (no
    word starts there when there is none); reading resumes after the
    word. *)
Theorem identify_words_rule text :
  identify_words text = words_from false text 0.
Proof. apply (scan_words_from text [] 0). Qed.

Lemma word_rest_app sep b :
  separator sep = true ->
  forall r p, word_rest p (r ++ sep :: b) = word_rest p r.
Proof.
  intros H. destruct (separator_spec _ H) as [Hw Hc].
  induction r as [|c r IH]; intros p; cbn [app word_rest].
  - now rewrite Hw, Hc.
  - now rewrite IH.
Qed.

Lemma words_from_app sep b :
  separator sep = true ->
  forall r wb skip,
    skip <= length r ->
    words_from wb (r ++ sep :: b) skip
    = words_from wb r skip ++ words_from false b 0.
Proof.
  intros H. destruct (separator_spec _ H) as [Hw Hc].
  induction r as [|c r IH]; intros wb skip L.
  - destruct skip; [|simpl in L; lia]. cbn [app words_from].
    now rewrite Hw, Hc, andb_false_r.
  - cbn [app words_from]. simpl in L.
    destruct skip as [|k]; [|apply IH; lia].
    destruct (xorb wb (is_word c) && word_char c); [|apply IH; lia].
    rewrite (@word_rest_app sep b H).
    destruct (word_rest c r) as [m|] eqn:E; [|apply IH; lia].
    pose proof (word_rest_le _ _ E) as M.
    rewrite IH by lia. cbn [app]. f_equal.
    cbn [firstn]. f_equal. rewrite firstn_app.
    replace (m - length r) with 0 by lia.
    now rewrite firstn_O, app_nil_r.
Qed.

(** X23.  Word splitting works piece by piece: the words of two texts
    joined by a separator character are the words of the first followed
    by the words of the second, and the word counts add up. *)
Theorem identify_words_app a sep b :
  separator sep = true ->
  identify_words (a ++ sep :: b) = identify_words a ++ identify_words b
  /\ count_words (a ++ sep :: b) = count_words a + count_words b.
Proof.
  intros H.
  assert (E : identify_words (a ++ sep :: b)
              = identify_words a ++ identify_words b).
  { unfold identify_words, findall, finditer.
    rewrite !scan_words_from. cbn [word_before before].
    apply words_from_app; [exact H|lia]. }
  split; [exact E|]. unfold count_words. now rewrite E, length_app.
Qed.

End DirectRules.

(** * Further properties of the extractors *)
Section ExtractorCases.
Context {U : Unicode} {L : Lxml}.

(** ** years *)

Lemma digit_range n : (n <= 9)%N -> is_ascii_digit (digit n) = true.
Proof.
  intros H. unfold is_ascii_digit, digit, between.
  apply andb_true_iff. rewrite !N.leb_le. lia.
Qed.

Lemma drop_zeros_digits : forall s,
  s <> [] -> forallb is_ascii_digit s = true ->
  1 <= length (drop_zeros s) <= length s
  /\ forallb is_ascii_digit (drop_zeros s) = true.
Proof.
  induction s as [|c s IH]; intros Hne H; [easy|].
  destruct s as [|c' s'].
  - simpl. split; [lia|exact H].
  - cbn [drop_zeros]. destruct (c =? 48)%N.
    + cbn [forallb] in H. apply andb_true_iff in H. destruct H as [_ H].
      destruct (IH ltac:(easy) H) as [[I1 I2] I3]. split; [|exact I3].
      simpl length in *. lia.
    + split; [simpl; lia|exact H].
Qed.

(** The year of a date that exists is written with one to four digits. *)
Lemma strftime_Y_digits d :
  valid_date d = true ->
  1 <= length (strftime_Y d) <= 4
  /\ forallb is_ascii_digit (strftime_Y d) = true.
Proof.
  intros V. unfold strftime_Y.
  assert (Y : (year d <= 9999)%N).
  { unfold valid_date in V. rewrite !andb_true_iff, !N.leb_le in V. lia. }
  assert (Q : (year d / 1000 <= 9)%N).
  { apply N.lt_succ_r, N.Div0.div_lt_upper_bound; lia. }
  pose proof (N.mod_lt (year d / 100) 10) as M1.
  pose proof (N.mod_lt (year d / 10) 10) as M2.
  pose proof (N.mod_lt (year d) 10) as M3.
  apply drop_zeros_digits; [easy|].
  cbn [forallb]. rewrite !digit_range by lia. reflexivity.
Qed.

(** ** strptime *)

Lemma orelse_Some {A} (a : option A) b r :
  orelse a b = Some r -> a = Some r \/ b tt = Some r.
Proof. unfold orelse. destruct a; auto. Qed.

Lemma head_49 {A} (F : char -> str -> option A) s r :
  match s with 49%N :: c :: t => F c t | _ => None end = Some r ->
  exists c t, s = 49%N :: c :: t /\ F c t = Some r.
Proof. intros H. literal_head H. eauto. Qed.

Lemma head_48 {A} (F : char -> str -> option A) s r :
  match s with 48%N :: c :: t => F c t | _ => None end = Some r ->
  exists c t, s = 48%N :: c :: t /\ F c t = Some r.
Proof. intros H. literal_head H. eauto. Qed.

Lemma head_51 {A} (F : char -> str -> option A) s r :
  match s with 51%N :: c :: t => F c t | _ => None end = Some r ->
  exists c t, s = 51%N :: c :: t /\ F c t = Some r.
Proof. intros H. literal_head H. eauto. Qed.

Lemma head_32 {A} (F : char -> str -> option A) s r :
  match s with 32%N :: c :: t => F c t | _ => None end = Some r ->
  exists c t, s = 32%N :: c :: t /\ F c t = Some r.
Proof. intros H. literal_head H. eauto. Qed.

Lemma head_47 {A} (F : str -> option A) s r :
  match s with 47%N :: t => F t | _ => None end = Some r ->
  exists t, s = 47%N :: t /\ F t = Some r.
Proof. intros H. literal_head H. eauto. Qed.

(** Each directive hands a suffix of its input to the rest of the
    format. *)
Lemma directive_m_suffix {A} s (k : N -> str -> option A) r :
  directive_m s k = Some r ->
  exists front m s', s = front ++ s' /\ k m s' = Some r.
Proof.
  unfold directive_m. intros H.
  apply orelse_Some in H. destruct H as [H|H];
    [|apply orelse_Some in H; destruct H as [H|H]].
  - apply head_49 in H. destruct H as (c & t & -> & H).
    destruct (between 48 50 c); [|discriminate].
    now exists [49%N; c], (10 + (c - 48))%N, t.
  - apply head_48 in H. destruct H as (c & t & -> & H).
    destruct (between 49 57 c); [|discriminate].
    now exists [48%N; c], (c - 48)%N, t.
  - destruct s as [|c t]; [discriminate|].
    destruct (between 49 57 c); [|discriminate].
    now exists [c], (c - 48)%N, t.
Qed.

Lemma directive_d_suffix {A} s (k : N -> str -> option A) r :
  directive_d s k = Some r ->
  exists front m s', s = front ++ s' /\ k m s' = Some r.
Proof.
  unfold directive_d. intros H.
  apply orelse_Some in H. destruct H as [H|H];
    [|apply orelse_Some in H; destruct H as [H|H];
      [|apply orelse_Some in H; destruct H as [H|H];
        [|apply orelse_Some in H; destruct H as [H|H]]]].
  - apply head_51 in H. destruct H as (c & t & -> & H).
    destruct (between 48 49 c); [|discriminate].
    now exists [51%N; c], (30 + (c - 48))%N, t.
  - destruct s as [|a [|c t]]; try discriminate.
    destruct (between 49 50 a); [|discriminate].
    destruct (decimal_value c) as [v|]; [|discriminate].
    now exists [a; c], (10 * (a - 48) + v)%N, t.
  - apply head_48 in H. destruct H as (c & t & -> & H).
    destruct (between 49 57 c); [|discriminate].
    now exists [48%N; c], (c - 48)%N, t.
  - destruct s as [|c t]; [discriminate|].
    destruct (between 49 57 c); [|discriminate].
    now exists [c], (c - 48)%N, t.
  - apply head_32 in H. destruct H as (c & t & -> & H).
    destruct (between 49 57 c); [|discriminate].
    now exists [32%N; c], (c - 48)%N, t.
Qed.

Lemma slash_suffix {A} s (k : str -> option A) r :
  slash s k = Some r -> exists s', s = 47%N :: s' /\ k s' = Some r.
Proof. unfold slash. apply head_47. Qed.

(** A date string that parses ends in the four digits of its year. *)
Lemma strptime_year s d :
  strptime_mdY s = Ok d ->
  exists front a b c e va vb vc vd,
    s = front ++ [a; b; c; e]
    /\ decimal_value a = Some va /\ decimal_value b = Some vb
    /\ decimal_value c = Some vc /\ decimal_value e = Some vd
    /\ year d = (1000 * va + 100 * vb + 10 * vc + vd)%N.
Proof.
  unfold strptime_mdY.
  destruct (directive_m _ _) as [[dt [|? ?]]|] eqn:E; try discriminate.
  destruct (valid_date dt); [|discriminate]. intros [= <-].
  apply directive_m_suffix in E. destruct E as (f1 & m & s1 & -> & E).
  apply slash_suffix in E. destruct E as (s2 & -> & E).
  apply directive_d_suffix in E. destruct E as (f3 & dd & s3 & -> & E).
  apply slash_suffix in E. destruct E as (s4 & -> & E).
  unfold directive_Y in E.
  destruct s4 as [|a [|b [|c [|e rest]]]]; try discriminate.
  destruct (decimal_value a) as [va|] eqn:Da; [|discriminate].
  destruct (decimal_value b) as [vb|] eqn:Db; [|discriminate].
  destruct (decimal_value c) as [vc|] eqn:Dc; [|discriminate].
  destruct (decimal_value e) as [vd|] eqn:De; [|discriminate].
  injection E as <- ->.
  exists (f1 ++ 47%N :: f3 ++ [47%N]), a, b, c, e, va, vb, vc, vd.
  repeat split; auto.
  rewrite <- !app_assoc. cbn [app]. now rewrite <- app_assoc.
Qed.

Lemma ascii_digit_value a :
  is_ascii_digit a = true ->
  decimal_value a = Some (a - 48)%N /\ (48 <= a <= 57)%N.
Proof.
  intros H. unfold decimal_value. rewrite H.
  unfold is_ascii_digit, between in H. apply andb_true_iff in H.
  rewrite !N.leb_le in H.
  replace (a <? 128)%N with true by (symmetry; apply N.ltb_lt; lia).
  now split.
Qed.

Lemma last_four_app front a b c e :
  last_four (front ++ [a; b; c; e]) = [a; b; c; e].
Proof.
  unfold last_four. rewrite length_app. cbn [length].
  replace (length front + 4 - 4) with (length front) by lia.
  rewrite skipn_app, skipn_all, Nat.sub_diag. reflexivity.
Qed.

(** The year of a parsed date, written out again, is the end of the date
    string without its leading zeros. *)
Lemma strftime_strptime s d :
  strptime_mdY s = Ok d ->
  forallb is_ascii_digit (last_four s) = true ->
  strftime_Y d = drop_zeros (last_four s).
Proof.
  intros H D. apply strptime_year in H.
  destruct H as (front & a & b & c & e & va & vb & vc & vd
                 & -> & Da & Db & Dc & De & Y).
  rewrite last_four_app in *. cbn [forallb] in D.
  rewrite !andb_true_iff in D. destruct D as (Ha & Hb & Hc & He & _).
  apply ascii_digit_value in Ha, Hb, Hc, He.
  destruct Ha as [Ea Ra], Hb as [Eb Rb], Hc as [Ec Rc], He as [Ee Re].
  rewrite Ea in Da. rewrite Eb in Db. rewrite Ec in Dc. rewrite Ee in De.
  injection Da as <-. injection Db as <-. injection Dc as <-.
  injection De as <-.
  unfold strftime_Y. rewrite Y.
  set (y := (1000 * (a - 48) + 100 * (b - 48) + 10 * (c - 48) + (e - 48))%N).
  assert (Q1 : (y / 1000 = a - 48)%N).
  { symmetry. apply N.div_unique with (r := (100 * (b - 48) + 10 * (c - 48) + (e - 48))%N);
      unfold y; lia. }
  assert (Q2 : (y / 100 = 10 * (a - 48) + (b - 48))%N).
  { symmetry. apply N.div_unique with (r := (10 * (c - 48) + (e - 48))%N);
      unfold y; lia. }
  assert (Q3 : (y / 10 = 100 * (a - 48) + 10 * (b - 48) + (c - 48))%N).
  { symmetry. apply N.div_unique with (r := (e - 48)%N); unfold y; lia. }
  assert (M2 : ((y / 100) mod 10 = b - 48)%N).
  { rewrite Q2. symmetry. apply N.mod_unique with (q := (a - 48)%N); lia. }
  assert (M3 : ((y / 10) mod 10 = c - 48)%N).
  { rewrite Q3. symmetry.
    apply N.mod_unique with (q := (10 * (a - 48) + (b - 48))%N); lia. }
  assert (M4 : (y mod 10 = e - 48)%N).
  { symmetry.
    apply N.mod_unique
      with (q := (100 * (a - 48) + 10 * (b - 48) + (c - 48))%N); unfold y; lia. }
  rewrite Q1, M2, M3, M4. unfold digit.
  replace (48 + (a - 48))%N with a by lia.
  replace (48 + (b - 48))%N with b by lia.
  replace (48 + (c - 48))%N with c by lia.
  replace (48 + (e - 48))%N with e by lia.
  reflexivity.
Qed.


(** ** The extractors *)

Lemma get_mdna_text_unfold c html :
  get_mdna_text c html =
  (r <- extract_mdna c html ;;
   match r with
   | None => Raise TypeError
   | Some (None, y) => Ok (None, y)
   | Some (Some fragment, y) =>
       mdna_text <- get_text_from_html c fragment ;;
       Ok (Some mdna_text, y)
   end).
Proof. destruct c; reflexivity. Qed.

Lemma extract_mdna_parser_error c html e :
  title_based c = true -> fromstring html = Raise e ->
  extract_mdna c html = Raise e.
Proof.
  intros Hc F. destruct c; try discriminate Hc; unfold extract_mdna;
    cbn [getattr mro first_defined bind];
    unfold AppleMDNA_extract_mdna, NetflixMDNA_extract_mdna,
      AmazonMDNA_extract_mdna, dated_container; now rewrite F.
Qed.

Lemma extract_after_ok c doc :
  c = AppleMDNA \/ c = FacebookMDNA ->
  _extract_mdna_after_2019 c doc = Ok (AppleMDNA__extract_mdna_after_2019 c doc)
  /\ _extract_mdna_before_2019 c doc
     = Ok (AppleMDNA__extract_mdna_before_2019 c doc).
Proof. intros [->| ->]; split; reflexivity. Qed.

(** What a title-based extractor returns on a dated document: a fragment
    or none, and the year of the date. *)
Lemma dated_extract c html doc d :
  title_based c = true -> fromstring html = Ok doc ->
  title_outcome_of doc = Dated d ->
  exists frag, extract_mdna c html = Ok (Some (frag, Some (strftime_Y d))).
Proof.
  intros Hc F Hd. pose proof (title_based_extract c html Hc F) as E.
  rewrite Hd in E. rewrite E.
  destruct c; try discriminate Hc; eauto.
  - destruct (@extract_after_ok AppleMDNA doc) as [-> ->]; [now left|].
    destruct (datetime_gt d cutoff); cbn [bind]; eauto.
  - destruct (@extract_after_ok FacebookMDNA doc) as [-> ->]; [now right|].
    destruct (datetime_gt d cutoff); cbn [bind]; eauto.
Qed.

(** X8.  For the extractors that read the filing title: when the title
    span or its text is absent, [get_mdna_text] raises [TypeError], for it
    unpacks the [None] of the bare [return] of [extract_mdna]. *)
Theorem get_mdna_text_no_title c html doc :
  title_based c = true -> fromstring html = Ok doc ->
  title_outcome_of doc = NoTitle ->
  get_mdna_text c html = Raise TypeError.
Proof.
  intros Hc F Ht. pose proof (title_based_extract c html Hc F) as E.
  rewrite Ht in E. rewrite get_mdna_text_unfold, E. reflexivity.
Qed.

(** X10.  Whenever [get_mdna_text] returns, the year is present for the
    extractors that read the filing title, and is the year of the date of
    the title, written with one to four decimal digits; for Issuer E
    (Google) it is absent. *)
Theorem get_mdna_text_year c html text y :
  get_mdna_text c html = Ok (text, y) ->
  (title_based c = true
   /\ exists doc d,
        fromstring html = Ok doc /\ title_outcome_of doc = Dated d
        /\ y = Some (strftime_Y d)
        /\ 1 <= length (strftime_Y d) <= 4
        /\ forallb is_ascii_digit (strftime_Y d) = true)
  \/ (c = GoogleMDNA /\ y = None).
Proof.
  rewrite get_mdna_text_unfold. intros H.
  destruct (title_based c) eqn:Hc.
  - left. split; [reflexivity|].
    destruct (fromstring html) as [doc|e] eqn:F.
    2:{ rewrite (extract_mdna_parser_error c html Hc F) in H. discriminate H. }
    pose proof (title_based_extract c html Hc F) as E.
    destruct (title_outcome_of doc) as [| | |d] eqn:Ht;
      try (rewrite E in H; discriminate H).
    destruct (dated_extract c html Hc F Ht) as (frag & E').
    rewrite E' in H. cbn [bind] in H.
    exists doc, d. repeat split; auto;
      try apply (strftime_Y_digits d (dated_valid _ Ht)).
    destruct frag as [f|].
    + destruct (get_text_from_html c f); cbn [bind] in H; congruence.
    + congruence.
  - right. destruct c; try discriminate Hc.
    + discriminate H.
    + split; [reflexivity|]. unfold extract_mdna in H.
      cbn [getattr mro first_defined bind] in H.
      unfold GoogleMDNA_extract_mdna in H.
      destruct html as [s|b]; [|discriminate H].
      destruct (Re.search mdan_cmp s) as [[? m]|]; cbn [bind] in H.
      * destruct (get_text_from_html GoogleMDNA (Str m)); cbn [bind] in H;
          congruence.
      * congruence.
Qed.

(** X11.  For the extractors that read the filing title: when the last
    token of the title ends in four ASCII digits and [extract_mdna]
    returns, the year it returns is these four characters without their
    leading zeros. *)
Theorem extract_mdna_year c html doc t0 ts t tok r :
  title_based c = true -> fromstring html = Ok doc ->
  filing_title doc = t0 :: ts -> text_of t0 = Some t ->
  last_token t = Ok tok ->
  forallb is_ascii_digit (last_four tok) = true ->
  extract_mdna c html = Ok r ->
  year_of r = Some (drop_zeros (last_four tok)).
Proof.
  intros Hc F Hf Ht Hl Hd H.
  assert (O : title_outcome_of doc
              = match strptime_mdY tok with
                | Ok d => Dated d
                | Raise _ => BadDate
                end).
  { unfold title_outcome_of. now rewrite Hf, Ht, Hl. }
  pose proof (title_based_extract c html Hc F) as E. rewrite O in E.
  destruct (strptime_mdY tok) as [d|e] eqn:P.
  - assert (O' : title_outcome_of doc = Dated d) by (rewrite O; reflexivity).
    destruct (dated_extract c html Hc F O') as (frag & E').
    rewrite E' in H. injection H as <-. cbn [year_of].
    now rewrite (strftime_strptime _ P Hd).
  - rewrite E in H. discriminate H.
Qed.

(** X12.  For Issuer A, and for Issuer C which inherits the method, on a
    document whose filing date is not after 2019-01-01, [extract_mdna]
    returns the serialized markup of the first division with a text among
    the child divisions of a division with the id
    "divSummary of Significant Accounting Policies", together with the
    year of the filing date, which is 2019 or earlier. *)
Theorem apple_extract_mdna_before_cutoff c html doc d divs_before div divs_after :
  c = AppleMDNA \/ c = FacebookMDNA ->
  fromstring html = Ok doc ->
  title_outcome_of doc = Dated d ->
  datetime_gt d cutoff = false ->
  xpath_child doc (u "div") (u "id") policies_id (u "div")
    = divs_before ++ div :: divs_after ->
  forallb (fun x => negb (has_text x)) divs_before = true ->
  has_text div = true ->
  extract_mdna c html
  = Ok (Some (Some (Bytes (tostring div)), Some (strftime_Y d)))
  /\ (year d <= 2019)%N.
Proof.
  intros Hc F Hd Hgt Hx Hb Hdiv. split.
  - assert (T : title_based c = true) by (destruct Hc as [->| ->]; reflexivity).
    pose proof (title_based_extract c html T F) as E.
    rewrite Hd in E. rewrite E.
    assert (E2 : _extract_mdna_before_2019 c doc
                 = Ok (Some (Bytes (tostring div)))).
    { rewrite (proj2 (extract_after_ok doc Hc)).
      unfold AppleMDNA__extract_mdna_before_2019.
      change (u "divSummary of Significant Accounting Policies") with policies_id.
      rewrite Hx.
      change (fun div0 => match text_of div0 with
                          | Some _ => true
                          | None => false
                          end) with has_text.
      now rewrite (@find_middle _ has_text divs_before div divs_after Hb Hdiv). }
    destruct Hc as [->| ->]; now rewrite Hgt, E2.
  - unfold datetime_gt, cutoff in Hgt. cbn [year month day] in Hgt.
    apply orb_false_iff in Hgt. destruct Hgt as [Hy _].
    apply N.ltb_ge in Hy. exact Hy.
Qed.

Lemma find_none_forallb {A} (p : A -> bool) l :
  forallb (fun x => negb (p x)) l = true -> find p l = None.
Proof.
  induction l as [|x l IH]; simpl; [reflexivity|]. intros H.
  apply andb_true_iff in H. destruct H as [Hx H].
  apply negb_true_iff in Hx. rewrite Hx. now apply IH.
Qed.

(** X13.  For Issuers A and C, on a dated document in which the search
    of the path taken finds nothing (no policy cell when the date is after
    2019-01-01, no child division with a text otherwise), [extract_mdna]
    returns no fragment and the year, and [get_mdna_text] returns no text
    and the year; neither raises. *)
Theorem apple_extract_mdna_not_found c html doc d :
  c = AppleMDNA \/ c = FacebookMDNA ->
  fromstring html = Ok doc ->
  title_outcome_of doc = Dated d ->
  (if datetime_gt d cutoff
   then forallb (fun x => negb (policy_cell x))
          (xpath_any doc (u "td") (u "class") (u "text"))
   else forallb (fun x => negb (has_text x))
          (xpath_child doc (u "div") (u "id") policies_id (u "div"))) = true ->
  extract_mdna c html = Ok (Some (None, Some (strftime_Y d)))
  /\ get_mdna_text c html = Ok (None, Some (strftime_Y d)).
Proof.
  intros Hc F Hd Hall.
  assert (T : title_based c = true) by (destruct Hc as [->| ->]; reflexivity).
  pose proof (title_based_extract c html T F) as E. rewrite Hd in E.
  assert (X : extract_mdna c html = Ok (Some (None, Some (strftime_Y d)))).
  { destruct (extract_after_ok doc Hc) as [A B].
    destruct Hc as [->| ->]; rewrite E;
      (destruct (datetime_gt d cutoff);
       [rewrite A; unfold AppleMDNA__extract_mdna_after_2019;
        change (fun td0 => match text_of td0 with
                           | Some t => startswith (strip t) policies
                           | None => false
                           end) with policy_cell
       |rewrite B; unfold AppleMDNA__extract_mdna_before_2019;
        change (u "divSummary of Significant Accounting Policies")
          with policies_id;
        change (fun div0 => match text_of div0 with
                            | Some _ => true
                            | None => false
                            end) with has_text]);
      now rewrite (find_none_forallb _ _ Hall). }
  split; [exact X|]. rewrite get_mdna_text_unfold, X. reflexivity.
Qed.

Lemma forallb_over_map {A B} (f : A -> B) (p : B -> bool) l :
  forallb p (map f l) = forallb (fun x => p (f x)) l.
Proof. induction l as [|x l IH]; simpl; now rewrite ?IH. Qed.

(** X14.  For Issuers B and D (Netflix, Amazon), on a document with a
    dated title, [extract_mdna] returns the serialization of the first
    division of class "reportContainer subcontainerNotSelected" whose
    serialization contains one of the phrases of the class, together with
    the year of the filing date. *)
Theorem container_extract_mdna c html doc d before div after :
  c = NetflixMDNA \/ c = AmazonMDNA ->
  fromstring html = Ok doc ->
  title_outcome_of doc = Dated d ->
  xpath_any doc (u "div") (u "class") container_class
    = before ++ div :: after ->
  forallb (fun x => negb (holds_phrase c (tostring x))) before = true ->
  holds_phrase c (tostring div) = true ->
  extract_mdna c html
  = Ok (Some (Some (Bytes (tostring div)), Some (strftime_Y d))).
Proof.
  intros Hc F Hd Hx Hb Hdiv.
  assert (T : title_based c = true) by (destruct Hc as [->| ->]; reflexivity).
  pose proof (title_based_extract c html T F) as E. rewrite Hd in E.
  assert (FC : first_container doc (phrases_of c) = Some (Bytes (tostring div))).
  { unfold first_container. fold container_class. rewrite Hx, map_app.
    cbn [map].
    rewrite (@find_middle _ (fun s => existsb (contains s) (phrases_of c))
               (map tostring before) (tostring div) (map tostring after)).
    - reflexivity.
    - rewrite forallb_over_map. exact Hb.
    - exact Hdiv. }
  destruct Hc as [->| ->]; rewrite E; cbn [phrases_of] in FC; now rewrite FC.
Qed.

(** X15.  For Issuers B and D, on a document with a dated title in which
    no such division contains a phrase of the class, [extract_mdna]
    returns no fragment and the year, and [get_mdna_text] returns no text
    and the year; neither raises. *)
Theorem container_not_found c html doc d :
  c = NetflixMDNA \/ c = AmazonMDNA ->
  fromstring html = Ok doc ->
  title_outcome_of doc = Dated d ->
  forallb (fun x => negb (holds_phrase c (tostring x)))
          (xpath_any doc (u "div") (u "class") container_class) = true ->
  extract_mdna c html = Ok (Some (None, Some (strftime_Y d)))
  /\ get_mdna_text c html = Ok (None, Some (strftime_Y d)).
Proof.
  intros Hc F Hd Hall.
  assert (T : title_based c = true) by (destruct Hc as [->| ->]; reflexivity).
  pose proof (title_based_extract c html T F) as E. rewrite Hd in E.
  assert (FC : first_container doc (phrases_of c) = None).
  { unfold first_container. fold container_class.
    destruct (find _ _) as [s|] eqn:Ef; [|reflexivity].
    apply find_some in Ef. destruct Ef as [Hin Hs].
    apply in_map_iff in Hin. destruct Hin as (x & <- & Hin).
    rewrite forallb_forall in Hall. specialize (Hall x Hin).
    unfold holds_phrase in Hall. now rewrite Hs in Hall. }
  assert (X : extract_mdna c html = Ok (Some (None, Some (strftime_Y d)))).
  { destruct Hc as [->| ->]; rewrite E; cbn [phrases_of] in FC; now rewrite FC. }
  split; [exact X|]. rewrite get_mdna_text_unfold, X. reflexivity.
Qed.


(** ** Google *)

Lemma str_find_None s t :
  str_find s t = None ->
  startswith s t = false
  /\ match s with [] => True | _ :: s' => str_find s' t = None end.
Proof.
  destruct s as [|c s]; cbn [str_find]; destruct (startswith _ t);
    try discriminate; auto.
  destruct (str_find s t); [discriminate|auto].
Qed.

Lemma str_find_None_skipn t : forall k s,
  str_find s t = None -> str_find (skipn k s) t = None.
Proof.
  induction k as [|k IH]; intros s H; [exact H|].
  destruct s as [|c s]; [exact H|]. cbn [skipn]. apply IH.
  now destruct (str_find_None _ _ H).
Qed.

(** A lazy [.*?] before a literal fails when the literal does not occur. *)
Lemma lazy_none t : forall s n prev,
  str_find s t = None ->
  Re.star_loop (Re.run Re.AnyChar) false n (Re.Cursor prev s)
    (fun z' => Re.run (Re.Lits t) z' Some) = None.
Proof.
  induction s as [|c s IH]; intros n prev H;
    destruct (str_find_None _ _ H) as [S T];
    destruct n as [|n]; cbn [Re.star_loop]; rewrite run_Lits;
    cbn [Re.after]; rewrite S; try reflexivity.
  match goal with
  | |- Re.run Re.AnyChar _ ?K = _ =>
      change (Re.run Re.AnyChar (Re.Cursor prev (c :: s)) K)
        with (K (Re.Cursor (c :: prev) s))
  end.
  cbv beta. destruct (Re.shorter _ _); [|reflexivity]. now apply IH.
Qed.

Lemma match_mdan_cmp_none prev s :
  startswith s heading = false
  \/ str_find (skipn (length heading) s) (u "<hr") = None ->
  Re.match_at mdan_cmp (Re.Cursor prev s) = None.
Proof.
  intros H. unfold Re.match_at, mdan_cmp. cbn [Re.run].
  rewrite run_Lits. cbn [Re.after Re.before].
  destruct (startswith s heading) eqn:S; [|reflexivity].
  destruct H as [H|H]; [discriminate H|].
  unfold advance. cbn [Re.after Re.before]. now apply lazy_none.
Qed.

Lemma search_mdan_cmp_none : forall s prev,
  (forall i, str_find s heading = Some i ->
             str_find (skipn (i + length heading) s) (u "<hr") = None) ->
  Re.search_from mdan_cmp prev s = None.
Proof.
  induction s as [|c s IH]; intros prev H; cbn [Re.search_from].
  - rewrite match_mdan_cmp_none; [reflexivity|]. left. reflexivity.
  - rewrite match_mdan_cmp_none.
    + apply IH. intros i Hi.
      destruct (startswith (c :: s) heading) eqn:Sw.
      * assert (H0 : str_find (c :: s) heading = Some 0)
          by (cbn [str_find]; now rewrite Sw).
        apply H in H0. cbn [Nat.add] in H0.
        replace (skipn (i + length heading) s)
          with (skipn (S i) (skipn (length heading) (c :: s))).
        -- now apply str_find_None_skipn.
        -- rewrite skipn_skipn. reflexivity.
      * assert (H1 : str_find (c :: s) heading = Some (S i))
          by (cbn [str_find]; now rewrite Sw, Hi).
        apply H in H1. exact H1.
    + destruct (startswith (c :: s) heading) eqn:Sw; [right|now left].
      apply (H 0). cbn [str_find]. now rewrite Sw.
Qed.

(** X16.  For Issuer E, on a [str], [extract_mdna] never raises and never
    gives a year; it gives no fragment exactly when the heading does not
    occur in the document, or no [<hr] follows the first occurrence of the
    heading. *)
Theorem google_extract_mdna_not_found html :
  (exists frag, extract_mdna GoogleMDNA (Str html) = Ok (Some (frag, None)))
  /\ (extract_mdna GoogleMDNA (Str html) = Ok (Some (None, None))
      <-> match str_find html heading with
          | None => True
          | Some i =>
              str_find (skipn (i + length heading) html) (u "<hr") = None
          end).
Proof.
  unfold extract_mdna. cbn [getattr mro first_defined bind].
  unfold GoogleMDNA_extract_mdna, Re.search. split.
  - destruct (Re.search_from mdan_cmp [] html) as [[? m]|]; eauto.
  - destruct (str_find html heading) as [i|] eqn:Hi.
    + destruct (str_find (skipn (i + length heading) html) (u "<hr"))
        as [j|] eqn:Hj.
      * rewrite (search_mdan_cmp _ _ Hi Hj). split; discriminate.
      * rewrite search_mdan_cmp_none; [easy|].
        intros i' Hi'. congruence.
    + rewrite search_mdan_cmp_none; [easy|]. intros i' Hi'. congruence.
Qed.

(** ** Trimmed text *)

Lemma lstrip_head s :
  match lstrip s with c :: _ => isspace c = false | [] => True end.
Proof.
  induction s as [|c s IH]; [exact I|]. cbn [lstrip].
  destruct (isspace c) eqn:E; [exact IH|exact E].
Qed.

Lemma lstrip_snoc c : forall l,
  isspace c = false -> lstrip (l ++ [c]) = lstrip l ++ [c].
Proof.
  intros l H. induction l as [|x l IH]; cbn [app lstrip].
  - now rewrite H.
  - destruct (isspace x); [exact IH|reflexivity].
Qed.

Lemma strip_trimmed s : trimmed (strip s) = true.
Proof.
  unfold strip, rstrip. pose proof (lstrip_head s) as H.
  destruct (lstrip s) as [|c r]; [reflexivity|].
  cbn [rev]. rewrite lstrip_snoc by exact H.
  rewrite rev_app_distr. cbn [rev app trimmed]. rewrite H. cbn [negb andb].
  pose proof (lstrip_head (rev r)) as H'.
  destruct (lstrip (rev r)) as [|x l]; [cbn; now rewrite H|].
  cbn [rev].
  change (c :: rev l ++ [x]) with ((c :: rev l) ++ [x]).
  rewrite last_last. now rewrite H'.
Qed.

Lemma trimmed_strip s : trimmed s = true -> strip s = s.
Proof.
  destruct s as [|c r]; [reflexivity|]. unfold trimmed.
  intros H. apply andb_true_iff in H. destruct H as [Hc Hl].
  apply negb_true_iff in Hc, Hl.
  unfold strip, rstrip. cbn [lstrip]. rewrite Hc.
  assert (Hne : c :: r <> []) by easy.
  destruct (exists_last Hne) as (l & x & E). rewrite E in *.
  rewrite last_last in Hl. rewrite rev_app_distr. cbn [rev app lstrip].
  rewrite Hl. cbn [rev]. now rewrite rev_involutive.
Qed.

Lemma get_text_from_html_unfold c html :
  get_text_from_html c html =
  (doc <- fromstring html ;;
   Ok (strip (text_content (fold_left mark_tag block_tags (self doc))))).
Proof. destruct c; reflexivity. Qed.

(** X17.  The text returned by [get_text_from_html], and the text
    returned by [get_mdna_text], has no whitespace at either end, and
    stripping it again changes nothing. *)
Theorem mdna_text_trimmed c html text :
  (get_text_from_html c html = Ok text ->
   trimmed text = true /\ strip text = text)
  /\ (forall y, get_mdna_text c html = Ok (Some text, y) ->
                trimmed text = true /\ strip text = text).
Proof.
  assert (T : forall m, get_text_from_html c m = Ok text ->
                        trimmed text = true /\ strip text = text).
  { intros m. rewrite get_text_from_html_unfold.
    destruct (fromstring m) as [doc|e]; cbn [bind]; [|discriminate].
    intros [= <-]. split; [apply strip_trimmed|].
    apply trimmed_strip, strip_trimmed. }
  split; [apply T|]. intros y. rewrite get_mdna_text_unfold.
  destruct (extract_mdna c html) as [[[[f|] y']|]|e']; cbn [bind];
    try discriminate.
  destruct (get_text_from_html c f) as [t|e''] eqn:G; cbn [bind];
    [|discriminate].
  intros [= -> ->]. now apply (T f).
Qed.

(** X18.  On a document that parses, a title-based [extract_mdna] raises
    nothing but [IndexError], on a title without a token, and
    [ValueError], on a last token that is no date; [get_mdna_text] raises
    nothing but these two, [TypeError] on a missing title, and what the
    parser raises on the fragment that was found. *)
Theorem title_based_raises c html doc e :
  title_based c = true -> fromstring html = Ok doc ->
  (extract_mdna c html = Raise e ->
   (title_outcome_of doc = NoToken /\ e = IndexError)
   \/ (title_outcome_of doc = BadDate /\ e = ValueError))
  /\ (get_mdna_text c html = Raise e ->
      (title_outcome_of doc = NoTitle /\ e = TypeError)
      \/ (title_outcome_of doc = NoToken /\ e = IndexError)
      \/ (title_outcome_of doc = BadDate /\ e = ValueError)
      \/ exists d fragment,
           title_outcome_of doc = Dated d
           /\ extract_mdna c html
              = Ok (Some (Some fragment, Some (strftime_Y d)))
           /\ fromstring fragment = Raise e).
Proof.
  intros Hc F. pose proof (title_based_extract c html Hc F) as E.
  rewrite get_mdna_text_unfold.
  destruct (title_outcome_of doc) as [| | |d] eqn:Ht.
  - rewrite E. cbn [bind]. split; [discriminate|].
    intros [= <-]. now left.
  - rewrite E. cbn [bind]. split; intros [= <-]; auto.
  - rewrite E. cbn [bind]. split; intros [= <-]; auto.
  - destruct (dated_extract c html Hc F Ht) as (frag & E').
    rewrite E'. cbn [bind]. split; [discriminate|].
    destruct frag as [f|]; [|discriminate].
    rewrite get_text_from_html_unfold.
    destruct (fromstring f) as [doc'|e'] eqn:F'; cbn [bind]; [discriminate|].
    intros [= <-]. right. right. right. now exists d, f.
Qed.

End ExtractorCases.

(** * Properties of the driver *)
Section DriverFacts.
Context {U : Unicode} {L : Lxml} {W : Host}.

Lemma for_each_app step : forall before after st,
  for_each step (before ++ after) st
  = (st' <~ for_each step before st ;; for_each step after st').
Proof.
  induction before as [|f before IH]; intros after st; [reflexivity|].
  cbn [app for_each]. destruct (step f st) as [e|st1]; [reflexivity|].
  cbn [and_then]. apply IH.
Qed.

Lemma write_row_returns company year text st st' :
  write_row company year text st = inr st' ->
  (exists score, Fog.calculate_fog text = Ok score) /\ snd st' = S (snd st).
Proof.
  unfold write_row. destruct st as [sheet row].
  destruct (cell sheet row 1 _) as [e|s1]; [discriminate|]. cbn [library and_then].
  destruct (cell s1 row 2 _) as [e|s2]; [discriminate|]. cbn [library and_then].
  destruct (cell s2 row 3 _) as [e|s3]; [discriminate|]. cbn [library and_then].
  destruct (Fog.calculate_fog text) as [score|e]; [|discriminate].
  cbn [python and_then].
  destruct (cell s3 row 4 _) as [e|s4]; [discriminate|]. cbn [library and_then].
  intros [= <-]. split; [now exists score|reflexivity].
Qed.

(** X24.  What [main] does with one document of the directories apple,
    netflix, facebook and amazon: a document in which the extractor finds
    no fragment is skipped, the sheet and the row stay as they are; and
    whenever the step returns, the document was either skipped in this way
    or it got a text and a score, and the row moved on by one. *)
Theorem title_step_returns c company dir file st :
  (forall html y,
     read_text (dir ++ file) Windows1252 = inr html ->
     extract_mdna c (Str html) = Ok (Some (None, y)) ->
     title_step c company dir file st = inr st)
  /\ (forall st',
        title_step c company dir file st = inr st' ->
        exists html,
          read_text (dir ++ file) Windows1252 = inr html
          /\ ((exists y, extract_mdna c (Str html) = Ok (Some (None, y))
                         /\ st' = st)
              \/ (exists text y score,
                    get_mdna_text c (Str html) = Ok (Some text, y)
                    /\ Fog.calculate_fog text = Ok score
                    /\ snd st' = S (snd st)))).
Proof.
  unfold title_step. split.
  - intros html y R E. rewrite R. cbn [library and_then].
    rewrite get_mdna_text_unfold, E. reflexivity.
  - intros st'. destruct (read_text (dir ++ file) Windows1252) as [e|html];
      [discriminate|]. cbn [library and_then].
    destruct (get_mdna_text c (Str html)) as [[text y]|e] eqn:G;
      [|discriminate]. cbn [python and_then fst snd].
    intros R. exists html. split; [reflexivity|].
    destruct text as [text|].
    + right. apply write_row_returns in R. destruct R as [[score Hs] Hr].
      now exists text, y, score.
    + left. exists y. injection R as <-. split; [|reflexivity].
      rewrite get_mdna_text_unfold in G.
      destruct (extract_mdna c (Str html)) as [[[[f|] y']|]|e'];
        cbn [bind] in G; try discriminate G.
      * destruct (get_text_from_html c f); discriminate G.
      * now injection G as <-.
Qed.

(** X25.  A filing without a title span, or without a title text, aborts
    the run: when the files before it went through, the loop over its
    directory raises [TypeError], and for the directory apple so does
    [main], which then saves no workbook. *)
Theorem driver_missing_title c company dir before file after st0 st html doc :
  title_based c = true ->
  for_each (title_step c company dir) before st0 = inr st ->
  read_text (dir ++ file) Windows1252 = inr html ->
  fromstring (Str html) = Ok doc ->
  title_outcome_of doc = NoTitle ->
  for_each (title_step c company dir) (before ++ file :: after) st0
  = inl (Python TypeError)
  /\ (forall sheet,
        c = AppleMDNA -> company = u "APPLE INC" -> dir = u "apple/" ->
        write_titles new_sheet 1 title_list = inr sheet ->
        st0 = (sheet, 2) ->
        listdir (u "./apple") = inr (before ++ file :: after) ->
        main = inl (Python TypeError)).
Proof.
  intros Hc Hb R F T.
  assert (E : for_each (title_step c company dir) (before ++ file :: after) st0
              = inl (Python TypeError)).
  { rewrite for_each_app, Hb. cbn [and_then for_each].
    unfold title_step. rewrite R. cbn [library and_then].
    pose proof (title_based_extract c (Str html) Hc F) as X.
    rewrite T in X. rewrite get_mdna_text_unfold, X. reflexivity. }
  split; [exact E|].
  intros sheet -> -> -> Hs -> Hl. unfold main.
  rewrite Hs. cbn [and_then]. rewrite Hl. cbn [library and_then].
  now rewrite E.
Qed.


Lemma for_each_rows step :
  (forall f st st', step f st = inr st' -> snd st <= snd st' <= S (snd st)) ->
  forall files st st',
    for_each step files st = inr st' ->
    snd st <= snd st' <= snd st + length files.
Proof.
  intros Hstep. induction files as [|f files IH]; intros st st' H.
  - injection H as <-. simpl. lia.
  - cbn [for_each] in H. destruct (step f st) as [e|st1] eqn:E;
      [discriminate|]. cbn [and_then] in H.
    apply Hstep in E. apply IH in H. simpl. lia.
Qed.

(** X27.  A loop of [main] over the files of a directory never moves the
    row back, and moves it on by at most one row per file. *)
Theorem driver_rows c company dir files st st' :
  (for_each (title_step c company dir) files st = inr st' ->
   snd st <= snd st' <= snd st + length files)
  /\ (for_each google_step files st = inr st' ->
      snd st <= snd st' <= snd st + length files).
Proof.
  split; apply for_each_rows.
  - intros f s s'. unfold title_step.
    destruct (read_text _ _) as [e|html]; [discriminate|].
    cbn [library and_then].
    destruct (get_mdna_text c (Str html)) as [[[text|] y]|e];
      cbn [python and_then fst snd]; try discriminate.
    + intros H. apply write_row_returns in H. lia.
    + intros [= <-]. lia.
  - intros f s s'. unfold google_step.
    destruct (first_token f) as [year|e]; [|discriminate].
    cbn [python and_then].
    destruct (match read_text _ _ with inr s0 => inr s0 | inl _ => _ end)
      as [e|html]; [discriminate|].
    cbn [library and_then].
    destruct (get_mdna_text GoogleMDNA (Str html)) as [[[text|] y]|e];
      cbn [python and_then fst snd]; try discriminate.
    + intros H. apply write_row_returns in H. lia.
    + intros [= <-]. lia.
Qed.

End DriverFacts.

(** * The further statements on concrete inputs *)

(** The word "beautiful" is complex and has nine characters. *)
Lemma count_syllables_half_length_witness : 5 <= length (u "beautiful").
Proof.
  apply (proj2 (@count_syllables_half_length ascii_only (u "beautiful"))).
  vm_compute. reflexivity.
Defined.

(** The shape of the sentence "This is Mr." of the example text. *)
Lemma identify_sentences_shape_witness :
  exists pre post c body t,
    smith_report = pre ++ u "This is Mr." ++ post
    /\ u "This is Mr." = c :: body ++ [t]
    /\ is_upper c = true
    /\ @sentence_body ascii_only body = true
    /\ terminator t = true
    /\ (pre = [] \/ exists pre' p, pre = pre' ++ [p] /\ @is_word ascii_only p = false).
Proof.
  apply (@identify_sentences_shape ascii_only smith_report (u "This is Mr.")).
  vm_compute. left. reflexivity.
Defined.

(** A text in lowercase has no sentence and no score. *)
Lemma calculate_fog_needs_sentence_witness :
  @Fog.identify_sentences ascii_only (u "no capital letter. none at all!") = []
  /\ @Fog.calculate_fog ascii_only (u "no capital letter. none at all!")
     = Raise ZeroDivisionError.
Proof.
  apply (@calculate_fog_needs_sentence ascii_only).
  left. vm_compute. reflexivity.
Defined.

(** The words of "Hello, big world." *)
Lemma identify_words_plain_witness :
  @Fog.identify_words ascii_only (u "Hello, big world.")
  = [u "Hello"; u "big"; u "world"].
Proof.
  apply (@identify_words_plain ascii_only (u "Hello, big world.")).
  vm_compute. reflexivity.
Defined.

(** The document without a filing title, read as a Netflix filing. *)
Lemma get_mdna_text_no_title_witness :
  @get_mdna_text ascii_only example_lxml NetflixMDNA (Str untitled_source)
  = Raise TypeError.
Proof.
  apply (@get_mdna_text_no_title ascii_only example_lxml NetflixMDNA
           (Str untitled_source) untitled); vm_compute; reflexivity.
Defined.

(** The year of the filing of the cutoff day. *)
Lemma get_mdna_text_year_witness :
  (title_based AppleMDNA = true
   /\ exists doc d,
        @fromstring example_lxml (Str filing_cutoff_source) = Ok doc
        /\ @title_outcome_of ascii_only doc = Dated d
        /\ Some (u "2019") = Some (strftime_Y d)
        /\ 1 <= length (strftime_Y d) <= 4
        /\ forallb is_ascii_digit (strftime_Y d) = true)
  \/ (AppleMDNA = GoogleMDNA /\ Some (u "2019") = None).
Proof.
  apply (@get_mdna_text_year ascii_only example_lxml AppleMDNA
           (Str filing_cutoff_source) None (Some (u "2019"))).
  vm_compute. reflexivity.
Defined.

(** The year of the filing of 10/15/2020 is the end of its date. *)
Lemma extract_mdna_year_witness :
  year_of (Some (Some (Bytes (serialize policy_td)), Some (u "2020")))
  = Some (drop_zeros (last_four (u "10/15/2020"))).
Proof.
  apply (@extract_mdna_year ascii_only example_lxml AppleMDNA
           (Str filing_2020_source) filing_2020
           (elem "span" [] (Some (u "Annual Report 10/15/2020")) []) []
           (u "Annual Report 10/15/2020") (u "10/15/2020"));
    vm_compute; reflexivity.
Defined.

(** The filing of 09/29/2018: the first child division with a text. *)
Lemma apple_extract_mdna_before_cutoff_witness :
  @extract_mdna ascii_only archive_lxml AppleMDNA (Str filing_2018_source)
  = Ok (Some (Some (Bytes (serialize basis_div)), Some (u "2018")))
  /\ (2018 <= 2019)%N.
Proof.
  apply (@apple_extract_mdna_before_cutoff ascii_only archive_lxml AppleMDNA
           (Str filing_2018_source) filing_2018 (Datetime 2018 9 29)
           [elem "div" [] None []] basis_div []);
    try (left; reflexivity); vm_compute; reflexivity.
Defined.

(** The filing of the cutoff day has no policies division. *)
Lemma apple_extract_mdna_not_found_witness :
  @extract_mdna ascii_only example_lxml FacebookMDNA (Str filing_cutoff_source)
  = Ok (Some (None, Some (u "2019")))
  /\ @get_mdna_text ascii_only example_lxml FacebookMDNA (Str filing_cutoff_source)
     = Ok (None, Some (u "2019")).
Proof.
  apply (@apple_extract_mdna_not_found ascii_only example_lxml FacebookMDNA
           (Str filing_cutoff_source) filing_cutoff cutoff);
    try (right; reflexivity); vm_compute; reflexivity.
Defined.

(** The filing of 12/31/2017, read as a Netflix filing: its second
    container holds the phrase. *)
Lemma container_extract_mdna_witness :
  @extract_mdna ascii_only archive_lxml NetflixMDNA (Str filing_2017_source)
  = Ok (Some (Some (Bytes (serialize policy_container)), Some (u "2017"))).
Proof.
  apply (@container_extract_mdna ascii_only archive_lxml NetflixMDNA
           (Str filing_2017_source) filing_2017 (Datetime 2017 12 31)
           [segment_container] policy_container []);
    try (left; reflexivity); vm_compute; reflexivity.
Defined.

(** The same filing read as an Amazon filing: no container holds a phrase
    of that class. *)
Lemma container_not_found_witness :
  @extract_mdna ascii_only archive_lxml AmazonMDNA (Str filing_2017_source)
  = Ok (Some (None, Some (u "2017")))
  /\ @get_mdna_text ascii_only archive_lxml AmazonMDNA (Str filing_2017_source)
     = Ok (None, Some (u "2017")).
Proof.
  apply (@container_not_found ascii_only archive_lxml AmazonMDNA
           (Str filing_2017_source) filing_2017 (Datetime 2017 12 31));
    try (right; reflexivity); vm_compute; reflexivity.
Defined.

(** The document with the heading in ASCII holds no heading of the
    pattern. *)
Lemma google_extract_mdna_not_found_witness :
  @extract_mdna ascii_only example_lxml GoogleMDNA (Str ascii_heading_document)
  = Ok (Some (None, None)).
Proof.
  apply (proj2 (proj2 (@google_extract_mdna_not_found ascii_only example_lxml
                         ascii_heading_document))).
  vm_compute. exact I.
Defined.

(** The text of the division "Basis of Presentation ", trimmed. *)
Lemma mdna_text_trimmed_witness :
  trimmed (u "Basis of Presentation") = true
  /\ strip (u "Basis of Presentation") = u "Basis of Presentation".
Proof.
  apply (proj1 (@mdna_text_trimmed ascii_only archive_lxml BaseMDNA
                  (Bytes (serialize basis_div)) (u "Basis of Presentation"))).
  vm_compute. reflexivity.
Defined.

(** The ISO date of [filing_iso_date] is the cause of the [ValueError]. *)
Lemma title_based_raises_witness :
  (@title_outcome_of ascii_only filing_iso_date = NoToken /\ ValueError = IndexError)
  \/ (@title_outcome_of ascii_only filing_iso_date = BadDate
      /\ ValueError = ValueError).
Proof.
  apply (proj1 (@title_based_raises ascii_only example_lxml AmazonMDNA
                  (Str filing_iso_date_source) filing_iso_date ValueError
                  eq_refl eq_refl)).
  vm_compute. reflexivity.
Defined.

(** The text "It is 3.5. Ok." is cut after its first sentence. *)
Lemma identify_sentences_app_witness :
  @Fog.identify_sentences ascii_only ((u "It is 3.5" ++ [46%N]) ++ u " Ok.")
  = @Fog.identify_sentences ascii_only (u "It is 3.5" ++ [46%N])
    ++ @Fog.identify_sentences ascii_only (u " Ok.").
Proof.
  apply (@identify_sentences_app ascii_only (u "It is 3.5") 46%N (u " Ok.")).
  vm_compute. reflexivity.
Defined.

(** The text "fog-index 3's" is cut at its blank. *)
Lemma identify_words_app_witness :
  @Fog.identify_words ascii_only (u "fog-index" ++ 32%N :: u "3's")
  = @Fog.identify_words ascii_only (u "fog-index")
    ++ @Fog.identify_words ascii_only (u "3's")
  /\ @Fog.count_words ascii_only (u "fog-index" ++ 32%N :: u "3's")
     = @Fog.count_words ascii_only (u "fog-index")
       + @Fog.count_words ascii_only (u "3's").
Proof.
  apply (@identify_words_app ascii_only (u "fog-index") 32%N (u "3's")).
  vm_compute. reflexivity.
Defined.

(** The filing of the cutoff day holds no fragment and is skipped. *)
Lemma title_step_returns_witness :
  @title_step ascii_only example_lxml example_host AppleMDNA (u "APPLE INC")
    (u "apple/") (u "a.html") ([], 2)
  = inr ([], 2).
Proof.
  apply (proj1 (@title_step_returns ascii_only example_lxml example_host
                  AppleMDNA (u "APPLE INC") (u "apple/") (u "a.html") ([], 2))
           filing_cutoff_source (Some (u "2019")));
    vm_compute; reflexivity.
Defined.

(** The second file of the directory apple has no title: the run of
    [main] on the example host ends in a [TypeError]. *)
Lemma driver_missing_title_witness :
  @main ascii_only example_lxml example_host = inl (Python TypeError).
Proof.
  apply (proj2 (@driver_missing_title ascii_only example_lxml example_host
                  AppleMDNA (u "APPLE INC") (u "apple/")
                  [u "a.html"] (u "b.html") [u "c.html"]
                  ([(1, 1, VStr (u "company")); (1, 2, VStr (u "year"));
                    (1, 3, VStr (u "MD&A")); (1, 4, VStr (u "fog"))], 2)
                  ([(1, 1, VStr (u "company")); (1, 2, VStr (u "year"));
                    (1, 3, VStr (u "MD&A")); (1, 4, VStr (u "fog"))], 2)
                  untitled_source untitled
                  eq_refl eq_refl eq_refl eq_refl eq_refl)
           [(1, 1, VStr (u "company")); (1, 2, VStr (u "year"));
            (1, 3, VStr (u "MD&A")); (1, 4, VStr (u "fog"))]);
    reflexivity.
Defined.


(** The loop over the skipped filing leaves the row at 2. *)
Lemma driver_rows_witness : 2 <= 2 <= 2 + 1.
Proof.
  apply (proj1 (@driver_rows ascii_only example_lxml example_host AppleMDNA
                  (u "APPLE INC") (u "apple/") [u "a.html"] ([], 2) ([], 2))).
  vm_compute. reflexivity.
Defined.
